(** * Watt's Up: the usage ledger of [src/WattsUpApp.js]

    A shallow embedding of the state, the event handlers and the effects of
    the [WattsUpApp] component, together with the ECMAScript built-ins they
    call ([parseInt], [parseFloat], [Number::toString], [JSON.stringify],
    [JSON.parse], arithmetic and comparison on Numbers).

    - A JavaScript Number is an IEEE 754 binary64 value: [spec_float] of the
      standard library at precision 53 and maximal exponent 1024, with its
      operations rounding to nearest, ties to even.  The doubles are the
      [valid] ones among the [spec_float]s, and the operations give
      nothing else.
    - A JavaScript string is a [string]; the alphabet is restricted to code
      units below 256.
    - A usage item is a record of the five properties of the object literal
      in [handleAddAppliance]; a numeric property holds a Number or [null],
      which is what [JSON.parse] gives back for a NaN or an infinity.
    - [Date.now()] is an argument of the submit event.
    - Of the rendering layer (JSX), the comparison bar of the insights tab
      and the usage list of the calculator tab are modelled; the tab
      selection and the random tip are presentation state that no handler
      below reads, and are left out. *)

From Stdlib Require Import ZArith NArith List Bool String Ascii Lia Permutation.
From Stdlib Require Import DecimalString DecimalN.
From Stdlib Require DecimalFacts DecimalPos.
From Stdlib Require Import Floats.SpecFloat.
Import ListNotations.

Local Open Scope Z_scope.

(** ** Numbers *)

Module JSNumber.

Definition prec : Z := 53.
Definition emax : Z := 1024.

Definition number : Type := spec_float.

Definition NaN : number := S754_nan.
Definition pos_zero : number := S754_zero false.

Definition add : number -> number -> number := SFadd prec emax.
Definition mul : number -> number -> number := SFmul prec emax.
Definition div : number -> number -> number := SFdiv prec emax.

(** [x <= y], [x < y] and [x === y] on Numbers; all three are false as
    soon as one side is NaN, and the two zeros are equal. *)
Definition leb : number -> number -> bool := SFleb.
Definition ltb : number -> number -> bool := SFltb.
Definition eqb : number -> number -> bool := SFeqb.

Definition is_nan (x : number) : bool :=
  match x with S754_nan => true | _ => false end.

(** A double as the standard stores it: the mantissa has 53 bits, or
    fewer at the smallest exponent. *)
Definition valid (x : number) : bool := valid_binary prec emax x.

(** The Number value of an integer (round to nearest, ties to even). *)
Definition of_Z (z : Z) : number := binary_normalize prec emax z 0 false.

(** The Number value of the decimal [m * 10^e], [m] a natural number,
    with the sign [neg].  Beyond 10^400 the value rounds to an infinity,
    below 10^-400 to a zero; the guards only avoid building such powers. *)
Definition of_decimal (neg : bool) (m : N) (e : Z) : number :=
  match m with
  | N0 => S754_zero neg
  | Npos p =>
      let nd := (Z.log2 (Zpos p) * 30103) / 100000 + 1 in
      if 400 <? nd + e then S754_infinity neg
      else if nd + e <? -400 then S754_zero neg
      else if 0 <=? e then binary_round prec emax neg (p * Z.to_pos (10 ^ e)) 0
      else div (S754_finite neg p 0)
               (S754_finite false (Z.to_pos (10 ^ (- e))) 0)
  end.

End JSNumber.

Import JSNumber.

(** ** Strings and the numeric conversions of ECMAScript *)

Module JSString.

Local Open Scope string_scope.
Local Open Scope Z_scope.

Definition code (c : ascii) : Z := Z.of_N (N_of_ascii c).

Definition is_digit (c : ascii) : bool := (48 <=? code c) && (code c <=? 57).

Definition digit_value (c : ascii) : Z := code c - 48.

(** WhiteSpace and LineTerminator code units below 256: TAB, LF, VT, FF,
    CR, SP and NBSP. *)
Definition is_js_space (c : ascii) : bool :=
  let n := code c in
  ((9 <=? n) && (n <=? 13)) || (n =? 32) || (n =? 160).

(** TrimString(s, start). *)
Fixpoint trim_start (s : string) : string :=
  match s with
  | String c r => if is_js_space c then trim_start r else s
  | EmptyString => s
  end.

(** The longest prefix made of decimal digits, and what follows it. *)
Fixpoint take_digits (s : string) : string * string :=
  match s with
  | String c r =>
      if is_digit c
      then let '(d, rest) := take_digits r in (String c d, rest)
      else (EmptyString, s)
  | EmptyString => (EmptyString, EmptyString)
  end.

(** The natural number written by a string of decimal digits. *)
Fixpoint digits_value (acc : Z) (s : string) : Z :=
  match s with
  | String c r => digits_value (10 * acc + digit_value c) r
  | EmptyString => acc
  end.

(** A leading sign: whether it is a minus, and the string after it. *)
Definition take_sign (s : string) : bool * string :=
  match s with
  | String c r =>
      if Ascii.eqb c "-" then (true, r)
      else if Ascii.eqb c "+" then (false, r)
      else (false, s)
  | EmptyString => (false, s)
  end.

Fixpoint starts_with (p s : string) : option string :=
  match p, s with
  | EmptyString, _ => Some s
  | String a p', String b s' =>
      if Ascii.eqb a b then starts_with p' s' else None
  | String _ _, EmptyString => None
  end.

(** [parseInt(string, 10)] on a string argument: leading white space is
    dropped, a sign is read, then the longest run of digits; what follows
    the digits is ignored.  No digit at all gives NaN. *)
Definition parseInt_string (s : string) : number :=
  let '(neg, s1) := take_sign (trim_start s) in
  let '(z, _) := take_digits s1 in
  match z with
  | EmptyString => NaN
  | _ => of_decimal neg (Z.to_N (digits_value 0 z)) 0
  end.

(** An ExponentPart at the head of [s], if there is a complete one:
    [e] or [E], an optional sign, at least one digit. *)
Definition take_exponent (s : string) : Z * string :=
  match s with
  | String c r =>
      if Ascii.eqb c "e" || Ascii.eqb c "E" then
        let '(eneg, r1) := take_sign r in
        let '(ed, r2) := take_digits r1 in
        match ed with
        | EmptyString => (0, s)
        | _ => ((if eneg then - digits_value 0 ed else digits_value 0 ed), r2)
        end
      else (0, s)
  | EmptyString => (0, s)
  end.

(** The longest prefix of [s] that is a StrUnsignedDecimalLiteral other
    than [Infinity], as mantissa digits and decimal exponent, and the
    rest of [s]; [None] when no prefix is one. *)
Definition take_decimal (s : string) : option (Z * Z * string) :=
  let '(ip, r1) := take_digits s in
  let '(fp, r2) :=
    match r1 with
    | String c r => if Ascii.eqb c "." then take_digits r else (EmptyString, r1)
    | EmptyString => (EmptyString, r1)
    end in
  match ip, fp with
  | EmptyString, EmptyString => None
  | _, _ =>
      let '(ex, r3) := take_exponent r2 in
      Some (digits_value 0 (ip ++ fp), ex - Z.of_nat (String.length fp), r3)
  end.

(** [parseFloat(string)] on a string argument: the longest prefix of the
    trimmed string that is a StrDecimalLiteral, NaN when there is none. *)
Definition parseFloat_string (s : string) : number :=
  let '(neg, s1) := take_sign (trim_start s) in
  match starts_with "Infinity" s1 with
  | Some _ => S754_infinity neg
  | None =>
      match take_decimal s1 with
      | Some (m, e, _) => of_decimal neg (Z.to_N m) e
      | None => NaN
      end
  end.

(** *** Number::toString(x, 10) *)

(** The numerator and the denominator of [m * 2^e / 10^t]. *)
Definition scaled (m : positive) (e t : Z) : Z * Z :=
  (Zpos m * 2 ^ Z.max e 0 * 10 ^ Z.max (- t) 0,
   2 ^ Z.max (- e) 0 * 10 ^ Z.max t 0).

(** [m * 2^e < 10^n]. *)
Definition below_pow10 (m : positive) (e n : Z) : bool :=
  let '(a, b) := scaled m e n in a <? b.

(** The [n] with [10^(n-1) <= m * 2^e < 10^n], found from the binary
    logarithm, which is off by two at most. *)
Definition decimal_exponent (m : positive) (e : Z) : Z :=
  let est := ((Z.log2 (Zpos m) + e) * 30103) / 100000 in
  if below_pow10 m e (est - 1) then est - 1
  else if below_pow10 m e est then est
  else if below_pow10 m e (est + 1) then est + 1
  else if below_pow10 m e (est + 2) then est + 2
  else est + 3.

(** The integer nearest to [m * 2^e / 10^t], the even one on a tie. *)
Definition nearest (m : positive) (e t : Z) : Z :=
  let '(a, b) := scaled m e t in
  let q := a / b in
  match 2 * (a mod b) ?= b with
  | Lt => q
  | Gt => q + 1
  | Eq => if Z.even q then q else q + 1
  end.

(** The integer on the other side of [m * 2^e / 10^t]; [nearest] again
    when the quotient is an integer. *)
Definition other (m : positive) (e t : Z) : Z :=
  let '(a, b) := scaled m e t in
  let q := a / b in
  if a mod b =? 0 then q
  else if nearest m e t =? q then q + 1 else q.

(** The decimal [s * 10^(n-k)] as [(s, n)], with [s] of [k] digits: a
    rounding up to [10^k] is [10^(k-1)] at the next exponent. *)
Definition candidate (m : positive) (e k s : Z) : Z * Z :=
  let n := decimal_exponent m e in
  if s =? 10 ^ k then (10 ^ (k - 1), n + 1) else (s, n).

(** Whether the Number value of [s * 10^(n-k)] is [m * 2^e]. *)
Definition reads_back (m : positive) (e k : Z) (c : Z * Z) : bool :=
  match of_decimal false (Z.to_N (fst c)) (snd c - k) with
  | S754_finite false m' e' => Pos.eqb m m' && (e =? e')
  | _ => false
  end.

(** The least [k], from [k] upwards, for which a decimal of [k] digits
    reads back as [m * 2^e], with [s] and [n]: of the two decimals of [k]
    digits around [m * 2^e], the nearest if it reads back, else the
    other.  After [fuel] failures the nearest is taken as it is: the
    nearest decimal of 17 digits always reads back, see
    [seventeen_digits]. *)
Fixpoint shortest (fuel : nat) (m : positive) (e k : Z) : Z * Z * Z :=
  let t := decimal_exponent m e - k in
  let c1 := candidate m e k (nearest m e t) in
  let c2 := candidate m e k (other m e t) in
  match fuel with
  | O => (fst c1, k, snd c1)
  | S f => if reads_back m e k c1 then (fst c1, k, snd c1)
           else if reads_back m e k c2 then (fst c2, k, snd c2)
           else shortest f m e (k + 1)
  end.

Definition digits_of (z : Z) : string :=
  NilZero.string_of_uint (N.to_uint (Z.to_N z)).

Fixpoint zeros (n : nat) : string :=
  match n with
  | O => EmptyString
  | S n' => String "0" (zeros n')
  end.

(** Steps 7 to 11 of Number::toString: the decimal digits of [s], which
    are [k] many, laid out for the decimal exponent [n]. *)
Definition format_decimal (s k n : Z) : string :=
  let ds := digits_of s in
  if (k <=? n) && (n <=? 21) then ds ++ zeros (Z.to_nat (n - k))
  else if (0 <? n) && (n <=? 21) then
    substring 0 (Z.to_nat n) ds ++ "."
      ++ substring (Z.to_nat n) (Z.to_nat (k - n)) ds
  else if (-6 <? n) && (n <=? 0) then "0." ++ zeros (Z.to_nat (- n)) ++ ds
  else
    let es := (if n - 1 <? 0 then "-" else "+") ++ digits_of (Z.abs (n - 1)) in
    if k =? 1 then ds ++ "e" ++ es
    else substring 0 1 ds ++ "."
           ++ substring 1 (Z.to_nat (k - 1)) ds ++ "e" ++ es.

Definition Number_toString (x : number) : string :=
  match x with
  | S754_nan => "NaN"
  | S754_zero _ => "0"
  | S754_infinity s => if s then "-Infinity" else "Infinity"
  | S754_finite s m e =>
      let '(d, k, n) := shortest 16 m e 1 in
      (if s then "-" else "") ++ format_decimal d k n
  end.

(** *** Values of the form fields

    [newWatts] and [newHours] hold a Number (the initial values, a
    catalog wattage, the reset to 24) or the text of an input element. *)
Inductive input : Type :=
| InNumber (x : number)
| InText (s : string).

Definition ToString (v : input) : string :=
  match v with
  | InNumber x => Number_toString x
  | InText s => s
  end.

Definition parseInt (v : input) : number := parseInt_string (ToString v).
Definition parseFloat (v : input) : number := parseFloat_string (ToString v).

End JSString.

Import JSString.

Local Open Scope string_scope.
Local Open Scope Z_scope.

(** ** The component state *)

(** What a numeric property of a usage item holds: a Number, or [null]
    once a NaN or an infinity has been through [JSON.stringify]. *)
Inductive jsval : Type :=
| VNumber (x : number)
| VNull.

(** ToNumber, as [*] applies it to its operands. *)
Definition ToNumber (v : jsval) : number :=
  match v with
  | VNumber x => x
  | VNull => pos_zero
  end.

(** [a === b] and [a !== b]. *)
Definition strict_eq (a b : jsval) : bool :=
  match a, b with
  | VNumber x, VNumber y => eqb x y
  | VNull, VNull => true
  | _, _ => false
  end.

Definition strict_neq (a b : jsval) : bool := negb (strict_eq a b).

(** One element of [usageItems]: the object literal of
    [handleAddAppliance]. *)
Record item : Type := mkItem {
  id : jsval;
  name : string;
  watts : jsval;
  hours : jsval;
  kWh : jsval
}.

Definition APPLIANCES : list (string * Z) :=
  [ ("Refrigerator", 150); ("AC/Heater", 1500); ("Laptop", 50);
    ("Desktop Computer", 200); ("TV", 100); ("Microwave", 1000);
    ("Washing Machine", 500); ("Dryer", 3000); ("Light Bulb (LED)", 9);
    ("Light Bulb (Incandescent)", 60); ("Dishwasher", 1200);
    ("Electric Oven", 2150); ("Coffee Maker", 1000); ("Toaster", 1100);
    ("Hair Dryer", 1800); ("Ceiling Fan", 75); ("Router/Modem", 15);
    ("Gaming Console", 150); ("Phone Charger", 5); ("Other", 0) ].

Definition US_AVERAGE_KWH : number := of_Z 30.

(** The [useState] cells of [WattsUpApp]. *)
Record state : Type := mkState {
  usageItems : list item;
  newAppliance : string;
  newWatts : input;
  newHours : input;
  totalKwh : number;
  comparisonPercentage : number;
  isSaved : bool
}.

Definition initial_state : state :=
  {| usageItems := [];
     newAppliance := "Refrigerator";
     newWatts := InNumber (of_Z 150);
     newHours := InNumber (of_Z 24);
     totalKwh := of_Z 0;
     comparisonPercentage := of_Z 0;
     isSaved := false |}.

Definition setUsageItems (l : list item) (st : state) : state :=
  {| usageItems := l; newAppliance := newAppliance st;
     newWatts := newWatts st; newHours := newHours st;
     totalKwh := totalKwh st;
     comparisonPercentage := comparisonPercentage st;
     isSaved := isSaved st |}.

Definition setNewAppliance (a : string) (st : state) : state :=
  {| usageItems := usageItems st; newAppliance := a;
     newWatts := newWatts st; newHours := newHours st;
     totalKwh := totalKwh st;
     comparisonPercentage := comparisonPercentage st;
     isSaved := isSaved st |}.

Definition setNewWatts (w : input) (st : state) : state :=
  {| usageItems := usageItems st; newAppliance := newAppliance st;
     newWatts := w; newHours := newHours st;
     totalKwh := totalKwh st;
     comparisonPercentage := comparisonPercentage st;
     isSaved := isSaved st |}.

Definition setNewHours (h : input) (st : state) : state :=
  {| usageItems := usageItems st; newAppliance := newAppliance st;
     newWatts := newWatts st; newHours := h;
     totalKwh := totalKwh st;
     comparisonPercentage := comparisonPercentage st;
     isSaved := isSaved st |}.

Definition setTotalKwh (t : number) (st : state) : state :=
  {| usageItems := usageItems st; newAppliance := newAppliance st;
     newWatts := newWatts st; newHours := newHours st;
     totalKwh := t;
     comparisonPercentage := comparisonPercentage st;
     isSaved := isSaved st |}.

Definition setComparisonPercentage (p : number) (st : state) : state :=
  {| usageItems := usageItems st; newAppliance := newAppliance st;
     newWatts := newWatts st; newHours := newHours st;
     totalKwh := totalKwh st;
     comparisonPercentage := p;
     isSaved := isSaved st |}.

Definition setIsSaved (b : bool) (st : state) : state :=
  {| usageItems := usageItems st; newAppliance := newAppliance st;
     newWatts := newWatts st; newHours := newHours st;
     totalKwh := totalKwh st;
     comparisonPercentage := comparisonPercentage st;
     isSaved := b |}.

(** ** Handlers and effects *)

(** The reducer of the aggregate effect:
    [(sum, item) => sum + (item.watts * item.hours) / 1000]. *)
Definition reducer (sum : number) (it : item) : number :=
  add sum (div (mul (ToNumber (watts it)) (ToNumber (hours it))) (of_Z 1000)).

(** [usageItems.reduce(reducer, 0)]. *)
Definition total_of (l : list item) : number :=
  fold_left reducer l (of_Z 0).

(** The effect on [usageItems] (lines 101-112). *)
Definition recomputeAggregate (st : state) : state :=
  let total := total_of (usageItems st) in
  setIsSaved false
    (setComparisonPercentage (mul (div total US_AVERAGE_KWH) (of_Z 100))
       (setTotalKwh total st)).

(** The object literal [newItem]; [now] is the value of [Date.now()]. *)
Definition newItem (now : Z) (st : state) : item :=
  {| id := VNumber (of_Z now);
     name := newAppliance st;
     watts := VNumber (parseInt (newWatts st));
     hours := VNumber (parseFloat (newHours st));
     kWh := VNumber (div (mul (parseInt (newWatts st))
                              (parseFloat (newHours st)))
                         (of_Z 1000)) |}.

Definition handleAddAppliance (now : Z) (st : state) : state :=
  setNewHours (InNumber (of_Z 24))
    (setUsageItems (usageItems st ++ [newItem now st]) st).

Definition handleApplianceChange (selected : string) (st : state) : state :=
  let appliance := find (fun a => String.eqb (fst a) selected) APPLIANCES in
  setNewWatts
    (InNumber (match appliance with
               | Some a => of_Z (snd a)
               | None => of_Z 0
               end))
    (setNewAppliance selected st).

Definition handleDeleteItem (id0 : jsval) (st : state) : state :=
  setUsageItems (filter (fun it => strict_neq (id it) id0) (usageItems st)) st.

(** [getEfficiencyClass] (lines 176-181). *)
Definition getEfficiencyClass (st : state) : string :=
  if leb (comparisonPercentage st) (of_Z 50) then "text-green-500"
  else if leb (comparisonPercentage st) (of_Z 80) then "text-green-400"
  else if leb (comparisonPercentage st) (of_Z 120) then "text-yellow-500"
  else "text-red-500".

(** The four messages of the insights tab, by the [aria-label] of their
    icon; [Warning] is the message for usage above average. *)
Inductive band : Type := Excellent | Good | Average | Warning.

(** The nested conditional of the insights tab (lines 393-409). *)
Definition efficiencyBand (percentage : number) : band :=
  if leb percentage (of_Z 50) then Excellent
  else if leb percentage (of_Z 80) then Good
  else if leb percentage (of_Z 120) then Average
  else Warning.

(** ** JSON text *)

Module JSON.

(** A parsed JSON value.  A string is kept as its code units, since an
    escape [\uXXXX] can denote any of them. *)
Local Unset Elimination Schemes.
Inductive json : Type :=
| JNull
| JBool (b : bool)
| JNumber (x : number)
| JString (cs : list Z)
| JArray (l : list json)
| JObject (members : list (list Z * json)).
Local Set Elimination Schemes.

(** *** JSON.stringify on an array of usage items *)

(** The quotation mark. *)
Definition dquote : ascii := "034"%char.

Definition hex_digit (n : Z) : ascii :=
  (match n with
   | 0 => "0" | 1 => "1" | 2 => "2" | 3 => "3" | 4 => "4" | 5 => "5"
   | 6 => "6" | 7 => "7" | 8 => "8" | 9 => "9" | 10 => "a" | 11 => "b"
   | 12 => "c" | 13 => "d" | 14 => "e" | _ => "f"
   end)%char.

(** QuoteJSONString, one code unit. *)
Definition escape_char (c : ascii) : string :=
  let n := code c in
  if n =? 34 then String "\" (String dquote EmptyString)
  else if n =? 92 then "\\"
  else if n =? 8 then "\b"
  else if n =? 12 then "\f"
  else if n =? 10 then "\n"
  else if n =? 13 then "\r"
  else if n =? 9 then "\t"
  else if n <? 32 then
    String "\" (String "u" (String "0" (String "0"
      (String (hex_digit (n / 16))
         (String (hex_digit (n mod 16)) EmptyString)))))
  else String c EmptyString.

Fixpoint escape (s : string) : string :=
  match s with
  | EmptyString => EmptyString
  | String c r => (escape_char c ++ escape r)%string
  end.

Definition quote (s : string) : string :=
  String dquote (escape s ++ String dquote EmptyString)%string.

Definition is_finite (x : number) : bool :=
  match x with
  | S754_zero _ | S754_finite _ _ _ => true
  | S754_infinity _ | S754_nan => false
  end.

(** SerializeJSONProperty on a Number or null: a Number that is not
    finite is written as [null]. *)
Definition stringify_value (v : jsval) : string :=
  match v with
  | VNumber x => if is_finite x then Number_toString x else "null"
  | VNull => "null"
  end.

(** SerializeJSONObject on a usage item: its properties in the order
    of the object literal. *)
Definition stringify_item (it : item) : string :=
  ("{" ++ quote "id" ++ ":" ++ stringify_value (id it)
   ++ "," ++ quote "name" ++ ":" ++ quote (name it)
   ++ "," ++ quote "watts" ++ ":" ++ stringify_value (watts it)
   ++ "," ++ quote "hours" ++ ":" ++ stringify_value (hours it)
   ++ "," ++ quote "kWh" ++ ":" ++ stringify_value (kWh it) ++ "}")%string.

Fixpoint stringify_items (l : list item) : string :=
  match l with
  | [] => EmptyString
  | [it] => stringify_item it
  | it :: l' => (stringify_item it ++ "," ++ stringify_items l')%string
  end.

(** SerializeJSONArray. *)
Definition JSON_stringify (l : list item) : string :=
  ("[" ++ stringify_items l ++ "]")%string.

(** *** JSON.parse *)

Definition is_json_space (c : ascii) : bool :=
  let n := code c in
  (n =? 32) || (n =? 9) || (n =? 10) || (n =? 13).

Fixpoint skip_ws (s : string) : string :=
  match s with
  | String c r => if is_json_space c then skip_ws r else s
  | EmptyString => s
  end.

Definition hex_value (c : ascii) : option Z :=
  let n := code c in
  if (48 <=? n) && (n <=? 57) then Some (n - 48)
  else if (97 <=? n) && (n <=? 102) then Some (n - 87)
  else if (65 <=? n) && (n <=? 70) then Some (n - 55)
  else None.

Definition hex4 (a b c d : ascii) : option Z :=
  match hex_value a, hex_value b, hex_value c, hex_value d with
  | Some x, Some y, Some z, Some w => Some (((x * 16 + y) * 16 + z) * 16 + w)
  | _, _, _, _ => None
  end.

(** The code unit an escape letter stands for. *)
Definition simple_escape (e : ascii) : option Z :=
  let n := code e in
  if (n =? 34) || (n =? 92) || (n =? 47) then Some n
  else if n =? 98 then Some 8
  else if n =? 102 then Some 12
  else if n =? 110 then Some 10
  else if n =? 114 then Some 13
  else if n =? 116 then Some 9
  else None.

(** The characters of a JSON string after its opening quotation mark,
    up to the closing one, and what follows. *)
Fixpoint parse_string_body (s : string) : option (list Z * string) :=
  match s with
  | EmptyString => None
  | String c r =>
      if code c =? 34 then Some ([], r)
      else if code c =? 92 then
        match r with
        | String e r1 =>
            if code e =? 117 then
              match r1 with
              | String h1 (String h2 (String h3 (String h4 r2))) =>
                  match hex4 h1 h2 h3 h4, parse_string_body r2 with
                  | Some u, Some (cs, rest) => Some (u :: cs, rest)
                  | _, _ => None
                  end
              | _ => None
              end
            else
              match simple_escape e, parse_string_body r1 with
              | Some u, Some (cs, rest) => Some (u :: cs, rest)
              | _, _ => None
              end
        | EmptyString => None
        end
      else if code c <? 32 then None
      else
        match parse_string_body r with
        | Some (cs, rest) => Some (code c :: cs, rest)
        | None => None
        end
  end.

Definition is_empty (s : string) : bool :=
  match s with
  | EmptyString => true
  | String _ _ => false
  end.

(** More than one digit, the first of them a zero. *)
Definition leading_zero (ip : string) : bool :=
  match ip with
  | String c (String _ _) => Ascii.eqb c "0"
  | _ => false
  end.

(** A JSON number at the head of [s]: an optional minus, an integer
    part without a superfluous leading zero, an optional fraction and an
    optional exponent, each with a digit at least. *)
Definition take_json_number (s : string) : option (number * string) :=
  let '(neg, s1) :=
    match s with
    | String c r => if Ascii.eqb c "-" then (true, r) else (false, s)
    | EmptyString => (false, s)
    end in
  let '(ip, r1) := take_digits s1 in
  if is_empty ip || leading_zero ip then None
  else
    let frac :=
      match r1 with
      | String c r =>
          if Ascii.eqb c "." then
            let '(fp, r2) := take_digits r in
            if is_empty fp then None else Some (fp, r2)
          else Some (EmptyString, r1)
      | EmptyString => Some (EmptyString, r1)
      end in
    match frac with
    | None => None
    | Some (fp, r2) =>
        let expo :=
          match r2 with
          | String c r =>
              if Ascii.eqb c "e" || Ascii.eqb c "E" then
                let '(eneg, r3) := take_sign r in
                let '(ed, r4) := take_digits r3 in
                if is_empty ed then None
                else Some ((if eneg then - digits_value 0 ed
                            else digits_value 0 ed), r4)
              else Some (0, r2)
          | EmptyString => Some (0, r2)
          end in
        match expo with
        | None => None
        | Some (ex, r4) =>
            Some (of_decimal neg (Z.to_N (digits_value 0 (ip ++ fp)))
                             (ex - Z.of_nat (String.length fp)), r4)
        end
    end.

Inductive presult : Type :=
| POk (v : json) (rest : string)
| PError
| PFuel.

(** A number or one of the three literal names at the head of [s]. *)
Definition parse_atom (s : string) : presult :=
  match starts_with "null" s, starts_with "true" s, starts_with "false" s with
  | Some r, _, _ => POk JNull r
  | _, Some r, _ => POk (JBool true) r
  | _, _, Some r => POk (JBool false) r
  | None, None, None =>
      match take_json_number s with
      | Some (x, r) => POk (JNumber x) r
      | None => PError
      end
  end.

(** Recursive descent; [fuel] bounds the nesting of the calls. *)
Fixpoint parse_value (fuel : nat) (s : string) : presult :=
  match fuel with
  | O => PFuel
  | S f =>
      match skip_ws s with
      | EmptyString => PError
      | String c r =>
          if Ascii.eqb c "{" then
            match skip_ws r with
            | String c' r' =>
                if Ascii.eqb c' "}" then POk (JObject []) r'
                else parse_members f [] (String c' r')
            | EmptyString => PError
            end
          else if Ascii.eqb c "[" then
            match skip_ws r with
            | String c' r' =>
                if Ascii.eqb c' "]" then POk (JArray []) r'
                else parse_elements f [] (String c' r')
            | EmptyString => PError
            end
          else if Ascii.eqb c dquote then
            match parse_string_body r with
            | Some (cs, r') => POk (JString cs) r'
            | None => PError
            end
          else parse_atom (String c r)
      end
  end

with parse_elements (fuel : nat) (acc : list json) (s : string) : presult :=
  match fuel with
  | O => PFuel
  | S f =>
      match parse_value f s with
      | POk v r =>
          match skip_ws r with
          | String c r' =>
              if Ascii.eqb c "," then parse_elements f (acc ++ [v]) r'
              else if Ascii.eqb c "]" then POk (JArray (acc ++ [v])) r'
              else PError
          | EmptyString => PError
          end
      | PError => PError
      | PFuel => PFuel
      end
  end

with parse_members (fuel : nat) (acc : list (list Z * json)) (s : string)
     : presult :=
  match fuel with
  | O => PFuel
  | S f =>
      match skip_ws s with
      | String c r =>
          if Ascii.eqb c dquote then
            match parse_string_body r with
            | Some (k, r1) =>
                match skip_ws r1 with
                | String c1 r2 =>
                    if Ascii.eqb c1 ":" then
                      match parse_value f r2 with
                      | POk v r3 =>
                          match skip_ws r3 with
                          | String c3 r4 =>
                              if Ascii.eqb c3 "," then
                                parse_members f (acc ++ [(k, v)]) r4
                              else if Ascii.eqb c3 "}" then
                                POk (JObject (acc ++ [(k, v)])) r4
                              else PError
                          | EmptyString => PError
                          end
                      | PError => PError
                      | PFuel => PFuel
                      end
                    else PError
                | EmptyString => PError
                end
            | None => PError
            end
          else PError
      | EmptyString => PError
      end
  end.

(** [JSON.parse(text)]: one value, white space around it, nothing else;
    [None] is the SyntaxError.  The fuel is never used up, see
    [parse_value_fuel]. *)
Definition JSON_parse (text : string) : option json :=
  match parse_value (2 * String.length text + 1) text with
  | POk v rest =>
      match skip_ws rest with
      | EmptyString => Some v
      | String _ _ => None
      end
  | _ => None
  end.

End JSON.

Import JSON.
(** ** Persistence and the event loop *)

Definition codes (s : string) : list Z :=
  map code (list_ascii_of_string s).

(** The string made of the given code units, when all are below 256. *)
Fixpoint string_of_codes (cs : list Z) : option string :=
  match cs with
  | [] => Some EmptyString
  | c :: r =>
      if (0 <=? c) && (c <? 256)
      then option_map (String (ascii_of_N (Z.to_N c))) (string_of_codes r)
      else None
  end.

Fixpoint codes_eqb (a b : list Z) : bool :=
  match a, b with
  | [], [] => true
  | x :: a', y :: b' => (x =? y) && codes_eqb a' b'
  | _, _ => false
  end.

Definition as_jsval (j : json) : option jsval :=
  match j with
  | JNumber x => Some (VNumber x)
  | JNull => Some VNull
  | _ => None
  end.

(** A parsed object read as a usage item: the five properties
    [saveData] writes, in its order. *)
Definition as_item (j : json) : option item :=
  match j with
  | JObject [(k1, v1); (k2, JString n); (k3, v3); (k4, v4); (k5, v5)] =>
      if codes_eqb k1 (codes "id") && codes_eqb k2 (codes "name")
         && codes_eqb k3 (codes "watts") && codes_eqb k4 (codes "hours")
         && codes_eqb k5 (codes "kWh")
      then
        match as_jsval v1, string_of_codes n,
              as_jsval v3, as_jsval v4, as_jsval v5 with
        | Some i, Some nm, Some w, Some h, Some k => Some (mkItem i nm w h k)
        | _, _, _, _, _ => None
        end
      else None
  | _ => None
  end.

Fixpoint as_item_list (l : list json) : option (list item) :=
  match l with
  | [] => Some []
  | j :: r =>
      match as_item j, as_item_list r with
      | Some it, Some its => Some (it :: its)
      | _, _ => None
      end
  end.

Definition as_items (j : json) : option (list item) :=
  match j with
  | JArray l => as_item_list l
  | _ => None
  end.

(** How the effect that runs on mount ends (lines 88-95).  [Foreign] is a
    text that parses to something else than an array of usage items as
    [saveData] writes them; what the component does with such a value is
    not modelled.  [TypeError] is not an end of the effect: it is how the
    mount ends when the render that follows the load throws, see
    [mount]. *)
Inductive mounted : Type :=
| Loaded (st : state)
| SyntaxError
| Foreign (j : json)
| TypeError.

(** [savedData] is the result of [localStorage.getItem('wattsUpData')],
    [None] for [null].  The empty string is falsy, as [null] is. *)
Definition loadOnMount (savedData : option string) (st : state) : mounted :=
  match savedData with
  | None => Loaded st
  | Some EmptyString => Loaded st
  | Some text =>
      match JSON_parse text with
      | None => SyntaxError
      | Some j =>
          match as_items j with
          | Some l => Loaded (setUsageItems l st)
          | None => Foreign j
          end
      end
  end.

(** The component and the storage entry it reads and writes. *)
Record app : Type := mkApp {
  ui : state;
  wattsUpData : option string
}.

(** [saveData] (lines 163-168); the timer it starts is [SavedTimeout]. *)
Definition saveData (a : app) : app :=
  {| ui := setIsSaved true (ui a);
     wattsUpData := Some (JSON_stringify (usageItems (ui a))) |}.

Inductive event : Type :=
| SubmitForm (now : Z)
| SelectAppliance (selected : string)
| ChangeWatts (text : string)
| ChangeHours (text : string)
| ClickDelete (id0 : jsval)
| ClickSave
| SavedTimeout.

(** One event: the handler, then the aggregate effect when the handler
    has set [usageItems]. *)
Definition step (a : app) (ev : event) : app :=
  match ev with
  | SubmitForm now =>
      mkApp (recomputeAggregate (handleAddAppliance now (ui a))) (wattsUpData a)
  | SelectAppliance selected =>
      mkApp (handleApplianceChange selected (ui a)) (wattsUpData a)
  | ChangeWatts text => mkApp (setNewWatts (InText text) (ui a)) (wattsUpData a)
  | ChangeHours text => mkApp (setNewHours (InText text) (ui a)) (wattsUpData a)
  | ClickDelete id0 =>
      mkApp (recomputeAggregate (handleDeleteItem id0 (ui a))) (wattsUpData a)
  | ClickSave => saveData a
  | SavedTimeout => mkApp (setIsSaved false (ui a)) (wattsUpData a)
  end.

Definition run (a : app) (evs : list event) : app := fold_left step evs a.

(** ** The insights bar and the usage table *)

(** [Math.min(x, y)]: NaN as soon as one is NaN, and the negative zero
    is below the positive one. *)
Definition Math_min (x y : number) : number :=
  if is_nan x || is_nan y then NaN
  else if ltb y x then y
  else match x, y with
       | S754_zero false, S754_zero true => y
       | _, _ => x
       end.

(** The colour of the comparison bar (line 376):
    [comparisonPercentage > 100 ? 'bg-red-500' : 'bg-green-500']. *)
Definition barClass (st : state) : string :=
  if ltb (of_Z 100) (comparisonPercentage st) then "bg-red-500"
  else "bg-green-500".

(** Its width in percent (line 377): [Math.min(comparisonPercentage, 200)]. *)
Definition barWidth (st : state) : number :=
  Math_min (comparisonPercentage st) (of_Z 200).

(** The integer nearest to [m * 2^e * 100], the larger one on a tie. *)
Definition hundredths (m : positive) (e : Z) : Z :=
  let '(a, b) := scaled m e (-2) in
  if b <=? 2 * (a mod b) then a / b + 1 else a / b.

(** [x.toFixed(2)]: a Number that is not finite is written as by
    [Number::toString], as is one of magnitude 10^21 or more; any other
    with two digits after the point. *)
Definition toFixed2 (x : number) : string :=
  match x with
  | S754_finite s m e =>
      ((if s then "-" else "") ++
       (if below_pow10 m e 21 then
          let ds := digits_of (hundredths m e) in
          let k := String.length ds in
          let padded := (zeros (3 - k) ++ ds)%string in
          let k' := String.length padded in
          (substring 0 (k' - 2) padded ++ "." ++ substring (k' - 2) 2 padded)
        else Number_toString (S754_finite false m e)))%string
  | S754_zero _ => "0.00"
  | _ => Number_toString x
  end.

(** What React writes for a child that is a Number or [null]. *)
Definition render_child (v : jsval) : string :=
  match v with
  | VNumber x => Number_toString x
  | VNull => EmptyString
  end.

(** The cells of one row of the usage table (lines 334-347). *)
Record row : Type := mkRow {
  cellName : string;
  cellWatts : string;
  cellHours : string;
  cellEnergy : string
}.

(** One row; [None] is the TypeError of [item.kWh.toFixed(2)] on an item
    whose [kWh] is [null]. *)
Definition renderRow (it : item) : option row :=
  match kWh it with
  | VNumber x =>
      Some {| cellName := name it;
              cellWatts := render_child (watts it);
              cellHours := render_child (hours it);
              cellEnergy := toFixed2 x |}
  | VNull => None
  end.

Fixpoint renderRows (l : list item) : option (list row) :=
  match l with
  | [] => Some []
  | it :: l' =>
      match renderRow it, renderRows l' with
      | Some r, Some rs => Some (r :: rs)
      | _, _ => None
      end
  end.

(** The usage list of the calculator tab (lines 315-359): the placeholder
    for an empty ledger, else the rows and the total of the footer. *)
Inductive usageView : Type :=
| NoItems
| UsageTable (rows : list row) (total : string).

Definition renderUsage (st : state) : option usageView :=
  match usageItems st with
  | [] => Some NoItems
  | _ :: _ =>
      match renderRows (usageItems st) with
      | Some rows => Some (UsageTable rows (toFixed2 (totalKwh st)))
      | None => None
      end
  end.

(** ** Mounting the component *)

(** Mounting the component on a given storage.  The first render shows
    the empty ledger, then the effects run: the load (lines 88-95), and
    the aggregate of the empty ledger, which leaves [totalKwh] at 0.
    When the load has set a ledger, the component renders again, with the
    usage list of the calculator tab, the tab selected at first: if
    [item.kWh.toFixed] throws there (line 338), nothing catches the
    TypeError and no effect runs after it; else the aggregate effect runs
    on the loaded ledger. *)
Definition mount (storage : option string) : mounted :=
  match loadOnMount storage initial_state with
  | Loaded st =>
      match renderUsage st with
      | Some _ => Loaded (recomputeAggregate st)
      | None => TypeError
      end
  | other => other
  end.

(** ** Vocabulary of the statements *)

(** The sum of the stored [kWh] properties, left to right from 0. *)
Definition sum_stored_kWh (l : list item) : number :=
  fold_left (fun sum it => add sum (ToNumber (kWh it))) l (of_Z 0).

(** The stored [kWh] is the Number [watts * hours / 1000]. *)
Definition kWh_consistent (it : item) : Prop :=
  ToNumber (kWh it) =
  div (mul (ToNumber (watts it)) (ToNumber (hours it))) (of_Z 1000).

(** The event is a click on the delete button of an item whose id is
    strictly equal to [i]. *)
Definition deletes (i : jsval) (ev : event) : bool :=
  match ev with
  | ClickDelete id0 => strict_eq i id0
  | _ => false
  end.

(** The class [getEfficiencyClass] gives to each message. *)
Definition class_of_band (b : band) : string :=
  match b with
  | Excellent => "text-green-500"
  | Good => "text-green-400"
  | Average => "text-yellow-500"
  | Warning => "text-red-500"
  end.

Fixpoint all_digits (s : string) : bool :=
  match s with
  | EmptyString => true
  | String c r => is_digit c && all_digits r
  end.

(** [totalKwh] is the aggregate of the current [usageItems]: what the
    aggregate effect leaves, and what holds before any event. *)
Definition settled (st : state) : Prop :=
  totalKwh st = total_of (usageItems st).

(** An entry without its id. *)
Definition entry_data (it : item) : string * jsval * jsval * jsval :=
  (name it, watts it, hours it, kWh it).

(** Two Numbers that are the same value, bit for bit ([Object.is]). *)
Definition number_same (x y : number) : bool :=
  match x, y with
  | S754_zero a, S754_zero b => Bool.eqb a b
  | S754_infinity a, S754_infinity b => Bool.eqb a b
  | S754_nan, S754_nan => true
  | S754_finite a m e, S754_finite b m' e' =>
      Bool.eqb a b && Pos.eqb m m' && (e =? e')
  | _, _ => false
  end.

(** A finite Number whose text, as [Number::toString] writes it, is a
    JSON number that reads back as the same Number. *)
Definition number_text_exact (x : number) : bool :=
  is_finite x &&
  match take_json_number (Number_toString x) with
  | Some (y, EmptyString) => number_same x y
  | _ => false
  end.

Definition value_exact (v : jsval) : bool :=
  match v with
  | VNumber x => number_text_exact x
  | VNull => true
  end.

(** The numeric properties of the item go through JSON text unchanged. *)
Definition item_exact (it : item) : bool :=
  value_exact (id it) && value_exact (watts it)
  && value_exact (hours it) && value_exact (kWh it).

(** The JSON value of a Number or null, and of an item. *)
Definition json_of_value (v : jsval) : json :=
  match v with
  | VNumber x => JNumber x
  | VNull => JNull
  end.

Definition json_of_item (it : item) : json :=
  JObject [ (codes "id", json_of_value (id it));
            (codes "name", JString (codes (name it)));
            (codes "watts", json_of_value (watts it));
            (codes "hours", json_of_value (hours it));
            (codes "kWh", json_of_value (kWh it)) ].

(** A result that is not out of fuel and, when a value, has consumed a
    character at least. *)
Definition consumed (s : string) (res : presult) : Prop :=
  match res with
  | POk _ r => (String.length r < String.length s)%nat
  | PError => True
  | PFuel => False
  end.

(** What may follow a number without being read as part of it. *)
Definition neutral (X : string) : Prop :=
  match X with
  | EmptyString => True
  | String c _ =>
      is_digit c = false /\ Ascii.eqb c "." = false /\
      Ascii.eqb c "e" = false /\ Ascii.eqb c "E" = false
  end.

(** The first character of a JSON number. *)
Definition number_start (c : ascii) : bool := Ascii.eqb c "-" || is_digit c.

(** The rank of a message, from the best to the worst. *)
Definition band_rank (b : band) : nat :=
  match b with
  | Excellent => 0
  | Good => 1
  | Average => 2
  | Warning => 3
  end.

(** The summand of an item in the aggregate. *)
Definition energy_of (it : item) : number :=
  div (mul (ToNumber (watts it)) (ToNumber (hours it))) (of_Z 1000).

(** [comparisonPercentage] is the one of the current [totalKwh]. *)
Definition percentage_settled (st : state) : Prop :=
  comparisonPercentage st = mul (div (totalKwh st) US_AVERAGE_KWH) (of_Z 100).

Definition is_save (ev : event) : bool :=
  match ev with
  | ClickSave => true
  | _ => false
  end.

Definition is_delete (ev : event) : bool :=
  match ev with
  | ClickDelete _ => true
  | _ => false
  end.

Definition is_submit (ev : event) : bool :=
  match ev with
  | SubmitForm _ => true
  | _ => false
  end.

Definition changes_hours (ev : event) : bool :=
  match ev with
  | ChangeHours _ => true
  | _ => false
  end.

(** The [kWh] of the item is a Number, not [null]. *)
Definition has_number_kWh (it : item) : bool :=
  match kWh it with
  | VNumber _ => true
  | VNull => false
  end.

(** What a numeric property is after [JSON.stringify] and [JSON.parse]:
    [null] for a NaN or an infinity, the positive zero for a zero. *)
Definition jsonify (v : jsval) : jsval :=
  match v with
  | VNumber (S754_zero _) => VNumber (S754_zero false)
  | VNumber (S754_finite s m e) => v
  | VNumber _ => VNull
  | VNull => VNull
  end.

Definition jsonify_item (it : item) : item :=
  {| id := jsonify (id it);
     name := name it;
     watts := jsonify (watts it);
     hours := jsonify (hours it);
     kWh := jsonify (kWh it) |}.

(** A numeric property whose text, if it has one of its own, reads back
    as the same Number: anything but a finite Number other than zero
    whose text is not exact. *)
Definition value_savable (v : jsval) : bool :=
  match v with
  | VNumber (S754_finite s m e) => number_text_exact (S754_finite s m e)
  | _ => true
  end.

Definition item_savable (it : item) : bool :=
  value_savable (id it) && value_savable (watts it)
  && value_savable (hours it) && value_savable (kWh it).

(** Where [N / D] lies between the integers around it: on [N / D]
    rounded down, below the middle, on it, or above it. *)
Definition loc (N D : Z) : location :=
  if N mod D =? 0 then loc_Exact else loc_Inexact (2 * (N mod D) ?= D).

(** [N / D] rounded down, with the two bits that say where it lies. *)
Definition rec_of (N D : Z) : shr_record := shr_record_of_loc (N / D) (loc N D).

(** The Number with the sign given. *)
Definition with_sign (neg : bool) (x : number) : number :=
  match x with
  | S754_zero _ => S754_zero neg
  | S754_infinity _ => S754_infinity neg
  | S754_nan => S754_nan
  | S754_finite _ m e => S754_finite neg m e
  end.

(** The numerator and the denominator of [scaled]. *)
Definition snum (m : positive) (e t : Z) : Z := fst (scaled m e t).
Definition sden (m : positive) (e t : Z) : Z := snd (scaled m e t).

(** [b1^e1 <= b2^e2], for exponents of either sign. *)
Definition pow_leb (b1 e1 b2 e2 : Z) : bool :=
  b1 ^ Z.max e1 0 * b2 ^ Z.max (- e2) 0 <=? b2 ^ Z.max e2 0 * b1 ^ Z.max (- e1) 0.

(** The estimate of [decimal_exponent] for the binary logarithm [L], and
    the check that it is off by two at most:
    [10^(estimate L - 2) <= 2^L] and [2^(L+1) <= 10^(estimate L + 3)]. *)
Definition estimate (L : Z) : Z := (L * 30103) / 100000.

Definition estimate_checked (L : Z) : bool :=
  pow_leb 10 (estimate L - 2) 2 L && pow_leb 2 (L + 1) 10 (estimate L + 3).

(** The parts of the text of a JSON number after its integer part: the
    fraction, if it has digits, and the exponent, if there is one, with
    its value. *)
Definition fraction_text (fp : string) : string :=
  match fp with
  | EmptyString => EmptyString
  | _ => "." ++ fp
  end.

Definition exponent_text (ex : option (bool * string)) : string :=
  match ex with
  | None => EmptyString
  | Some (eneg, ed) => "e" ++ (if eneg then "-" else "+") ++ ed
  end.

Definition exponent_value (ex : option (bool * string)) : Z :=
  match ex with
  | None => 0
  | Some (eneg, ed) => if eneg then - digits_value 0 ed else digits_value 0 ed
  end.

(** The digits and the decimal exponent that a reader finds in the text
    of [format_decimal]. *)
Definition parsed_decimal (s k n : Z) : Z * Z :=
  if (k <=? n) && (n <=? 21) then (s * 10 ^ (n - k), 0) else (s, n - k).

(** A numeric property that is a double, or null. *)
Definition value_valid (v : jsval) : bool :=
  match v with
  | VNumber x => valid x
  | VNull => true
  end.

Definition item_valid (it : item) : bool :=
  value_valid (id it) && value_valid (watts it)
  && value_valid (hours it) && value_valid (kWh it).

(** A finite double other than the negative zero: the Numbers that
    [JSON.stringify] writes as a number and not as the positive zero. *)
Definition number_plain (x : number) : bool :=
  valid x &&
  match x with
  | S754_zero s => negb s
  | S754_finite _ _ _ => true
  | S754_infinity _ | S754_nan => false
  end.

Definition value_plain (v : jsval) : bool :=
  match v with
  | VNumber x => number_plain x
  | VNull => false
  end.

(** The four numeric properties of the item are such Numbers. *)
Definition item_plain (it : item) : bool :=
  value_plain (id it) && value_plain (watts it)
  && value_plain (hours it) && value_plain (kWh it).

(** ** Numbers: facts used below *)

Lemma is_nan_eq (x : number) : is_nan x = true -> x = NaN.
Proof. destruct x; simpl; intros H; try discriminate; reflexivity. Qed.

Lemma mul_NaN_r (x : number) : mul x NaN = NaN.
Proof. destruct x; reflexivity. Qed.

Lemma div_NaN_l (x : number) : div NaN x = NaN.
Proof. reflexivity. Qed.

Lemma add_comm (x y : number) : add x y = add y x.
Proof.
  destruct x as [sx|sx| |sx mx ex], y as [sy|sy| |sy my ey];
    try reflexivity;
    try (destruct sx, sy; reflexivity).
  unfold add, SFadd. rewrite (Z.min_comm ey ex). f_equal. apply Z.add_comm.
Qed.

Lemma SFcompare_antisym (x y : number) :
  SFcompare y x = option_map CompOpp (SFcompare x y).
Proof.
  destruct x as [sx|sx| |sx mx ex], y as [sy|sy| |sy my ey];
    try reflexivity;
    try (destruct sx; reflexivity);
    try (destruct sy; reflexivity);
    try (destruct sx, sy; reflexivity).
  destruct sx, sy; simpl; try reflexivity;
    change (Pos.compare_cont Eq my mx) with (Pos.compare my mx);
    change (Pos.compare_cont Eq mx my) with (Pos.compare mx my);
    rewrite (Z.compare_antisym ex ey), (Pos.compare_antisym mx my);
    destruct (ex ?= ey); simpl; try reflexivity;
    rewrite CompOpp_involutive; reflexivity.
Qed.

(** [x <= y] fails exactly when [y < x] or one of the two is NaN. *)
Lemma leb_false_iff (x y : number) :
  leb x y = false <-> ltb y x = true \/ is_nan x = true \/ is_nan y = true.
Proof.
  unfold leb, ltb, SFleb, SFltb. rewrite (SFcompare_antisym x y).
  destruct x as [sx|sx| |sx mx ex], y as [sy|sy| |sy my ey]; simpl;
    try (split; [intros _; right; auto | reflexivity]);
    try (destruct sx); try (destruct sy); simpl;
    try (split; [discriminate | intros [H|[H|H]]; discriminate]);
    try (split; [intros _; left; reflexivity | reflexivity]).
  all: destruct (ex ?= ey); simpl;
    try (split; [discriminate | intros [H|[H|H]]; discriminate]);
    try (split; [intros _; left; reflexivity | reflexivity]).
  all: destruct (Pos.compare_cont Eq mx my); simpl;
    try (split; [discriminate | intros [H|[H|H]]; discriminate]);
    try (split; [intros _; left; reflexivity | reflexivity]).
Qed.

Lemma leb_true_not_nan (x y : number) : leb x y = true -> is_nan x = false.
Proof. destruct x; simpl; intros H; try reflexivity; discriminate. Qed.

(** Below a positive constant, below any greater positive constant. *)
Lemma leb_const_mono (p : number) (m1 m2 : positive) (e1 e2 : Z) :
  (e1 <? e2) || ((e1 =? e2) && (m1 <=? m2)%positive) = true ->
  leb p (S754_finite false m1 e1) = true ->
  leb p (S754_finite false m2 e2) = true.
Proof.
  intros Hc. unfold leb, SFleb.
  destruct p as [s|s| |s m e]; simpl; try (intros; assumption).
  destruct s; [intros; reflexivity|].
  change (Pos.compare_cont Eq m m1) with (Pos.compare m m1).
  change (Pos.compare_cont Eq m m2) with (Pos.compare m m2).
  apply Bool.orb_true_iff in Hc.
  destruct (Z.compare_spec e e1) as [He|He|He];
    destruct (Z.compare_spec e e2) as [He2|He2|He2]; try reflexivity;
    try discriminate;
    destruct (Pos.compare_spec m m1) as [Hm|Hm|Hm];
    destruct (Pos.compare_spec m m2) as [Hm2|Hm2|Hm2]; try reflexivity;
    try discriminate; intros _; exfalso;
    destruct Hc as [Hc|Hc];
    try (apply Z.ltb_lt in Hc; lia);
    apply Bool.andb_true_iff in Hc; destruct Hc as [Hc1 Hc2];
    apply Z.eqb_eq in Hc1; apply Pos.leb_le in Hc2; lia.
Qed.

Lemma ltb_true_not_nan (c p : number) : ltb c p = true -> is_nan p = false.
Proof.
  destruct p; simpl; intros H; try reflexivity.
  destruct c; discriminate.
Qed.

(** Above a constant: not at most the constant, and not NaN. *)
Lemma above_const (p c : number) :
  is_nan c = false ->
  (ltb c p = true <-> leb p c = false /\ is_nan p = false).
Proof.
  intros Hc. split.
  - intros H. split; [|apply (ltb_true_not_nan c p H)].
    apply leb_false_iff. left. exact H.
  - intros [H Hn]. apply leb_false_iff in H.
    destruct H as [H|[H|H]]; [exact H | congruence | congruence].
Qed.

(** ** The ledger under the events *)

Lemma usageItems_submit (a : app) (now : Z) :
  usageItems (ui (step a (SubmitForm now)))
  = (usageItems (ui a) ++ [newItem now (ui a)])%list.
Proof. reflexivity. Qed.

Lemma usageItems_delete (a : app) (id0 : jsval) :
  usageItems (ui (step a (ClickDelete id0)))
  = filter (fun it => strict_neq (id it) id0) (usageItems (ui a)).
Proof. reflexivity. Qed.

(** An item stays in the ledger, as it is, through every event that does
    not delete its id. *)
Lemma step_keeps_item (a : app) (ev : event) (e : item) :
  In e (usageItems (ui a)) -> deletes (id e) ev = false ->
  In e (usageItems (ui (step a ev))).
Proof.
  intros Hin Hdel. destruct ev; simpl in *; try assumption.
  - apply in_or_app. left. assumption.
  - apply filter_In. split; [assumption|].
    unfold strict_neq. rewrite Hdel. reflexivity.
Qed.

Lemma run_keeps_item (evs : list event) : forall (a : app) (e : item),
  In e (usageItems (ui a)) ->
  Forall (fun ev => deletes (id e) ev = false) evs ->
  In e (usageItems (ui (run a evs))).
Proof.
  induction evs as [|ev evs IH]; intros a e Hin Hall; simpl.
  - assumption.
  - inversion Hall as [|? ? Hev Hrest]; subst.
    apply IH; [apply step_keeps_item; assumption | assumption].
Qed.

(** Filtering with a test no element fails changes nothing. *)
Lemma filter_all {A : Type} (f : A -> bool) (l : list A) :
  (forall x, In x l -> f x = true) -> filter f l = l.
Proof.
  induction l as [|x l IH]; intros H; simpl.
  - reflexivity.
  - rewrite (H x (or_introl eq_refl)). f_equal. apply IH.
    intros y Hy. apply H. right. assumption.
Qed.

Lemma fold_reducer_stored (l : list item) : forall acc : number,
  Forall kWh_consistent l ->
  fold_left reducer l acc
  = fold_left (fun sum it => add sum (ToNumber (kWh it))) l acc.
Proof.
  induction l as [|it l IH]; intros acc Hall; simpl.
  - reflexivity.
  - inversion Hall as [|? ? Hit Hrest]; subst.
    rewrite IH by assumption. unfold reducer. rewrite <- Hit. reflexivity.
Qed.

Lemma newItem_consistent (now : Z) (st : state) :
  kWh_consistent (newItem now st).
Proof. reflexivity. Qed.

Lemma step_consistent (a : app) (ev : event) :
  Forall kWh_consistent (usageItems (ui a)) ->
  Forall kWh_consistent (usageItems (ui (step a ev))).
Proof.
  intros H. destruct ev; simpl; try assumption.
  - apply Forall_app. split; [assumption|].
    constructor; [apply newItem_consistent | constructor].
  - apply Forall_forall. intros it Hit. apply filter_In in Hit.
    destruct Hit as [Hit _]. revert it Hit. apply Forall_forall. assumption.
Qed.

Lemma step_settled (a : app) (ev : event) :
  settled (ui a) -> settled (ui (step a ev)).
Proof.
  unfold settled. intros H. destruct ev; simpl; try assumption; reflexivity.
Qed.

Lemma run_invariants (evs : list event) : forall a : app,
  settled (ui a) -> Forall kWh_consistent (usageItems (ui a)) ->
  settled (ui (run a evs)) /\
  Forall kWh_consistent (usageItems (ui (run a evs))).
Proof.
  induction evs as [|ev evs IH]; intros a Hs Hc; simpl.
  - split; assumption.
  - apply IH; [apply step_settled | apply step_consistent]; assumption.
Qed.

Lemma add_zero_swap (x y : number) :
  add (add (of_Z 0) x) y = add (add (of_Z 0) y) x.
Proof.
  destruct x as [[]|[]| |sx mx ex], y as [[]|[]| |sy my ey];
    try reflexivity.
  change (add (of_Z 0) (S754_finite sx mx ex)) with (S754_finite sx mx ex).
  change (add (of_Z 0) (S754_finite sy my ey)) with (S754_finite sy my ey).
  apply add_comm.
Qed.

(** The aggregate of two items does not depend on their order. *)
Lemma total_of_pair (it1 it2 : item) :
  total_of [it1; it2] = total_of [it2; it1].
Proof.
  unfold total_of. cbn [fold_left]. unfold reducer. apply add_zero_swap.
Qed.

(** *** Decimal text *)

Lemma is_digit_not_space (c : ascii) :
  is_digit c = true -> is_js_space c = false.
Proof.
  unfold is_digit, is_js_space. generalize (code c). intros n H.
  apply Bool.andb_true_iff in H. destruct H as [H1 H2].
  apply Z.leb_le in H1. apply Z.leb_le in H2.
  destruct (9 <=? n) eqn:A; destruct (n <=? 13) eqn:B;
    destruct (n =? 32) eqn:C; destruct (n =? 160) eqn:D; try reflexivity;
    try (apply Z.leb_le in B); try (apply Z.eqb_eq in C);
    try (apply Z.eqb_eq in D); lia.
Qed.

(** A run of digits is read whole when a character that is no digit, or
    nothing, follows it. *)
Lemma take_digits_app (d r : string) :
  all_digits d = true ->
  match r with
  | EmptyString => True
  | String c _ => is_digit c = false
  end ->
  take_digits (d ++ r) = (d, r).
Proof.
  intros Hd Hr. induction d as [|c d IH]; simpl in *.
  - destruct r as [|c r]; [reflexivity|]. simpl. rewrite Hr. reflexivity.
  - apply Bool.andb_true_iff in Hd. destruct Hd as [Hc Hd].
    rewrite Hc, (IH Hd). reflexivity.
Qed.

Lemma append_empty_r (s : string) : (s ++ "")%string = s.
Proof. induction s as [|c s IH]; simpl; [|rewrite IH]; reflexivity. Qed.

Lemma append_assoc (s1 s2 s3 : string) :
  ((s1 ++ s2) ++ s3 = s1 ++ (s2 ++ s3))%string.
Proof. induction s1 as [|c s1 IH]; simpl; [|rewrite IH]; reflexivity. Qed.

Lemma length_append (s1 s2 : string) :
  String.length (s1 ++ s2) = (String.length s1 + String.length s2)%nat.
Proof. induction s1 as [|c s1 IH]; simpl; [|rewrite IH]; reflexivity. Qed.

Lemma take_digits_all (d : string) :
  all_digits d = true -> take_digits d = (d, "").
Proof.
  intros Hd. rewrite <- (append_empty_r d) at 1.
  apply take_digits_app; [assumption | exact I].
Qed.

Lemma digit_value_range (c : ascii) :
  is_digit c = true -> 0 <= digit_value c <= 9.
Proof.
  unfold is_digit, digit_value. intros H.
  apply Bool.andb_true_iff in H. destruct H as [H1 H2].
  apply Z.leb_le in H1. apply Z.leb_le in H2. lia.
Qed.

(** The digits of [d] after those already read into [acc]. *)
Lemma digits_value_acc (d : string) : forall acc : Z,
  digits_value acc d
  = acc * 10 ^ Z.of_nat (String.length d) + digits_value 0 d.
Proof.
  induction d as [|c d IH]; intros acc.
  - simpl. lia.
  - cbn [digits_value String.length].
    rewrite (IH (10 * acc + digit_value c)), (IH (10 * 0 + digit_value c)).
    rewrite Nat2Z.inj_succ, Z.pow_succ_r by lia. ring.
Qed.

Lemma digits_value_bounds (d : string) :
  all_digits d = true ->
  0 <= digits_value 0 d < 10 ^ Z.of_nat (String.length d).
Proof.
  induction d as [|c d IH]; intros Hd.
  - simpl. lia.
  - cbn [all_digits] in Hd. apply Bool.andb_true_iff in Hd.
    destruct Hd as [Hc Hd]. specialize (IH Hd).
    pose proof (digit_value_range c Hc) as Hr.
    cbn [digits_value String.length].
    rewrite digits_value_acc, Nat2Z.inj_succ, Z.pow_succ_r by lia.
    nia.
Qed.

(** The integer part of a decimal is its digits before the point: the
    whole digit string divided by the power of ten of the fraction. *)
Lemma digits_value_truncate (ip fp : string) :
  all_digits fp = true ->
  digits_value 0 (ip ++ fp) / 10 ^ Z.of_nat (String.length fp)
  = digits_value 0 ip.
Proof.
  intros Hf.
  assert (H : forall acc, digits_value acc (ip ++ fp)
                          = digits_value (digits_value acc ip) fp).
  { induction ip as [|c ip IH]; intros acc; simpl; [reflexivity|apply IH]. }
  rewrite H, digits_value_acc.
  pose proof (digits_value_bounds fp Hf) as Hb.
  rewrite Z.div_add_l by lia. rewrite Z.div_small by lia. lia.
Qed.

Lemma take_sign_digit (c : ascii) (r : string) :
  is_digit c = true -> take_sign (String c r) = (false, String c r).
Proof.
  intros H. unfold take_sign.
  destruct (Ascii.eqb_spec c "-") as [E|E]; [subst c; discriminate H|].
  destruct (Ascii.eqb_spec c "+") as [E'|E']; [subst c; discriminate H|].
  reflexivity.
Qed.

Lemma not_Infinity_digit (c : ascii) (r : string) :
  is_digit c = true -> starts_with "Infinity" (String c r) = None.
Proof.
  intros H. cbn [starts_with]. destruct (Ascii.eqb_spec "I" c) as [E|E];
    [subst c; discriminate H | reflexivity].
Qed.

(** [parseInt] and [parseFloat] on a decimal written with digits, a point
    and digits, after an optional minus. *)
Lemma parse_plain_decimal (neg : bool) (ip fp : string) :
  ip <> "" -> all_digits ip = true -> all_digits fp = true ->
  let text := ((if neg then "-" else "") ++ ip ++ "." ++ fp)%string in
  parseInt_string text = of_decimal neg (Z.to_N (digits_value 0 ip)) 0 /\
  parseFloat_string text
  = of_decimal neg (Z.to_N (digits_value 0 (ip ++ fp)))
               (- Z.of_nat (String.length fp)).
Proof.
  intros Hne Hi Hf text.
  destruct ip as [|c ip]; [congruence|].
  pose proof Hi as Hi'. cbn [all_digits] in Hi'.
  apply Bool.andb_true_iff in Hi'. destruct Hi' as [Hc _].
  assert (Hsign : take_sign (trim_start text)
                  = (neg, (String c ip ++ "." ++ fp)%string)).
  { unfold text. destruct neg.
    - reflexivity.
    - cbn [append trim_start]. rewrite (is_digit_not_space c Hc).
      apply take_sign_digit. exact Hc. }
  assert (Hint : take_digits (String c ip ++ "." ++ fp)
                 = (String c ip, ("." ++ fp)%string)).
  { apply take_digits_app; [exact Hi | reflexivity]. }
  split.
  - unfold parseInt_string. rewrite Hsign, Hint. reflexivity.
  - unfold parseFloat_string. rewrite Hsign.
    change (String c ip ++ "." ++ fp)%string
      with (String c (ip ++ "." ++ fp)%string) at 1.
    rewrite (not_Infinity_digit c _ Hc).
    change (String c (ip ++ "." ++ fp)%string)
      with (String c ip ++ "." ++ fp)%string.
    unfold take_decimal. rewrite Hint.
    change ("." ++ fp)%string with (String "." fp).
    cbv beta iota. rewrite Ascii.eqb_refl, (take_digits_all fp Hf).
    cbn [take_exponent]. rewrite Z.sub_0_l. reflexivity.
Qed.

(** ** JSON.parse is total *)

Lemma skip_ws_length (s : string) :
  (String.length (skip_ws s) <= String.length s)%nat.
Proof.
  induction s as [|c s IH]; simpl; [lia|].
  destruct (is_json_space c); simpl; lia.
Qed.

Lemma take_digits_split (s : string) : forall d r : string,
  take_digits s = (d, r) -> s = (d ++ r)%string /\ all_digits d = true.
Proof.
  induction s as [|c s IH]; intros d r H; simpl in H.
  - inversion H; subst. split; reflexivity.
  - destruct (is_digit c) eqn:Hc.
    + destruct (take_digits s) as [d' r'] eqn:Hs. inversion H; subst.
      destruct (IH d' r eq_refl) as [Hs' Hd']. simpl.
      rewrite Hc, Hd', <- Hs'. split; reflexivity.
    + inversion H; subst. split; reflexivity.
Qed.

Lemma take_digits_length (s d r : string) :
  take_digits s = (d, r) ->
  String.length s = (String.length d + String.length r)%nat.
Proof.
  intros H. apply take_digits_split in H. destruct H as [H _].
  rewrite H at 1. apply length_append.
Qed.

Lemma take_sign_length (s r : string) (b : bool) :
  take_sign s = (b, r) -> (String.length r <= String.length s)%nat.
Proof.
  unfold take_sign. destruct s as [|c s]; intros H.
  - inversion H; subst; simpl; lia.
  - destruct (Ascii.eqb c "-"); [inversion H; subst; simpl; lia|].
    destruct (Ascii.eqb c "+"); inversion H; subst; simpl; lia.
Qed.

Lemma is_empty_false_length (s : string) :
  is_empty s = false -> (0 < String.length s)%nat.
Proof. destruct s; simpl; [discriminate | lia]. Qed.

Lemma take_json_number_length (s r : string) (x : number) :
  take_json_number s = Some (x, r) ->
  (String.length r < String.length s)%nat.
Proof.
  unfold take_json_number.
  set (p := match s with
            | String c r0 => if Ascii.eqb c "-" then (true, r0) else (false, s)
            | EmptyString => (false, s)
            end).
  assert (Hp : (String.length (snd p) <= String.length s)%nat).
  { unfold p. destruct s as [|c r0]; simpl; [lia|].
    destruct (Ascii.eqb c "-"); simpl; lia. }
  destruct p as [neg s1]. simpl in Hp.
  destruct (take_digits s1) as [ip r1] eqn:Hip.
  apply take_digits_length in Hip.
  destruct (is_empty ip) eqn:Hne; [discriminate|].
  apply is_empty_false_length in Hne.
  destruct (leading_zero ip); [discriminate|]. simpl.
  set (frac := match r1 with
               | String c r0 =>
                   if Ascii.eqb c "." then
                     let '(fp, r2) := take_digits r0 in
                     if is_empty fp then None else Some (fp, r2)
                   else Some (EmptyString, r1)
               | EmptyString => Some (EmptyString, r1)
               end).
  assert (Hfrac : forall fp r2, frac = Some (fp, r2) ->
                    (String.length r2 <= String.length r1)%nat).
  { unfold frac. intros fp r2. destruct r1 as [|c r0].
    - intros H. inversion H; subst. simpl. lia.
    - destruct (Ascii.eqb c ".").
      + destruct (take_digits r0) as [fp' r2'] eqn:Hfp.
        apply take_digits_length in Hfp.
        destruct (is_empty fp'); [discriminate|].
        intros H. inversion H; subst. simpl. lia.
      + intros H. inversion H; subst. lia. }
  destruct frac as [[fp r2]|]; [|discriminate].
  specialize (Hfrac fp r2 eq_refl).
  set (expo := match r2 with
               | String c r0 =>
                   if Ascii.eqb c "e" || Ascii.eqb c "E" then
                     let '(eneg, r3) := take_sign r0 in
                     let '(ed, r4) := take_digits r3 in
                     if is_empty ed then None
                     else Some ((if eneg then - digits_value 0 ed
                                 else digits_value 0 ed), r4)
                   else Some (0, r2)
               | EmptyString => Some (0, r2)
               end).
  assert (Hexpo : forall ex r4, expo = Some (ex, r4) ->
                    (String.length r4 <= String.length r2)%nat).
  { unfold expo. intros ex r4. destruct r2 as [|c r0].
    - intros H. inversion H; subst. simpl. lia.
    - destruct (Ascii.eqb c "e" || Ascii.eqb c "E").
      + destruct (take_sign r0) as [eneg r3] eqn:Hs.
        apply take_sign_length in Hs.
        destruct (take_digits r3) as [ed r4'] eqn:Hed.
        apply take_digits_length in Hed.
        destruct (is_empty ed); [discriminate|].
        intros H. inversion H; subst. simpl. lia.
      + intros H. inversion H; subst. lia. }
  destruct expo as [[ex r4]|]; [|discriminate].
  specialize (Hexpo ex r4 eq_refl).
  intros H. inversion H; subst. lia.
Qed.

Lemma starts_with_length (p : string) : forall s r : string,
  starts_with p s = Some r ->
  String.length s = (String.length p + String.length r)%nat.
Proof.
  induction p as [|a p IH]; intros s r H; simpl in H.
  - inversion H; subst. reflexivity.
  - destruct s as [|b s]; [discriminate|].
    destruct (Ascii.eqb a b); [|discriminate].
    simpl. rewrite (IH s r H). reflexivity.
Qed.

Lemma parse_atom_consumed (s : string) : consumed s (parse_atom s).
Proof.
  unfold parse_atom.
  destruct (starts_with "null" s) as [r|] eqn:H1.
  { apply starts_with_length in H1. simpl in *. lia. }
  destruct (starts_with "true" s) as [r|] eqn:H2.
  { apply starts_with_length in H2. simpl in *. lia. }
  destruct (starts_with "false" s) as [r|] eqn:H3.
  { apply starts_with_length in H3. simpl in *. lia. }
  destruct (take_json_number s) as [[x r]|] eqn:H4; simpl; [|exact I].
  apply (take_json_number_length s r x H4).
Qed.

Lemma parse_string_body_length (n : nat) : forall (s r : string) (cs : list Z),
  (String.length s <= n)%nat ->
  parse_string_body s = Some (cs, r) ->
  (String.length r < String.length s)%nat.
Proof.
  induction n as [|n IH]; intros s r cs Hn H.
  - destruct s; [discriminate | simpl in Hn; lia].
  - destruct s as [|c s]; [discriminate|]. cbn [parse_string_body] in H.
    destruct (code c =? 34).
    { inversion H; subst. simpl. lia. }
    destruct (code c =? 92).
    { destruct s as [|e s1]; [discriminate|].
      destruct (code e =? 117).
      - destruct s1 as [|h1 [|h2 [|h3 [|h4 r2]]]]; try discriminate.
        destruct (hex4 h1 h2 h3 h4); [|discriminate].
        destruct (parse_string_body r2) as [[cs' rest]|] eqn:Hr;
          [|discriminate].
        inversion H; subst. apply IH in Hr; simpl in *; lia.
      - destruct (simple_escape e); [|discriminate].
        destruct (parse_string_body s1) as [[cs' rest]|] eqn:Hr;
          [|discriminate].
        inversion H; subst. apply IH in Hr; simpl in *; lia. }
    destruct (code c <? 32); [discriminate|].
    destruct (parse_string_body s) as [[cs' rest]|] eqn:Hr; [|discriminate].
    inversion H; subst. apply IH in Hr; simpl in *; lia.
Qed.

Lemma parse_fuel_enough (f : nat) :
  (forall s, (2 * String.length s + 1 <= f)%nat ->
             consumed s (parse_value f s)) /\
  (forall acc s, (2 * String.length s + 2 <= f)%nat ->
                 consumed s (parse_elements f acc s)) /\
  (forall acc s, (2 * String.length s + 2 <= f)%nat ->
                 consumed s (parse_members f acc s)).
Proof.
  induction f as [|f [IHv [IHe IHm]]].
  - repeat split; intros; lia.
  - split; [|split].
    + intros s Hf. cbn [parse_value].
      pose proof (skip_ws_length s) as Hs.
      destruct (skip_ws s) as [|c r] eqn:Es; [exact I|]. simpl in Hs.
      destruct (Ascii.eqb c "{").
      { pose proof (skip_ws_length r) as Hr.
        destruct (skip_ws r) as [|c' r']; [exact I|]. simpl in Hr.
        destruct (Ascii.eqb c' "}"); [simpl; lia|].
        assert (H : consumed (String c' r')
                             (parse_members f [] (String c' r')))
          by (apply IHm; simpl; lia).
        destruct (parse_members f [] (String c' r')); simpl in *;
          [lia | exact I | exact H]. }
      destruct (Ascii.eqb c "[").
      { pose proof (skip_ws_length r) as Hr.
        destruct (skip_ws r) as [|c' r']; [exact I|]. simpl in Hr.
        destruct (Ascii.eqb c' "]"); [simpl; lia|].
        assert (H : consumed (String c' r')
                             (parse_elements f [] (String c' r')))
          by (apply IHe; simpl; lia).
        destruct (parse_elements f [] (String c' r')); simpl in *;
          [lia | exact I | exact H]. }
      destruct (Ascii.eqb c dquote).
      { destruct (parse_string_body r) as [[cs r']|] eqn:Hb; [|exact I].
        apply (parse_string_body_length (String.length r)) in Hb; [|lia].
        simpl. lia. }
      pose proof (parse_atom_consumed (String c r)) as H.
      destruct (parse_atom (String c r)); simpl in *;
        [lia | exact I | exact H].
    + intros acc s Hf. cbn [parse_elements].
      assert (H : consumed s (parse_value f s)) by (apply IHv; lia).
      destruct (parse_value f s) as [v r| |]; [|exact I|exact H].
      simpl in H. pose proof (skip_ws_length r) as Hr.
      destruct (skip_ws r) as [|c r']; [exact I|]. simpl in Hr.
      destruct (Ascii.eqb c ",").
      { assert (H' : consumed r' (parse_elements f (acc ++ [v]) r'))
          by (apply IHe; lia).
        destruct (parse_elements f (acc ++ [v]) r'); simpl in *;
          [lia | exact I | exact H']. }
      destruct (Ascii.eqb c "]"); [simpl; lia | exact I].
    + intros acc s Hf. cbn [parse_members].
      pose proof (skip_ws_length s) as Hs.
      destruct (skip_ws s) as [|c r]; [exact I|]. simpl in Hs.
      destruct (Ascii.eqb c dquote); [|exact I].
      destruct (parse_string_body r) as [[k r1]|] eqn:Hb; [|exact I].
      apply (parse_string_body_length (String.length r)) in Hb; [|lia].
      pose proof (skip_ws_length r1) as Hr1.
      destruct (skip_ws r1) as [|c1 r2]; [exact I|]. simpl in Hr1.
      destruct (Ascii.eqb c1 ":"); [|exact I].
      assert (H : consumed r2 (parse_value f r2)) by (apply IHv; lia).
      destruct (parse_value f r2) as [v r3| |]; [|exact I|exact H].
      simpl in H. pose proof (skip_ws_length r3) as Hr3.
      destruct (skip_ws r3) as [|c3 r4]; [exact I|]. simpl in Hr3.
      destruct (Ascii.eqb c3 ",").
      { assert (H' : consumed r4 (parse_members f (acc ++ [(k, v)]) r4))
          by (apply IHm; lia).
        destruct (parse_members f (acc ++ [(k, v)]) r4); simpl in *;
          [lia | exact I | exact H']. }
      destruct (Ascii.eqb c3 "}"); [simpl; lia | exact I].
Qed.

(** With the fuel [JSON_parse] gives it, the descent never stops short:
    [None] from [JSON_parse] is a syntax error. *)
Lemma parse_value_fuel (text : string) :
  parse_value (2 * String.length text + 1) text <> PFuel.
Proof.
  intros H.
  pose proof (proj1 (parse_fuel_enough (2 * String.length text + 1)) text
                (le_n _)) as Hc.
  rewrite H in Hc. exact Hc.
Qed.

(** ** JSON.parse after JSON.stringify *)

Lemma number_same_eq (x y : number) : number_same x y = true -> x = y.
Proof.
  destruct x as [a|a| |a m e], y as [b|b| |b m' e']; simpl; intros H;
    try discriminate; try reflexivity.
  - apply Bool.eqb_prop in H. congruence.
  - apply Bool.eqb_prop in H. congruence.
  - apply Bool.andb_true_iff in H. destruct H as [H He].
    apply Bool.andb_true_iff in H. destruct H as [Ha Hm].
    apply Bool.eqb_prop in Ha. apply Pos.eqb_eq in Hm. apply Z.eqb_eq in He.
    congruence.
Qed.

Lemma code_range (c : ascii) : 0 <= code c < 256.
Proof.
  unfold code. pose proof (N_ascii_bounded c) as H. lia.
Qed.

Lemma string_of_codes_codes (s : string) : string_of_codes (codes s) = Some s.
Proof.
  induction s as [|c s IH]; [reflexivity|].
  change (codes (String c s)) with (code c :: codes s).
  cbn [string_of_codes]. pose proof (code_range c) as Hc.
  destruct (0 <=? code c) eqn:A; [|apply Z.leb_gt in A; lia].
  destruct (code c <? 256) eqn:B; [|apply Z.ltb_ge in B; lia].
  cbn [andb]. rewrite IH. unfold code. rewrite N2Z.id, ascii_N_embedding.
  reflexivity.
Qed.

Lemma hex4_control (n : Z) :
  0 <= n < 32 ->
  hex4 "0" "0" (hex_digit (n / 16)) (hex_digit (n mod 16)) = Some n.
Proof.
  intros H. rewrite <- (Z2Nat.id n) by lia.
  assert (Hk : (Z.to_nat n < 32)%nat) by lia.
  revert Hk. generalize (Z.to_nat n). intros k Hk.
  do 32 (destruct k as [|k]; [reflexivity|]). lia.
Qed.

Lemma parse_string_body_escape (e : ascii) (u : Z) (t rest : string)
    (cs : list Z) :
  (code e =? 117) = false -> simple_escape e = Some u ->
  parse_string_body t = Some (cs, rest) ->
  parse_string_body (String "\" (String e t)) = Some (u :: cs, rest).
Proof.
  intros H1 H2 H3. cbn [parse_string_body].
  change (code "\" =? 34) with false. change (code "\" =? 92) with true.
  cbv beta iota. rewrite H1, H2, H3. reflexivity.
Qed.

Lemma parse_string_body_raw (c : ascii) (t rest : string) (cs : list Z) :
  (code c =? 34) = false -> (code c =? 92) = false ->
  (code c <? 32) = false ->
  parse_string_body t = Some (cs, rest) ->
  parse_string_body (String c t) = Some (code c :: cs, rest).
Proof.
  intros H1 H2 H3 H4. cbn [parse_string_body]. rewrite H1, H2, H3, H4.
  reflexivity.
Qed.

(** A quoted string reads back as its code units. *)
Lemma parse_string_body_escape_all (s rest : string) :
  parse_string_body (escape s ++ String dquote rest) = Some (codes s, rest).
Proof.
  induction s as [|c s IH].
  - reflexivity.
  - cbn [escape]. rewrite append_assoc.
    change (codes (String c s)) with (code c :: codes s).
    unfold escape_char. pose proof (code_range c) as Hc.
    destruct (code c =? 34) eqn:E34.
    { apply Z.eqb_eq in E34. rewrite E34.
      apply parse_string_body_escape; [reflexivity | reflexivity | exact IH]. }
    destruct (code c =? 92) eqn:E92.
    { apply Z.eqb_eq in E92. rewrite E92.
      apply (parse_string_body_escape "\");
        [reflexivity | reflexivity | exact IH]. }
    destruct (code c =? 8) eqn:E8.
    { apply Z.eqb_eq in E8. rewrite E8.
      apply (parse_string_body_escape "b");
        [reflexivity | reflexivity | exact IH]. }
    destruct (code c =? 12) eqn:E12.
    { apply Z.eqb_eq in E12. rewrite E12.
      apply (parse_string_body_escape "f");
        [reflexivity | reflexivity | exact IH]. }
    destruct (code c =? 10) eqn:E10.
    { apply Z.eqb_eq in E10. rewrite E10.
      apply (parse_string_body_escape "n");
        [reflexivity | reflexivity | exact IH]. }
    destruct (code c =? 13) eqn:E13.
    { apply Z.eqb_eq in E13. rewrite E13.
      apply (parse_string_body_escape "r");
        [reflexivity | reflexivity | exact IH]. }
    destruct (code c =? 9) eqn:E9.
    { apply Z.eqb_eq in E9. rewrite E9.
      apply (parse_string_body_escape "t");
        [reflexivity | reflexivity | exact IH]. }
    destruct (code c <? 32) eqn:E32.
    { apply Z.ltb_lt in E32. cbn [append parse_string_body].
      change (code "\" =? 34) with false. change (code "\" =? 92) with true.
      change (code "u" =? 117) with true. cbv beta iota.
      rewrite hex4_control by lia. rewrite IH. reflexivity. }
    cbn [append]. apply parse_string_body_raw; assumption.
Qed.

Lemma take_digits_app_rest (s : string) : forall d r X : string,
  take_digits s = (d, r) ->
  match X with
  | EmptyString => True
  | String c _ => is_digit c = false
  end ->
  take_digits (s ++ X) = (d, (r ++ X)%string).
Proof.
  induction s as [|c s IH]; intros d r X H HX.
  - simpl in H. inversion H; subst. simpl.
    destruct X as [|cx X]; [reflexivity|]. simpl. rewrite HX. reflexivity.
  - simpl in H. cbn [append take_digits]. destruct (is_digit c).
    + destruct (take_digits s) as [d' r'] eqn:Hs. inversion H; subst.
      rewrite (IH d' r X eq_refl HX). reflexivity.
    + inversion H; subst. reflexivity.
Qed.

Lemma neutral_digits (X : string) :
  neutral X ->
  match X with
  | EmptyString => True
  | String c _ => is_digit c = false
  end.
Proof. destruct X; [trivial | intros [H _]; exact H]. Qed.

Lemma take_sign_app (r X : string) :
  r <> EmptyString ->
  take_sign (r ++ X) = (fst (take_sign r), (snd (take_sign r) ++ X)%string).
Proof.
  intros Hr. destruct r as [|c r]; [congruence|]. cbn [append take_sign].
  destruct (Ascii.eqb c "-"); [reflexivity|].
  destruct (Ascii.eqb c "+"); reflexivity.
Qed.

(** A JSON number is read the same with a neutral text after it. *)
Lemma take_json_number_app (T X r : string) (x : number) :
  take_json_number T = Some (x, r) -> neutral X ->
  take_json_number (T ++ X) = Some (x, (r ++ X)%string).
Proof.
  intros H HX. pose proof (neutral_digits X HX) as HXd.
  unfold take_json_number in *.
  set (p := match T with
            | String c r0 => if Ascii.eqb c "-" then (true, r0) else (false, T)
            | EmptyString => (false, T)
            end) in H.
  assert (Hp : T <> EmptyString ->
               match (T ++ X)%string with
               | String c r0 =>
                   if Ascii.eqb c "-" then (true, r0)
                   else (false, (T ++ X)%string)
               | EmptyString => (false, (T ++ X)%string)
               end = (fst p, (snd p ++ X)%string)).
  { intros HT. unfold p. destruct T as [|c r0]; [congruence|].
    cbn [append]. destruct (Ascii.eqb c "-"); reflexivity. }
  destruct T as [|c0 T0].
  { simpl in H. discriminate. }
  rewrite Hp by discriminate. clear Hp.
  destruct p as [neg s1]. cbn [fst snd].
  destruct (take_digits s1) as [ip r1] eqn:Hip.
  rewrite (take_digits_app_rest s1 ip r1 X Hip HXd).
  destruct (is_empty ip || leading_zero ip); [discriminate|].
  (* the fraction *)
  set (frac := match r1 with
               | String c r0 =>
                   if Ascii.eqb c "." then
                     let '(fp, r2) := take_digits r0 in
                     if is_empty fp then None else Some (fp, r2)
                   else Some (EmptyString, r1)
               | EmptyString => Some (EmptyString, r1)
               end) in H.
  assert (Hfrac : forall fp r2, frac = Some (fp, r2) ->
            match (r1 ++ X)%string with
            | String c r0 =>
                if Ascii.eqb c "." then
                  let '(fp, r2) := take_digits r0 in
                  if is_empty fp then None else Some (fp, r2)
                else Some (EmptyString, (r1 ++ X)%string)
            | EmptyString => Some (EmptyString, (r1 ++ X)%string)
            end = Some (fp, (r2 ++ X)%string)).
  { unfold frac. intros fp r2. destruct r1 as [|c r0].
    - intros E. inversion E; subst. cbn [append].
      destruct X as [|cx X']; [reflexivity|].
      destruct HX as [_ [Hdot _]]. rewrite Hdot. reflexivity.
    - cbn [append]. destruct (Ascii.eqb c ".").
      + destruct (take_digits r0) as [fp' r2'] eqn:Hfp.
        rewrite (take_digits_app_rest r0 fp' r2' X Hfp HXd).
        destruct (is_empty fp'); [discriminate|].
        intros E. inversion E; subst. reflexivity.
      + intros E. inversion E; subst. reflexivity. }
  destruct frac as [[fp r2]|]; [|discriminate].
  rewrite (Hfrac fp r2 eq_refl). clear Hfrac.
  (* the exponent *)
  set (expo := match r2 with
               | String c r0 =>
                   if Ascii.eqb c "e" || Ascii.eqb c "E" then
                     let '(eneg, r3) := take_sign r0 in
                     let '(ed, r4) := take_digits r3 in
                     if is_empty ed then None
                     else Some ((if eneg then - digits_value 0 ed
                                 else digits_value 0 ed), r4)
                   else Some (0, r2)
               | EmptyString => Some (0, r2)
               end) in H.
  assert (Hexpo : forall ex r4, expo = Some (ex, r4) ->
            match (r2 ++ X)%string with
            | String c r0 =>
                if Ascii.eqb c "e" || Ascii.eqb c "E" then
                  let '(eneg, r3) := take_sign r0 in
                  let '(ed, r4) := take_digits r3 in
                  if is_empty ed then None
                  else Some ((if eneg then - digits_value 0 ed
                              else digits_value 0 ed), r4)
                else Some (0, (r2 ++ X)%string)
            | EmptyString => Some (0, (r2 ++ X)%string)
            end = Some (ex, (r4 ++ X)%string)).
  { unfold expo. intros ex r4. destruct r2 as [|c r0].
    - intros E. inversion E; subst. cbn [append].
      destruct X as [|cx X']; [reflexivity|].
      destruct HX as [_ [_ [He HE]]]. rewrite He, HE. reflexivity.
    - cbn [append]. destruct (Ascii.eqb c "e" || Ascii.eqb c "E").
      + destruct r0 as [|c1 r0'].
        { simpl. discriminate. }
        rewrite take_sign_app by discriminate.
        destruct (take_sign (String c1 r0')) as [eneg r3]. cbn [fst snd].
        destruct (take_digits r3) as [ed r4'] eqn:Hed.
        rewrite (take_digits_app_rest r3 ed r4' X Hed HXd).
        destruct (is_empty ed); [discriminate|].
        intros E. inversion E; subst. reflexivity.
      + intros E. inversion E; subst. reflexivity. }
  destruct expo as [[ex r4]|]; [|discriminate].
  rewrite (Hexpo ex r4 eq_refl). inversion H; subst. reflexivity.
Qed.

Lemma take_json_number_head (s r : string) (x : number) :
  take_json_number s = Some (x, r) ->
  exists c t, s = String c t /\ number_start c = true.
Proof.
  unfold take_json_number, number_start. destruct s as [|c t].
  - simpl. discriminate.
  - intros H. exists c, t. split; [reflexivity|].
    destruct (Ascii.eqb c "-"); [reflexivity|].
    cbn [take_digits] in H. destruct (is_digit c); [reflexivity|].
    simpl in H. discriminate.
Qed.

Lemma number_start_not_space (c : ascii) :
  number_start c = true -> is_json_space c = false.
Proof.
  unfold number_start. intros H. apply Bool.orb_true_iff in H.
  destruct H as [H|H].
  - apply Ascii.eqb_eq in H. subst c. reflexivity.
  - unfold is_digit in H. unfold is_json_space.
    apply Bool.andb_true_iff in H. destruct H as [H1 H2].
    apply Z.leb_le in H1. apply Z.leb_le in H2.
    destruct (code c =? 32) eqn:A; [apply Z.eqb_eq in A; lia|].
    destruct (code c =? 9) eqn:B; [apply Z.eqb_eq in B; lia|].
    destruct (code c =? 10) eqn:C; [apply Z.eqb_eq in C; lia|].
    destruct (code c =? 13) eqn:D; [apply Z.eqb_eq in D; lia|].
    reflexivity.
Qed.

Lemma number_start_not (c d : ascii) :
  number_start c = true -> number_start d = false -> Ascii.eqb c d = false.
Proof.
  intros Hc Hd. destruct (Ascii.eqb_spec c d) as [E|E]; [|reflexivity].
  subst d. congruence.
Qed.

(** The text of a number, with a neutral character after it, is read by
    [parse_value] as that number. *)
Lemma parse_value_number (f : nat) (T : string) (x : number) (c : ascii)
    (rest : string) :
  take_json_number T = Some (x, EmptyString) ->
  neutral (String c rest) ->
  parse_value (S f) (T ++ String c rest) = POk (JNumber x) (String c rest).
Proof.
  intros HT HX.
  pose proof (take_json_number_app T (String c rest) "" x HT HX) as Happ.
  destruct (take_json_number_head T "" x HT) as [c0 [t0 [ET Hs]]]. subst T.
  cbn [append] in *. cbn [parse_value skip_ws].
  rewrite (number_start_not_space c0 Hs).
  rewrite (number_start_not c0 "{" Hs eq_refl).
  rewrite (number_start_not c0 "[" Hs eq_refl).
  rewrite (number_start_not c0 dquote Hs eq_refl).
  unfold parse_atom. cbn [starts_with].
  rewrite (Ascii.eqb_sym "n" c0), (number_start_not c0 "n" Hs eq_refl).
  rewrite (Ascii.eqb_sym "t" c0), (number_start_not c0 "t" Hs eq_refl).
  rewrite (Ascii.eqb_sym "f" c0), (number_start_not c0 "f" Hs eq_refl).
  rewrite Happ. reflexivity.
Qed.

Lemma parse_value_null (f : nat) (rest : string) :
  parse_value (S f) ("null" ++ rest) = POk JNull rest.
Proof. reflexivity. Qed.

(** What follows a value inside an object: a comma or a closing brace. *)
Lemma neutral_comma (rest : string) : neutral (String "," rest).
Proof. repeat split. Qed.

Lemma neutral_brace (rest : string) : neutral (String "}" rest).
Proof. repeat split. Qed.

Lemma parse_value_stringify_value (f : nat) (v : jsval) (c : ascii)
    (rest : string) :
  value_exact v = true -> neutral (String c rest) ->
  parse_value (S f) (stringify_value v ++ String c rest)
  = POk (json_of_value v) (String c rest).
Proof.
  intros Hv HX. destruct v as [x|]; [|apply parse_value_null].
  unfold value_exact, number_text_exact in Hv.
  apply Bool.andb_true_iff in Hv. destruct Hv as [Hfin Hv].
  unfold stringify_value. rewrite Hfin.
  destruct (take_json_number (Number_toString x)) as [[y r]|] eqn:HT;
    [|discriminate].
  destruct r; [|discriminate]. apply number_same_eq in Hv. subst y.
  apply parse_value_number; assumption.
Qed.

Lemma parse_value_quote (f : nat) (s rest : string) :
  parse_value (S f) (quote s ++ rest) = POk (JString (codes s)) rest.
Proof.
  unfold quote. cbn [append parse_value skip_ws].
  change (is_json_space dquote) with false. cbv beta iota.
  change (Ascii.eqb dquote "{") with false.
  change (Ascii.eqb dquote "[") with false.
  rewrite Ascii.eqb_refl. cbv beta iota.
  rewrite append_assoc. cbn [append].
  rewrite parse_string_body_escape_all. reflexivity.
Qed.

Lemma parse_object_open (f : nat) (key X : string) :
  parse_value (S f) (String "{" (quote key ++ X))
  = parse_members f [] (quote key ++ X).
Proof. reflexivity. Qed.

(** One member of an object whose value is read by [parse_value], before
    a comma and before the closing brace. *)
Lemma parse_members_comma (f : nat) (acc : list (list Z * json))
    (key vt rest : string) (j : json) :
  parse_value f (vt ++ String "," rest) = POk j (String "," rest) ->
  parse_members (S f) acc (quote key ++ String ":" (vt ++ String "," rest))
  = parse_members f (acc ++ [(codes key, j)]) rest.
Proof.
  intros H. unfold quote. cbn [append parse_members skip_ws].
  change (is_json_space dquote) with false. cbv beta iota.
  rewrite Ascii.eqb_refl. cbv beta iota.
  rewrite append_assoc. cbn [append].
  rewrite parse_string_body_escape_all. cbn [skip_ws].
  change (is_json_space ":") with false. cbv beta iota.
  rewrite Ascii.eqb_refl, H. reflexivity.
Qed.

Lemma parse_members_brace (f : nat) (acc : list (list Z * json))
    (key vt rest : string) (j : json) :
  parse_value f (vt ++ String "}" rest) = POk j (String "}" rest) ->
  parse_members (S f) acc (quote key ++ String ":" (vt ++ String "}" rest))
  = POk (JObject (acc ++ [(codes key, j)])) rest.
Proof.
  intros H. unfold quote. cbn [append parse_members skip_ws].
  change (is_json_space dquote) with false. cbv beta iota.
  rewrite Ascii.eqb_refl. cbv beta iota.
  rewrite append_assoc. cbn [append].
  rewrite parse_string_body_escape_all. cbn [skip_ws].
  change (is_json_space ":") with false. cbv beta iota.
  rewrite Ascii.eqb_refl, H. reflexivity.
Qed.

(** The text of an item reads back as the item. *)
Lemma parse_value_stringify_item (f : nat) (it : item) (tail : string) :
  (7 <= f)%nat -> item_exact it = true ->
  parse_value f (stringify_item it ++ tail) = POk (json_of_item it) tail.
Proof.
  intros Hf Hit. unfold item_exact in Hit.
  apply Bool.andb_true_iff in Hit. destruct Hit as [Hit Hk].
  apply Bool.andb_true_iff in Hit. destruct Hit as [Hit Hh].
  apply Bool.andb_true_iff in Hit. destruct Hit as [Hi Hw].
  do 7 (destruct f as [|f]; [lia|]).
  unfold stringify_item. repeat rewrite append_assoc. cbn [append].
  rewrite parse_object_open.
  rewrite (parse_members_comma _ _ "id" _ _ (json_of_value (id it)))
    by (apply parse_value_stringify_value; [exact Hi | apply neutral_comma]).
  rewrite (parse_members_comma _ _ "name" _ _ (JString (codes (name it))))
    by (apply parse_value_quote).
  rewrite (parse_members_comma _ _ "watts" _ _ (json_of_value (watts it)))
    by (apply parse_value_stringify_value; [exact Hw | apply neutral_comma]).
  rewrite (parse_members_comma _ _ "hours" _ _ (json_of_value (hours it)))
    by (apply parse_value_stringify_value; [exact Hh | apply neutral_comma]).
  rewrite (parse_members_brace _ _ "kWh" _ _ (json_of_value (kWh it)))
    by (apply parse_value_stringify_value; [exact Hk | apply neutral_brace]).
  reflexivity.
Qed.

Lemma stringify_items_cons (it it' : item) (l : list item) :
  stringify_items (it :: it' :: l)
  = (stringify_item it ++ "," ++ stringify_items (it' :: l))%string.
Proof. reflexivity. Qed.

Lemma parse_elements_items (l : list item) :
  forall (it : item) (acc : list json) (f : nat) (tail : string),
  (List.length l + 8 <= f)%nat ->
  forallb item_exact (it :: l) = true ->
  parse_elements f acc (stringify_items (it :: l) ++ String "]" tail)
  = POk (JArray (acc ++ map json_of_item (it :: l))) tail.
Proof.
  induction l as [|it' l IH]; intros it acc f tail Hf Hall;
    cbn [forallb] in Hall; apply Bool.andb_true_iff in Hall;
    destruct Hall as [Hit Hall]; (destruct f as [|f]; [simpl in Hf; lia|]).
  - cbn [stringify_items parse_elements].
    rewrite parse_value_stringify_item by (simpl in Hf; lia || exact Hit).
    reflexivity.
  - rewrite stringify_items_cons. repeat rewrite append_assoc.
    cbn [append parse_elements].
    rewrite parse_value_stringify_item by (simpl in Hf; lia || exact Hit).
    cbn [skip_ws]. change (is_json_space ",") with false. cbv beta iota.
    rewrite Ascii.eqb_refl.
    rewrite IH by (simpl in Hf; lia || exact Hall).
    rewrite <- app_assoc. reflexivity.
Qed.

Lemma stringify_item_length (it : item) :
  (8 <= String.length (stringify_item it))%nat.
Proof.
  unfold stringify_item. repeat rewrite length_append. simpl. lia.
Qed.

Lemma stringify_items_length (l : list item) :
  (8 * List.length l <= String.length (stringify_items l))%nat.
Proof.
  induction l as [|it l IH]; [simpl; lia|].
  destruct l as [|it' l].
  - pose proof (stringify_item_length it). simpl in *. lia.
  - rewrite stringify_items_cons. repeat rewrite length_append.
    pose proof (stringify_item_length it).
    change (List.length (it :: it' :: l)) with (S (List.length (it' :: l))).
    lia.
Qed.

Lemma stringify_items_head (it : item) (l : list item) (X : string) :
  exists t, (stringify_items (it :: l) ++ X)%string = String "{" t.
Proof.
  destruct l as [|it' l].
  - cbn [stringify_items]. unfold stringify_item. cbn [append]. eauto.
  - rewrite stringify_items_cons. unfold stringify_item. cbn [append]. eauto.
Qed.

(** [JSON.parse] reads what [JSON.stringify] wrote for exact items. *)
Lemma JSON_parse_stringify (l : list item) :
  forallb item_exact l = true ->
  JSON_parse (JSON_stringify l) = Some (JArray (map json_of_item l)).
Proof.
  intros Hall. destruct l as [|it l]; [reflexivity|].
  unfold JSON_parse, JSON_stringify.
  pose proof (stringify_items_length (it :: l)) as Hlen.
  change (List.length (it :: l)) with (S (List.length l)) in Hlen.
  rewrite !length_append.
  change (String.length "[") with 1%nat. change (String.length "]") with 1%nat.
  replace (2 * (1 + (String.length (stringify_items (it :: l)) + 1)) + 1)%nat
    with (S (2 * String.length (stringify_items (it :: l)) + 4)) by lia.
  cbn [append].
  destruct (stringify_items_head it l "]") as [t Ht].
  rewrite Ht. cbn [parse_value skip_ws].
  change (is_json_space "[") with false. cbv beta iota.
  change (Ascii.eqb "[" "{") with false. rewrite Ascii.eqb_refl.
  cbv beta iota. cbn [skip_ws].
  change (is_json_space "{") with false. cbv beta iota.
  change (Ascii.eqb "{" "]") with false. cbv beta iota.
  rewrite <- Ht.
  rewrite (parse_elements_items l it [] _ "") by (lia || exact Hall).
  reflexivity.
Qed.

Lemma as_item_json_of_item (it : item) : as_item (json_of_item it) = Some it.
Proof.
  destruct it as [i n w h k]. unfold json_of_item, as_item.
  cbn [id name watts hours kWh].
  change (codes_eqb (codes "id") (codes "id")) with true.
  change (codes_eqb (codes "name") (codes "name")) with true.
  change (codes_eqb (codes "watts") (codes "watts")) with true.
  change (codes_eqb (codes "hours") (codes "hours")) with true.
  change (codes_eqb (codes "kWh") (codes "kWh")) with true.
  cbn [andb]. rewrite string_of_codes_codes.
  destruct i, w, h, k; reflexivity.
Qed.

Lemma as_items_json_of_items (l : list item) :
  as_items (JArray (map json_of_item l)) = Some l.
Proof.
  cbn [as_items]. induction l as [|it l IH]; [reflexivity|].
  cbn [map as_item_list]. rewrite as_item_json_of_item, IH. reflexivity.
Qed.

(** ** Rounding to a double *)

Lemma digits2_size (p : positive) : digits2_pos p = Pos.size p.
Proof. induction p as [p IH|p IH|]; simpl; [rewrite IH|rewrite IH|]; reflexivity. Qed.

Lemma Zdigits2_log2 (m : Z) : 0 < m -> Zdigits2 m = Z.log2 m + 1.
Proof.
  destruct m as [|p|p]; try lia. intros _. simpl Zdigits2. rewrite digits2_size.
  destruct p as [p|p|]; simpl; try rewrite Pos2Z.inj_succ; lia.
Qed.

Lemma Zdigits2_nonneg (m : Z) : 0 <= Zdigits2 m.
Proof. destruct m; simpl; lia. Qed.

Lemma Zdigits2_eq (m j : Z) :
  0 <= j -> 2 ^ j <= m < 2 ^ (j + 1) -> Zdigits2 m = j + 1.
Proof.
  intros Hj H. assert (0 < m) by (pose proof (Z.pow_pos_nonneg 2 j); lia).
  rewrite Zdigits2_log2 by assumption. f_equal.
  apply Z.log2_unique; [assumption|]. replace (Z.succ j) with (j + 1) by lia. exact H.
Qed.

Lemma Zdigits2_le (m j : Z) : 0 <= j -> 0 <= m < 2 ^ j -> Zdigits2 m <= j.
Proof.
  intros Hj H. destruct (Z.eq_dec m 0) as [->|Hm]; [simpl; lia|].
  rewrite Zdigits2_log2 by lia.
  assert (Z.log2 m < j) by (apply Z.log2_lt_pow2; lia). lia.
Qed.

Lemma Zdigits2_bounds (m : Z) :
  0 < m -> 2 ^ (Zdigits2 m - 1) <= m < 2 ^ Zdigits2 m.
Proof.
  intros Hm. rewrite Zdigits2_log2 by assumption.
  replace (Z.log2 m + 1 - 1) with (Z.log2 m) by lia.
  pose proof (Z.log2_spec m Hm) as H. replace (Z.succ (Z.log2 m)) with (Z.log2 m + 1) in H by lia.
  exact H.
Qed.

Lemma shr_1_spec (m : Z) (r s : bool) :
  0 <= m ->
  shr_1 (Build_shr_record m r s) = Build_shr_record (m / 2) (Z.odd m) (r || s).
Proof.
  intros Hm. destruct m as [|p|p]; [reflexivity| |lia].
  destruct p as [p|p|]; cbn [shr_1]; f_equal.
  - apply (Z.div_unique (Zpos p~1) 2 (Zpos p) 1); lia.
  - apply (Z.div_unique (Zpos p~0) 2 (Zpos p) 0); lia.
Qed.

Lemma div_mod_double (N D : Z) :
  0 <= N -> 0 < D ->
  N / (2 * D) = N / D / 2 /\
  N mod (2 * D) = (if Z.odd (N / D) then D else 0) + N mod D.
Proof.
  intros HN HD.
  pose proof (Z.div_mod N D ltac:(lia)) as E.
  pose proof (Z.mod_pos_bound N D HD) as B.
  pose proof (Zdiv2_odd_eqn (N / D)) as P. rewrite Z.div2_div in P.
  set (q := N / D) in *. set (r := N mod D) in *.
  set (h := q / 2) in *.
  assert (Hq : 0 <= q) by (apply Z.div_pos; lia).
  assert (X : N = (2 * D) * h + ((if Z.odd q then D else 0) + r)).
  { destruct (Z.odd q); nia. }
  assert (Y : 0 <= (if Z.odd q then D else 0) + r < 2 * D).
  { destruct (Z.odd q); lia. }
  split.
  - symmetry. apply (Z.div_unique_pos N (2 * D) h _ Y X).
  - symmetry. apply (Z.mod_unique_pos N (2 * D) h _ Y X).
Qed.

Lemma shr_1_rec (N D : Z) :
  0 <= N -> 0 < D -> shr_1 (rec_of N D) = rec_of N (2 * D).
Proof.
  intros HN HD. unfold rec_of.
  destruct (div_mod_double N D HN HD) as [Eq Er].
  pose proof (Z.mod_pos_bound N D HD) as B.
  assert (Hq : 0 <= N / D) by (apply Z.div_pos; lia).
  unfold loc at 2. rewrite Eq, Er. unfold loc.
  assert (Hs : forall l, shr_1 (shr_record_of_loc (N / D) l)
               = Build_shr_record (N / D / 2) (Z.odd (N / D))
                   (match l with loc_Exact => false | _ => true end)).
  { intros [|[]]; cbn [shr_record_of_loc]; rewrite shr_1_spec by assumption;
      reflexivity. }
  rewrite Hs. clear Hs.
  set (r := N mod D) in *.
  destruct (Z.eqb_spec r 0) as [Hz|Hnz]; destruct (Z.odd (N / D)).
  - destruct (Z.eqb_spec (D + r) 0) as [A|A]; [lia|].
    destruct (Z.compare_spec (2 * (D + r)) (2 * D)); try lia. reflexivity.
  - destruct (Z.eqb_spec (0 + r) 0) as [A|A]; [reflexivity | lia].
  - destruct (Z.eqb_spec (D + r) 0) as [A|A]; [lia|].
    destruct (Z.compare_spec (2 * (D + r)) (2 * D)); try lia. reflexivity.
  - destruct (Z.eqb_spec (0 + r) 0) as [A|A]; [lia|].
    destruct (Z.compare_spec (2 * (0 + r)) (2 * D)); try lia. reflexivity.
Qed.

Lemma pow2_xO (p : positive) : 2 ^ Zpos p~0 = 2 ^ Zpos p * 2 ^ Zpos p.
Proof.
  replace (Zpos p~0) with (Zpos p + Zpos p) by lia.
  apply Z.pow_add_r; lia.
Qed.

Lemma pow2_xI (p : positive) : 2 ^ Zpos p~1 = 2 * (2 ^ Zpos p * 2 ^ Zpos p).
Proof.
  replace (Zpos p~1) with (1 + Zpos p~0) by lia.
  rewrite Z.pow_add_r by lia. rewrite pow2_xO. reflexivity.
Qed.

Lemma iter_shr_rec (p : positive) : forall N D : Z,
  0 <= N -> 0 < D ->
  iter_pos shr_1 p (rec_of N D) = rec_of N (D * 2 ^ Zpos p).
Proof.
  induction p as [p IH|p IH|]; intros N D HN HD; cbn [iter_pos].
  - rewrite shr_1_rec by assumption.
    assert (0 < 2 ^ Zpos p) by (apply Z.pow_pos_nonneg; lia).
    rewrite IH by lia. rewrite IH by nia. rewrite pow2_xI. f_equal. ring.
  - assert (0 < 2 ^ Zpos p) by (apply Z.pow_pos_nonneg; lia).
    rewrite IH by lia. rewrite IH by nia. rewrite pow2_xO. f_equal. ring.
  - rewrite shr_1_rec by assumption. f_equal. change (2 ^ 1) with 2. ring.
Qed.

Lemma rec_of_m (N D : Z) : shr_m (rec_of N D) = N / D.
Proof. unfold rec_of. destruct (loc N D) as [|[]]; reflexivity. Qed.

Lemma rec_of_loc (N D : Z) : loc_of_shr_record (rec_of N D) = loc N D.
Proof. unfold rec_of. destruct (loc N D) as [|[]]; reflexivity. Qed.

Lemma shr_fexp_rec (N D e : Z) :
  0 <= N -> 0 < D ->
  0 <= fexp prec emax (Zdigits2 (N / D) + e) - e ->
  shr_fexp prec emax (N / D) e (loc N D)
  = (rec_of N (D * 2 ^ (fexp prec emax (Zdigits2 (N / D) + e) - e)),
     fexp prec emax (Zdigits2 (N / D) + e)).
Proof.
  intros HN HD Hn. unfold shr_fexp, shr.
  change (shr_record_of_loc (N / D) (loc N D)) with (rec_of N D).
  destruct (fexp prec emax (Zdigits2 (N / D) + e) - e) as [|p|p] eqn:E. 
  - f_equal; [rewrite Z.mul_1_r; reflexivity | lia].
  - f_equal; [apply iter_shr_rec; assumption | lia].
  - lia.
Qed.

Lemma rne_near (N D M : Z) :
  0 < D -> (2 * M - 1) * D < 2 * N -> 2 * N < (2 * M + 1) * D ->
  round_nearest_even (N / D) (loc N D) = M.
Proof.
  intros HD Hl Hu.
  pose proof (Z.div_mod N D ltac:(lia)) as E.
  pose proof (Z.mod_pos_bound N D HD) as B.
  set (q := N / D) in *. set (r := N mod D) in *.
  assert (Hq : q = M \/ q = M - 1) by nia.
  unfold loc. fold r. destruct Hq as [Hq|Hq].
  - destruct (Z.eqb_spec r 0); [simpl; exact Hq|].
    replace (2 * r ?= D) with Lt by (symmetry; apply Z.compare_lt_iff; nia).
    simpl. exact Hq.
  - destruct (Z.eqb_spec r 0); [nia|].
    replace (2 * r ?= D) with Gt by (symmetry; apply Z.compare_gt_iff; nia).
    simpl. lia.
Qed.

Lemma fexp_eq (z : Z) : fexp prec emax z = Z.max (z - 53) (-1074).
Proof. reflexivity. Qed.

Lemma bounded_spec (m : positive) (e : Z) :
  bounded prec emax m e = true ->
  Z.max (Zdigits2 (Zpos m) + e - 53) (-1074) = e /\ e <= 971.
Proof.
  unfold bounded, canonical_mantissa. intros H.
  apply Bool.andb_true_iff in H. destruct H as [H1 H2].
  apply Z.eqb_eq in H1. apply Z.leb_le in H2. rewrite fexp_eq in H1.
  split; [exact H1 | exact H2].
Qed.

Lemma div_bounds (N D lo hi : Z) :
  0 < D -> lo * D <= N -> N < hi * D -> lo <= N / D < hi.
Proof.
  intros HD H1 H2. split.
  - apply Z.div_le_lower_bound; lia.
  - apply Z.div_lt_upper_bound; lia.
Qed.

(** The rounding of a value close enough to a double is that double. *)
Lemma round_aux_near (s : bool) (N D e : Z) (mx : positive) (ex : Z) :
  0 <= N -> 0 < D -> bounded prec emax mx ex = true ->
  e <= fexp prec emax (Zdigits2 (N / D) + e) ->
  (2 * Zpos mx - 1) * (D * 2 ^ (ex - e)) < 2 * N ->
  2 * N < (2 * Zpos mx + 1) * (D * 2 ^ (ex - e)) ->
  (Zpos mx = 2 ^ 52 -> (4 * Zpos mx - 1) * (D * 2 ^ (ex - e)) < 4 * N) ->
  binary_round_aux prec emax s (N / D) e (loc N D) = S754_finite s mx ex.
Proof.
  intros HN HD Hb Hpre Hlo Hup Hlo2.
  destruct (bounded_spec mx ex Hb) as [Hcan Hemax].
  assert (Hk : 0 <= ex - e).
  { destruct (Z.le_gt_cases 0 (ex - e)) as [?|Hneg]; [assumption|].
    rewrite (Z.pow_neg_r 2 (ex - e)) in Hup by lia. lia. }
  set (k := ex - e) in *.
  assert (H2k : 0 < 2 ^ k) by (apply Z.pow_pos_nonneg; lia).
  set (d := Zdigits2 (Zpos mx)) in *.
  pose proof (Zdigits2_bounds (Zpos mx) ltac:(lia)) as Hd. fold d in Hd.
  assert (Hd1 : 1 <= d) by (unfold d; simpl; lia).
  assert (Hd53 : d <= 53) by lia.
  set (D2 := D * 2 ^ k) in *.
  assert (HD2 : 0 < D2) by (unfold D2; nia).
  assert (Hpd : 2 ^ d = 2 * 2 ^ (d - 1)).
  { replace d with (d - 1 + 1) at 1 by lia. rewrite Z.pow_add_r by lia. 
    change (2 ^ 1) with 2. ring. }
  assert (Hpd1 : 0 < 2 ^ (d - 1)) by (apply Z.pow_pos_nonneg; lia).
  (* the final steps, once the first shift and the rounding are known *)
  assert (Hfin :
     (let '(mrs'', e'') := shr_fexp prec emax (Zpos mx) ex loc_Exact in
      match shr_m mrs'' with
      | 0 => S754_zero s
      | Z.pos m => if e'' <=? emax - prec then S754_finite s m e'' else S754_infinity s
      | Z.neg _ => S754_nan
      end) = S754_finite s mx ex).
  { unfold shr_fexp. rewrite fexp_eq. fold d. rewrite Hcan.
    rewrite Z.sub_diag. cbn [shr shr_record_of_loc shr_m].
    change (emax - prec) with 971.
    destruct (Z.leb_spec ex 971); [reflexivity | lia]. }
  destruct (Z_lt_le_dec N (2 ^ (d - 1) * D2)) as [Hbelow|Habove].
  - (* below the binade of the target *)
    assert (Hmx : Zpos mx = 2 ^ (d - 1)) by nia.
    destruct (Z.eq_dec ex (-1074)) as [Hsub|Hnorm].
    + (* subnormal range: the exponent does not change *)
      assert (Hm : 0 <= N / D < 2 ^ (d - 1 + k)).
      { rewrite Z.pow_add_r by lia. apply div_bounds; [lia | lia | ].
        unfold D2 in Hbelow. lia. }
      pose proof (Zdigits2_le (N / D) (d - 1 + k) ltac:(lia) Hm) as Hdig.
      pose proof (Zdigits2_nonneg (N / D)) as Hdig0.
      assert (Hf : fexp prec emax (Zdigits2 (N / D) + e) = ex).
      { rewrite fexp_eq. unfold k in Hdig. lia. }
      unfold binary_round_aux.
      rewrite shr_fexp_rec by (try assumption; rewrite Hf; lia).
      rewrite Hf. fold k. fold D2. rewrite rec_of_m, rec_of_loc.
      rewrite (rne_near N D2 (Zpos mx)) by assumption.
      exact Hfin.
    + (* normal: one binade below, the rounding carries *)
      assert (Hd' : d = 53) by lia.
      assert (Hmx' : Zpos mx = 2 ^ 52) by (rewrite Hmx, Hd'; reflexivity).
      specialize (Hlo2 Hmx'). fold k in Hlo2. fold D2 in Hlo2.
      assert (Hm : 2 ^ (51 + k) <= N / D < 2 ^ (51 + k + 1)).
      { rewrite !Z.pow_add_r by lia. change (2 ^ 1) with 2. 
        apply div_bounds; [lia | | ].
        - unfold D2 in Hlo2. rewrite Hmx' in Hlo2.
          change (2 ^ 52) with (2 * 2 ^ 51) in Hlo2.
          assert (0 < 2 ^ 51) by (apply Z.pow_pos_nonneg; lia). nia.
        - unfold D2 in Hbelow. rewrite Hd' in Hbelow.
          change (2 ^ (53 - 1)) with (2 ^ 51 * 2) in Hbelow. nia. }
      pose proof (Zdigits2_eq (N / D) (51 + k) ltac:(lia) Hm) as Hdig.
      assert (Hf : fexp prec emax (Zdigits2 (N / D) + e) = ex - 1).
      { rewrite fexp_eq, Hdig. unfold k. lia. }
      rewrite fexp_eq in Hpre. rewrite fexp_eq in Hf. rewrite Hf in Hpre.
      assert (Hk1 : 1 <= k) by (unfold k; lia).
      unfold binary_round_aux.
      rewrite shr_fexp_rec by (try assumption; rewrite fexp_eq, Hf; lia).
      rewrite fexp_eq, Hf.
      replace (ex - 1 - e) with (k - 1) by (unfold k; lia).
      set (D1 := D * 2 ^ (k - 1)).
      assert (HD1 : 0 < D1).
      { unfold D1. assert (0 < 2 ^ (k - 1)) by (apply Z.pow_pos_nonneg; lia). nia. }
      assert (ED : D2 = 2 * D1).
      { unfold D2, D1. replace k with (k - 1 + 1) at 1 by lia.
        rewrite Z.pow_add_r by lia. change (2 ^ 1) with 2. ring. }
      rewrite rec_of_m, rec_of_loc.
      rewrite (rne_near N D1 (2 ^ 53)).
      2:{ assumption. }
      2:{ rewrite ED, Hmx' in Hlo2. change (2 ^ 53) with (2 * 2 ^ 52). lia. }
      2:{ rewrite ED, Hd' in Hbelow. change (2 ^ (53 - 1)) with (2 ^ 52) in Hbelow.
          change (2 ^ 53) with (2 * 2 ^ 52). lia. }
      unfold shr_fexp. rewrite fexp_eq. change (Zdigits2 (2 ^ 53)) with 54.
      replace (Z.max (54 + (ex - 1) - 53) (-1074) - (ex - 1)) with 1 by lia.
      cbn [shr shr_record_of_loc iter_pos]. 
      change (shr_1 {| shr_m := 2 ^ 53; shr_r := false; shr_s := false |})
        with {| shr_m := 2 ^ 52; shr_r := false; shr_s := false |}.
      cbn [shr_m]. change (emax - prec) with 971.
      replace (ex - 1 + 1) with ex by lia.
      assert (Emx : mx = 4503599627370496%positive) by (apply Pos2Z.inj; exact Hmx').
      rewrite Emx. change (2 ^ 52) with (Zpos 4503599627370496).
      cbv beta iota.
      destruct (Z.leb_spec ex 971); [reflexivity | lia].
  - (* in the binade of the target *)
    assert (Hm : 2 ^ (d - 1 + k) <= N / D < 2 ^ (d - 1 + k + 1)).
    { rewrite !Z.pow_add_r by lia. change (2 ^ 1) with 2.
      apply div_bounds; [lia | unfold D2 in Habove; lia | ].
      unfold D2 in Hup. nia. }
    pose proof (Zdigits2_eq (N / D) (d - 1 + k) ltac:(lia) Hm) as Hdig.
    assert (Hf : fexp prec emax (Zdigits2 (N / D) + e) = ex).
    { rewrite fexp_eq, Hdig. unfold k. 
      replace (d - 1 + (ex - e) + 1 + e - 53) with (d + ex - 53) by lia. exact Hcan. }
    unfold binary_round_aux.
    rewrite shr_fexp_rec by (try assumption; rewrite Hf; lia).
    rewrite Hf. fold k. fold D2. rewrite rec_of_m, rec_of_loc.
    rewrite (rne_near N D2 (Zpos mx)) by assumption.
    exact Hfin.
Qed.


(** ** The Number value of a decimal *)

Lemma fexp_mono (a b : Z) : a <= b -> fexp prec emax a <= fexp prec emax b.
Proof. rewrite !fexp_eq. lia. Qed.

Lemma Zdigits2_ge (m j : Z) : 0 <= j -> 2 ^ j <= m -> j + 1 <= Zdigits2 m.
Proof.
  intros Hj H. assert (0 < m) by (pose proof (Z.pow_pos_nonneg 2 j); lia).
  rewrite Zdigits2_log2 by assumption.
  assert (j <= Z.log2 m) by (apply Z.log2_le_pow2; lia). lia.
Qed.

Lemma Zdigits2_shift (m j : Z) :
  0 < m -> 0 <= j -> Zdigits2 (m * 2 ^ j) = Zdigits2 m + j.
Proof.
  intros Hm Hj. pose proof (Zdigits2_bounds m Hm) as B.
  pose proof (Zdigits2_nonneg m) as B0.
  assert (1 <= Zdigits2 m).
  { destruct m; try lia. simpl. lia. }
  assert (0 < 2 ^ j) by (apply Z.pow_pos_nonneg; lia).
  replace (Zdigits2 m + j) with (Zdigits2 m - 1 + j + 1) by lia.
  apply Zdigits2_eq; [lia|].
  replace (Zdigits2 m - 1 + j + 1) with (Zdigits2 m + j) by lia.
  rewrite !Z.pow_add_r by lia. nia.
Qed.

(** [2^max(ex,0) / 2^max(-ex,0)] is [2^ex]. *)
Lemma pow_split (b ex off : Z) :
  0 < b -> 0 <= ex + off -> 0 <= off ->
  b ^ Z.max ex 0 * b ^ off = b ^ Z.max (- ex) 0 * b ^ (ex + off).
Proof.
  intros Hb H1 H2. rewrite <- !Z.pow_add_r by lia. f_equal. lia.
Qed.

(** The rounding of the value [Pq / Q * 2^ex], given as [N / D * 2^e]. *)
Lemma round_aux_value (s : bool) (N D e : Z) (mx : positive) (ex Pq Q : Z) :
  0 <= N -> 0 < D -> 0 < Q -> bounded prec emax mx ex = true ->
  -1074 <= e ->
  e <= fexp prec emax (Zdigits2 (N / D) + e) ->
  N * Q * 2 ^ (e + 1074) = Pq * D * 2 ^ (ex + 1074) ->
  (2 * Zpos mx - 1) * Q < 2 * Pq ->
  2 * Pq < (2 * Zpos mx + 1) * Q ->
  (Zpos mx = 2 ^ 52 -> (4 * Zpos mx - 1) * Q < 4 * Pq) ->
  binary_round_aux prec emax s (N / D) e (loc N D) = S754_finite s mx ex.
Proof.
  intros HN HD HQ Hb He Hpre Hval Hlo Hup Hlo2.
  destruct (bounded_spec mx ex Hb) as [Hcan Hemax].
  set (d := Zdigits2 (Zpos mx)) in *.
  pose proof (Zdigits2_bounds (Zpos mx) ltac:(lia)) as Hd. fold d in Hd.
  assert (Hd1 : 1 <= d) by (unfold d; simpl; lia).
  assert (Hex : -1074 <= ex) by lia.
  assert (Hle : e <= ex).
  { destruct (Z.le_gt_cases e ex) as [?|Hgt]; [assumption|exfalso].
    set (j := e - ex) in *.
    assert (Hj : 0 < j) by (unfold j; lia).
    assert (E1 : 2 ^ (e + 1074) = 2 ^ (ex + 1074) * 2 ^ j).
    { rewrite <- Z.pow_add_r by lia. f_equal. unfold j. lia. }
    assert (H2 : 0 < 2 ^ (ex + 1074)) by (apply Z.pow_pos_nonneg; lia).
    assert (H2j : 0 < 2 ^ j) by (apply Z.pow_pos_nonneg; lia).
    assert (E2 : N * Q * 2 ^ j = Pq * D).
    { rewrite E1 in Hval. 
      apply (Z.mul_reg_r _ _ (2 ^ (ex + 1074))); [lia|]. 
      rewrite <- Hval. ring. }
    assert (HPq : 2 * Pq < 2 * 2 ^ d * Q) by nia.
    assert (HNj : N * 2 ^ j < 2 ^ d * D).
    { apply (Z.mul_lt_mono_pos_r Q); [assumption|].
      replace (N * 2 ^ j * Q) with (Pq * D) by (rewrite <- E2; ring). nia. }
    assert (Hdig : Zdigits2 (N / D) <= Z.max 0 (d - j)).
    { destruct (Z.le_gt_cases d j) as [Hdj|Hdj].
      - assert (N / D = 0).
        { apply Z.div_small. split; [assumption|].
          assert (2 ^ d <= 2 ^ j) by (apply Z.pow_le_mono_r; lia). nia. }
        rewrite H. simpl. lia.
      - rewrite Z.max_r by lia. apply Zdigits2_le; [lia|].
        split; [apply Z.div_pos; lia|].
        apply Z.div_lt_upper_bound; [assumption|].
        assert (2 ^ d = 2 ^ (d - j) * 2 ^ j).
        { rewrite <- Z.pow_add_r by lia. f_equal. lia. }
        assert (0 < 2 ^ (d - j)) by (apply Z.pow_pos_nonneg; lia).
        nia. }
    rewrite fexp_eq in Hpre. unfold j in Hdig. lia. }
  set (k := ex - e).
  assert (Hk : 0 <= k) by (unfold k; lia).
  assert (E1 : 2 ^ (ex + 1074) = 2 ^ (e + 1074) * 2 ^ k).
  { rewrite <- Z.pow_add_r by lia. f_equal. unfold k. lia. }
  assert (H2 : 0 < 2 ^ (e + 1074)) by (apply Z.pow_pos_nonneg; lia).
  assert (H2k : 0 < 2 ^ k) by (apply Z.pow_pos_nonneg; lia).
  assert (E2 : N * Q = Pq * (D * 2 ^ k)).
  { rewrite E1 in Hval.
    apply (Z.mul_reg_r _ _ (2 ^ (e + 1074))); [lia|].
    rewrite Hval. ring. }
  assert (HD2 : 0 < D * 2 ^ k) by nia.
  fold k in E2. 
  apply round_aux_near; try assumption; fold k.
  - apply (Z.mul_lt_mono_pos_r Q); [assumption|].
    replace (2 * N * Q) with (2 * Pq * (D * 2 ^ k))
      by (transitivity (2 * (N * Q)); [rewrite E2|]; ring).
    replace ((2 * Z.pos mx - 1) * (D * 2 ^ k) * Q)
      with ((2 * Z.pos mx - 1) * Q * (D * 2 ^ k)) by ring.
    apply Z.mul_lt_mono_pos_r; assumption.
  - apply (Z.mul_lt_mono_pos_r Q); [assumption|].
    replace (2 * N * Q) with (2 * Pq * (D * 2 ^ k))
      by (transitivity (2 * (N * Q)); [rewrite E2|]; ring).
    replace ((2 * Z.pos mx + 1) * (D * 2 ^ k) * Q)
      with ((2 * Z.pos mx + 1) * Q * (D * 2 ^ k)) by ring.
    apply Z.mul_lt_mono_pos_r; assumption.
  - intros Hm. specialize (Hlo2 Hm).
    apply (Z.mul_lt_mono_pos_r Q); [assumption|].
    replace (4 * N * Q) with (4 * Pq * (D * 2 ^ k))
      by (transitivity (4 * (N * Q)); [rewrite E2|]; ring).
    replace ((4 * Z.pos mx - 1) * (D * 2 ^ k) * Q)
      with ((4 * Z.pos mx - 1) * Q * (D * 2 ^ k)) by ring.
    apply Z.mul_lt_mono_pos_r; assumption.
Qed.

Lemma iter_xO (d : positive) (m : positive) :
  Zpos (Pos.iter xO m d) = Zpos m * 2 ^ Zpos d.
Proof.
  revert m. induction d as [|d IH] using Pos.peano_ind; intros m.
  - simpl. lia.
  - rewrite Pos.iter_succ. rewrite Pos2Z.inj_xO, IH, Pos2Z.inj_succ.
    rewrite Z.pow_succ_r by lia. ring.
Qed.

Lemma loc_one (N : Z) : loc N 1 = loc_Exact.
Proof. unfold loc. rewrite Z.mod_1_r. reflexivity. Qed.

(** [binary_round] on the integer [P], whose value is [Pq / Q * 2^ex]. *)
Lemma binary_round_near (neg : bool) (P : positive) (mx : positive)
    (ex Pq Q : Z) :
  0 < Q -> bounded prec emax mx ex = true ->
  Zpos P * Q * 2 ^ 1074 = Pq * 2 ^ (ex + 1074) ->
  (2 * Zpos mx - 1) * Q < 2 * Pq ->
  2 * Pq < (2 * Zpos mx + 1) * Q ->
  (Zpos mx = 2 ^ 52 -> (4 * Zpos mx - 1) * Q < 4 * Pq) ->
  binary_round prec emax neg P 0 = S754_finite neg mx ex.
Proof.
  intros HQ Hb Hval Hlo Hup Hlo2. unfold binary_round, shl_align.
  change (Zpos (digits2_pos P)) with (Zdigits2 (Zpos P)).
  rewrite Z.add_0_r, Z.sub_0_r.
  set (f := fexp prec emax (Zdigits2 (Zpos P))).
  assert (Hf : -1074 <= f) by (unfold f; rewrite fexp_eq; lia).
  destruct f as [|q|q] eqn:Ef.
  - rewrite <- (Z.div_1_r (Zpos P)), <- (loc_one (Zpos P)).
    apply (round_aux_value neg (Zpos P) 1 0 mx ex Pq Q); try assumption; try lia.
    rewrite Z.div_1_r, Z.add_0_r. fold f in Ef. unfold f in Ef. rewrite Ef. lia.
  - rewrite <- (Z.div_1_r (Zpos P)), <- (loc_one (Zpos P)).
    apply (round_aux_value neg (Zpos P) 1 0 mx ex Pq Q); try assumption; try lia.
    rewrite Z.div_1_r, Z.add_0_r. fold f in Ef. unfold f in Ef. rewrite Ef. lia.
  - rewrite iter_xO.
    rewrite <- (Z.div_1_r (Zpos P * 2 ^ Zpos q)), <- (loc_one (Zpos P * 2 ^ Zpos q)).
    assert (H2q : 0 < 2 ^ Zpos q) by (apply Z.pow_pos_nonneg; lia).
    apply (round_aux_value neg (Zpos P * 2 ^ Zpos q) 1 (Zneg q) mx ex Pq Q);
      try assumption; try lia.
    + rewrite Z.div_1_r, Zdigits2_shift by lia.
      replace (Zdigits2 (Zpos P) + Zpos q + Zneg q) with (Zdigits2 (Zpos P)) by lia.
      fold f in Ef. unfold f in Ef. rewrite Ef. lia.
    + replace (Zpos P * 2 ^ Zpos q * Q * 2 ^ (Zneg q + 1074))
        with (Zpos P * Q * (2 ^ Zpos q * 2 ^ (Zneg q + 1074))) by ring.
      rewrite <- Z.pow_add_r by lia.
      replace (Zpos q + (Zneg q + 1074)) with 1074 by lia.
      rewrite Hval. ring.
Qed.

Lemma new_location_loc (N D : Z) :
  0 < D -> new_location D (N mod D) = loc N D.
Proof.
  intros HD. pose proof (Z.mod_pos_bound N D HD) as B.
  unfold new_location, new_location_even, new_location_odd, loc.
  destruct (Z.even D) eqn:Ev; [reflexivity|].
  destruct (Z.eqb_spec (N mod D) 0); [reflexivity|]. f_equal.
  assert (Hodd : Z.odd D = true) by (rewrite <- Z.negb_even, Ev; reflexivity).
  apply Z.odd_spec in Hodd. destruct Hodd as [h Hh].
  destruct (Z.compare_spec (2 * (N mod D) + 1) D);
    destruct (Z.compare_spec (2 * (N mod D)) D); try reflexivity; lia.
Qed.

(** The quotient of two integers, whose value is [Pq / Q * 2^ex]. *)
Lemma div_near (neg : bool) (p T : positive) (mx : positive) (ex Pq Q : Z) :
  0 < Q -> bounded prec emax mx ex = true ->
  Zpos p * Q * 2 ^ 1074 = Pq * Zpos T * 2 ^ (ex + 1074) ->
  (2 * Zpos mx - 1) * Q < 2 * Pq ->
  2 * Pq < (2 * Zpos mx + 1) * Q ->
  (Zpos mx = 2 ^ 52 -> (4 * Zpos mx - 1) * Q < 4 * Pq) ->
  div (S754_finite neg p 0) (S754_finite false T 0) = S754_finite neg mx ex.
Proof.
  intros HQ Hb Hval Hlo Hup Hlo2.
  unfold div, SFdiv, SFdiv_core_binary.
  rewrite !Z.add_0_r, Bool.xorb_false_r. change (0 - 0) with 0.
  set (d1 := Zdigits2 (Zpos p)). set (d2 := Zdigits2 (Zpos T)).
  set (e' := Z.min (fexp prec emax (d1 - d2)) 0).
  assert (He' : -1074 <= e' <= 0) by (unfold e'; rewrite fexp_eq; lia).
  set (N := Zpos p * 2 ^ (- e')).
  assert (H2 : 0 < 2 ^ (- e')) by (apply Z.pow_pos_nonneg; lia).
  assert (EN : match 0 - e' with
               | 0 => Zpos p
               | Zpos _ => Z.shiftl (Zpos p) (0 - e')
               | Zneg _ => 0
               end = N).
  { unfold N. rewrite Z.sub_0_l. destruct (- e') as [|q|q] eqn:E.
    - simpl. lia.
    - rewrite Z.shiftl_mul_pow2 by lia. reflexivity.
    - lia. }
  rewrite EN.
  assert (Ediv : Z.div_eucl N (Zpos T) = (N / Zpos T, N mod Zpos T)).
  { unfold Z.div, Z.modulo. destruct (Z.div_eucl N (Zpos T)); reflexivity. }
  rewrite Ediv, new_location_loc by lia.
  assert (HN : 0 < N) by (unfold N; nia).
  pose proof (Zdigits2_bounds (Zpos p) ltac:(lia)) as B1. fold d1 in B1.
  pose proof (Zdigits2_bounds (Zpos T) ltac:(lia)) as B2. fold d2 in B2.
  assert (Hd1 : 1 <= d1) by (unfold d1; simpl; lia).
  assert (Hd2 : 1 <= d2) by (unfold d2; simpl; lia).
  apply (round_aux_value neg N (Zpos T) e' mx ex Pq Q); try assumption; try lia.
  - (* the quotient has digits enough *)
    assert (Hdig : d1 - d2 - e' <= Zdigits2 (N / Zpos T)).
    { destruct (Z.le_gt_cases 0 (d1 - 1 - e' - d2)) as [Hj|Hj].
      - replace (d1 - d2 - e') with (d1 - 1 - e' - d2 + 1) by lia.
        apply Zdigits2_ge; [assumption|].
        apply Z.div_le_lower_bound; [lia|].
        assert (E : 2 ^ (d1 - 1) * 2 ^ (- e')
                    = 2 ^ (d1 - 1 - e' - d2) * 2 ^ d2).
        { rewrite <- !Z.pow_add_r by lia. f_equal. lia. }
        assert (0 < 2 ^ (d1 - 1 - e' - d2)) by (apply Z.pow_pos_nonneg; lia).
        unfold N. nia.
      - pose proof (Zdigits2_nonneg (N / Zpos T)). lia. }
    apply Z.le_trans with (fexp prec emax (d1 - d2)); [unfold e'; lia|].
    apply fexp_mono. lia.
  - unfold N.
    replace (Zpos p * 2 ^ (- e') * Q * 2 ^ (e' + 1074))
      with (Zpos p * Q * (2 ^ (- e') * 2 ^ (e' + 1074))) by ring.
    rewrite <- Z.pow_add_r by lia.
    replace (- e' + (e' + 1074)) with 1074 by lia. exact Hval.
Qed.

(** The Number value of a decimal close enough to a double is that
    double. *)
Lemma of_decimal_near (neg : bool) (d t : Z) (mx : positive) (ex : Z) :
  0 < d -> bounded prec emax mx ex = true ->
  -400 <= (Z.log2 d * 30103) / 100000 + 1 + t <= 400 ->
  let Pq := d * 2 ^ Z.max (- ex) 0 * 10 ^ Z.max t 0 in
  let Q := 2 ^ Z.max ex 0 * 10 ^ Z.max (- t) 0 in
  (2 * Zpos mx - 1) * Q < 2 * Pq ->
  2 * Pq < (2 * Zpos mx + 1) * Q ->
  (Zpos mx = 2 ^ 52 -> (4 * Zpos mx - 1) * Q < 4 * Pq) ->
  of_decimal neg (Z.to_N d) t = S754_finite neg mx ex.
Proof.
  intros Hd Hb Hg Pq Q Hlo Hup Hlo2.
  destruct (bounded_spec mx ex Hb) as [Hcan Hemax].
  assert (Hex : -1074 <= ex) by lia.
  destruct d as [|p|p]; try lia. cbn [Z.to_N of_decimal].
  destruct (Z.ltb_spec 400 (Z.log2 (Zpos p) * 30103 / 100000 + 1 + t)); [lia|].
  destruct (Z.ltb_spec (Z.log2 (Zpos p) * 30103 / 100000 + 1 + t) (-400)); [lia|].
  assert (Hu : 0 < 2 ^ Z.max ex 0) by (apply Z.pow_pos_nonneg; lia).
  assert (Hw : 0 < 2 ^ Z.max (- ex) 0) by (apply Z.pow_pos_nonneg; lia).
  assert (Htp : 0 < 10 ^ Z.max t 0) by (apply Z.pow_pos_nonneg; lia).
  assert (Htn : 0 < 10 ^ Z.max (- t) 0) by (apply Z.pow_pos_nonneg; lia).
  assert (HQ : 0 < Q) by (unfold Q; nia).
  pose proof (pow_split 2 ex 1074 ltac:(lia) ltac:(lia) ltac:(lia)) as Hs.
  destruct (Z.leb_spec 0 t) as [Ht|Ht].
  - apply (binary_round_near neg _ mx ex Pq Q); try assumption.
    rewrite Pos2Z.inj_mul, Z2Pos.id by (apply Z.pow_pos_nonneg; lia).
    unfold Pq, Q. rewrite (Z.max_l t 0), (Z.max_r (- t) 0) by lia.
    change (10 ^ 0) with 1.
    replace (Zpos p * 10 ^ t * (2 ^ Z.max ex 0 * 1) * 2 ^ 1074)
      with (Zpos p * 10 ^ t * (2 ^ Z.max ex 0 * 2 ^ 1074)) by ring.
    rewrite Hs. ring.
  - apply (div_near neg _ _ mx ex Pq Q); try assumption.
    rewrite Z2Pos.id by (apply Z.pow_pos_nonneg; lia).
    unfold Pq, Q. rewrite (Z.max_r t 0), (Z.max_l (- t) 0) by lia.
    change (10 ^ 0) with 1.
    replace (Zpos p * (2 ^ Z.max ex 0 * 10 ^ (- t)) * 2 ^ 1074)
      with (Zpos p * 10 ^ (- t) * (2 ^ Z.max ex 0 * 2 ^ 1074)) by ring.
    rewrite Hs. ring.
Qed.

Lemma binary_round_aux_sign (neg : bool) (m e : Z) (l : location) :
  binary_round_aux prec emax neg m e l
  = with_sign neg (binary_round_aux prec emax false m e l).
Proof.
  unfold binary_round_aux.
  destruct (shr_fexp prec emax m e l) as [r1 e1].
  destruct (shr_fexp prec emax _ e1 loc_Exact) as [r2 e2].
  destruct (shr_m r2); try reflexivity.
  destruct (e2 <=? emax - prec); reflexivity.
Qed.

Lemma of_decimal_sign (neg : bool) (d : N) (t : Z) :
  of_decimal neg d t = with_sign neg (of_decimal false d t).
Proof.
  unfold of_decimal. destruct d as [|p]; [reflexivity|]. cbv zeta.
  destruct (400 <? _); [reflexivity|].
  destruct (_ <? -400); [reflexivity|].
  destruct (0 <=? t).
  - unfold binary_round. destruct (shl_align _ _ _) as [mz ez].
    apply binary_round_aux_sign.
  - unfold div, SFdiv.
    destruct (SFdiv_core_binary _ _ _ _ _ _) as [[mz ez] lz].
    rewrite Bool.xorb_false_r. apply binary_round_aux_sign.
Qed.


(** ** The results of the operations are doubles *)

Lemma bounded_intro (m : positive) (e : Z) :
  Z.max (Zdigits2 (Zpos m) + e - 53) (-1074) = e -> e <= 971 ->
  bounded prec emax m e = true.
Proof.
  intros H1 H2. unfold bounded, canonical_mantissa.
  apply Bool.andb_true_iff. split.
  - apply Z.eqb_eq. rewrite fexp_eq. exact H1.
  - apply Z.leb_le. exact H2.
Qed.

(** Whatever is rounded, from a mantissa with digits enough, the result
    is a double. *)
Lemma round_aux_valid (s : bool) (N D e : Z) :
  0 <= N -> 0 < D ->
  e <= fexp prec emax (Zdigits2 (N / D) + e) ->
  valid (binary_round_aux prec emax s (N / D) e (loc N D)) = true.
Proof.
  intros HN HD Hpre. unfold binary_round_aux.
  rewrite shr_fexp_rec by (try assumption; lia).
  set (d := Zdigits2 (N / D)) in *.
  set (e1 := fexp prec emax (d + e)) in *.
  set (n := e1 - e) in *.
  assert (Hn : 0 <= n) by (unfold n; lia).
  assert (He1 : -1074 <= e1) by (unfold e1; rewrite fexp_eq; lia).
  assert (H2n : 0 < 2 ^ n) by (apply Z.pow_pos_nonneg; lia).
  set (D1 := D * 2 ^ n) in *.
  assert (HD1 : 0 < D1) by (unfold D1; nia).
  rewrite rec_of_m, rec_of_loc.
  set (m1 := N / D1).
  (* after the first shift *)
  assert (Hd0 : 0 <= d) by apply Zdigits2_nonneg.
  assert (Hm : N < 2 ^ d * D).
  { destruct (Z.eq_dec (N / D) 0) as [E0|E0].
    - unfold d. rewrite E0. change (2 ^ Zdigits2 0) with 1.
      pose proof (Z.div_mod N D ltac:(lia)) as E.
      pose proof (Z.mod_pos_bound N D HD) as B. rewrite E0 in E. lia.
    - assert (0 < N / D).
      { pose proof (Z.div_pos N D HN HD). lia. }
      pose proof (Zdigits2_bounds (N / D) H) as B. fold d in B.
      pose proof (Z.div_mod N D ltac:(lia)) as E.
      pose proof (Z.mod_pos_bound N D HD) as B'. nia. }
  assert (Hm1 : 0 <= m1 < 2 ^ 53).
  { unfold m1. split; [apply Z.div_pos; lia|].
    apply Z.div_lt_upper_bound; [assumption|].
    unfold D1. 
    assert (Hdn : d <= 53 + n) by (unfold n, e1; rewrite fexp_eq; lia).
    assert (2 ^ d <= 2 ^ (53 + n)) by (apply Z.pow_le_mono_r; lia).
    rewrite Z.pow_add_r in H by lia. nia. }
  assert (Hnorm : e1 = -1074 \/ 2 ^ 52 <= m1).
  { destruct (Z.eq_dec e1 (-1074)) as [?|Hne]; [left; assumption | right].
    assert (Hnd : n = d - 53) by (unfold n, e1 in *; rewrite fexp_eq in *; lia).
    assert (Hd : 1 <= d) by lia.
    assert (0 < N / D).
    { destruct (Z.eq_dec (N / D) 0) as [E0|E0].
      - unfold d in Hd. rewrite E0 in Hd. simpl in Hd. lia.
      - pose proof (Z.div_pos N D HN HD). lia. }
    pose proof (Zdigits2_bounds (N / D) H) as B. fold d in B.
    unfold m1. apply Z.div_le_lower_bound; [assumption|].
    unfold D1.
    assert (E : 2 ^ (d - 1) = 2 ^ 52 * 2 ^ n).
    { rewrite <- Z.pow_add_r by lia. f_equal. lia. }
    pose proof (Z.div_mod N D ltac:(lia)) as E'.
    pose proof (Z.mod_pos_bound N D HD) as B'. nia. }
  (* after the rounding *)
  set (m2 := round_nearest_even m1 (loc N D1)).
  assert (Hm2 : 0 <= m2 <= 2 ^ 53 /\ (e1 = -1074 \/ 2 ^ 52 <= m2)).
  { assert (m2 = m1 \/ m2 = m1 + 1).
    { unfold m2, round_nearest_even. destruct (loc N D1) as [|[]]; auto.
      destruct (Z.even m1); auto. }
    lia. }
  clearbody m2. destruct Hm2 as [Hm2 Hn2].
  unfold shr_fexp.
  destruct (Z.eq_dec m2 0) as [Ez|Hnz].
  { subst m2. cbn [Zdigits2]. rewrite fexp_eq.
    destruct (Z.max (0 + e1 - 53) (-1074) - e1) as [|p|p] eqn:En; try lia;
      reflexivity. }
  destruct (Z.eq_dec m2 (2 ^ 53)) as [Ep|Hnp].
  { subst m2. change (Zdigits2 (2 ^ 53)) with 54. rewrite fexp_eq.
    replace (Z.max (54 + e1 - 53) (-1074) - e1) with 1 by lia.
    cbn [shr shr_record_of_loc iter_pos].
    change (shr_1 {| shr_m := 2 ^ 53; shr_r := false; shr_s := false |})
      with {| shr_m := 2 ^ 52; shr_r := false; shr_s := false |}.
    cbn [shr_m]. change (2 ^ 52) with (Zpos 4503599627370496). cbv beta iota.
    change (emax - prec) with 971.
    destruct (Z.leb_spec (e1 + 1) 971); [|reflexivity].
    apply bounded_intro; [|assumption].
    change (Zdigits2 (Zpos 4503599627370496)) with 53. lia. }
  assert (Hpos : 0 < m2) by lia.
  pose proof (Zdigits2_bounds m2 Hpos) as B2.
  assert (Hd2 : 1 <= Zdigits2 m2 <= 53).
  { split; [destruct m2; simpl; lia|].
    destruct (Z.le_gt_cases (Zdigits2 m2) 53) as [?|Hgt]; [assumption|exfalso].
    assert (2 ^ 53 <= 2 ^ (Zdigits2 m2 - 1)) by (apply Z.pow_le_mono_r; lia). lia. }
  assert (Hcan : Z.max (Zdigits2 m2 + e1 - 53) (-1074) = e1).
  { destruct Hn2 as [Hsub|Hbig]; [lia|].
    assert (53 <= Zdigits2 m2).
    { destruct (Z.le_gt_cases 53 (Zdigits2 m2)) as [?|Hlt]; [assumption|exfalso].
      assert (2 ^ Zdigits2 m2 <= 2 ^ 52) by (apply Z.pow_le_mono_r; lia). lia. }
    lia. }
  rewrite fexp_eq, Hcan, Z.sub_diag. cbn [shr shr_record_of_loc shr_m].
  destruct m2 as [|p|p]; try lia.
  change (emax - prec) with 971.
  destruct (Z.leb_spec e1 971); [|reflexivity].
  apply bounded_intro; assumption.
Qed.

Lemma binary_round_valid (neg : bool) (P : positive) (ex : Z) :
  valid (binary_round prec emax neg P ex) = true.
Proof.
  unfold binary_round, shl_align.
  change (Zpos (digits2_pos P)) with (Zdigits2 (Zpos P)).
  set (f := fexp prec emax (Zdigits2 (Zpos P) + ex)).
  destruct (f - ex) as [|q|q] eqn:Ef.
  - rewrite <- (Z.div_1_r (Zpos P)), <- (loc_one (Zpos P)).
    apply round_aux_valid; try lia. rewrite Z.div_1_r. fold f. lia.
  - rewrite <- (Z.div_1_r (Zpos P)), <- (loc_one (Zpos P)).
    apply round_aux_valid; try lia. rewrite Z.div_1_r. fold f. lia.
  - rewrite iter_xO.
    rewrite <- (Z.div_1_r (Zpos P * 2 ^ Zpos q)), <- (loc_one (Zpos P * 2 ^ Zpos q)).
    assert (H2q : 0 < 2 ^ Zpos q) by (apply Z.pow_pos_nonneg; lia).
    apply round_aux_valid; try lia.
    rewrite Z.div_1_r, Zdigits2_shift by lia.
    replace (Zdigits2 (Zpos P) + Zpos q + f) with (Zdigits2 (Zpos P) + ex) by lia.
    fold f. lia.
Qed.

Lemma of_Z_valid (z : Z) : valid (of_Z z) = true.
Proof.
  unfold of_Z, binary_normalize. destruct z; [reflexivity| |];
    apply binary_round_valid.
Qed.

Lemma mul_valid (x y : number) :
  valid x = true -> valid y = true -> valid (mul x y) = true.
Proof.
  intros Hx Hy.
  destruct x as [sx|sx| |sx mx ex], y as [sy|sy| |sy my ey]; try reflexivity.
  unfold mul, SFmul.
  destruct (bounded_spec mx ex Hx) as [Cx _].
  destruct (bounded_spec my ey Hy) as [Cy _].
  pose proof (Zdigits2_bounds (Zpos mx) ltac:(lia)) as Bx.
  pose proof (Zdigits2_bounds (Zpos my) ltac:(lia)) as By.
  set (dx := Zdigits2 (Zpos mx)) in *. set (dy := Zdigits2 (Zpos my)) in *.
  assert (Hdx : 1 <= dx) by (unfold dx; simpl; lia).
  assert (Hdy : 1 <= dy) by (unfold dy; simpl; lia).
  rewrite <- (Z.div_1_r (Zpos (mx * my))), <- (loc_one (Zpos (mx * my))).
  apply round_aux_valid; try lia.
  rewrite Z.div_1_r.
  assert (Hd : dx + dy - 1 <= Zdigits2 (Zpos (mx * my))).
  { replace (dx + dy - 1) with (dx - 1 + (dy - 1) + 1) by lia.
    apply Zdigits2_ge; [lia|].
    rewrite Z.pow_add_r, Pos2Z.inj_mul by lia.
    assert (0 < 2 ^ (dx - 1)) by (apply Z.pow_pos_nonneg; lia).
    assert (0 < 2 ^ (dy - 1)) by (apply Z.pow_pos_nonneg; lia). nia. }
  apply Z.le_trans with (fexp prec emax (dx + dy - 1 + (ex + ey))).
  - rewrite fexp_eq. lia.
  - apply fexp_mono. lia.
Qed.

Lemma div_valid (x y : number) : valid (div x y) = true.
Proof.
  destruct x as [sx|sx| |sx mx ex], y as [sy|sy| |sy my ey]; try reflexivity.
  unfold div, SFdiv, SFdiv_core_binary.
  set (d1 := Zdigits2 (Zpos mx)). set (d2 := Zdigits2 (Zpos my)).
  set (e' := Z.min (fexp prec emax (d1 + ex - (d2 + ey))) (ex - ey)).
  set (sh := ex - ey - e').
  assert (Hsh : 0 <= sh) by (unfold sh, e'; lia).
  set (N := Zpos mx * 2 ^ sh).
  assert (H2 : 0 < 2 ^ sh) by (apply Z.pow_pos_nonneg; lia).
  assert (EN : match sh with
               | 0 => Zpos mx
               | Zpos _ => Z.shiftl (Zpos mx) sh
               | Zneg _ => 0
               end = N).
  { unfold N. destruct sh as [|q|q] eqn:E.
    - simpl. lia.
    - rewrite Z.shiftl_mul_pow2 by lia. reflexivity.
    - lia. }
  rewrite EN.
  assert (Ediv : Z.div_eucl N (Zpos my) = (N / Zpos my, N mod Zpos my)).
  { unfold Z.div, Z.modulo. destruct (Z.div_eucl N (Zpos my)); reflexivity. }
  rewrite Ediv, new_location_loc by lia.
  assert (HN : 0 < N) by (unfold N; nia).
  pose proof (Zdigits2_bounds (Zpos mx) ltac:(lia)) as B1. fold d1 in B1.
  pose proof (Zdigits2_bounds (Zpos my) ltac:(lia)) as B2. fold d2 in B2.
  assert (Hd1 : 1 <= d1) by (unfold d1; simpl; lia).
  assert (Hd2 : 1 <= d2) by (unfold d2; simpl; lia).
  apply round_aux_valid; try lia.
  assert (Hdig : d1 + sh - d2 <= Zdigits2 (N / Zpos my)).
  { destruct (Z.le_gt_cases 0 (d1 - 1 + sh - d2)) as [Hj|Hj].
    - replace (d1 + sh - d2) with (d1 - 1 + sh - d2 + 1) by lia.
      apply Zdigits2_ge; [assumption|].
      apply Z.div_le_lower_bound; [lia|].
      assert (E : 2 ^ (d1 - 1) * 2 ^ sh = 2 ^ (d1 - 1 + sh - d2) * 2 ^ d2).
      { rewrite <- !Z.pow_add_r by lia. f_equal. lia. }
      assert (0 < 2 ^ (d1 - 1 + sh - d2)) by (apply Z.pow_pos_nonneg; lia).
      unfold N. nia.
    - pose proof (Zdigits2_nonneg (N / Zpos my)). lia. }
  apply Z.le_trans with (fexp prec emax (d1 + ex - (d2 + ey))); [unfold e'; lia|].
  apply fexp_mono. unfold sh in Hdig. lia.
Qed.

Lemma of_decimal_valid (neg : bool) (d : N) (t : Z) :
  valid (of_decimal neg d t) = true.
Proof.
  unfold of_decimal. destruct d as [|p]; [reflexivity|]. cbv zeta.
  destruct (400 <? _); [reflexivity|].
  destruct (_ <? -400); [reflexivity|].
  destruct (0 <=? t); [apply binary_round_valid | apply div_valid].
Qed.


(** ** The decimal exponent of a double *)

Lemma scaled_eq (m : positive) (e t : Z) :
  scaled m e t = (snum m e t, sden m e t).
Proof. reflexivity. Qed.

Lemma snum_pos (m : positive) (e t : Z) : 0 < snum m e t.
Proof.
  unfold snum, scaled. cbn [fst].
  assert (0 < 2 ^ Z.max e 0) by (apply Z.pow_pos_nonneg; lia).
  assert (0 < 10 ^ Z.max (- t) 0) by (apply Z.pow_pos_nonneg; lia).
  nia.
Qed.

Lemma sden_pos (m : positive) (e t : Z) : 0 < sden m e t.
Proof.
  unfold sden, scaled. cbn [snd].
  assert (0 < 2 ^ Z.max (- e) 0) by (apply Z.pow_pos_nonneg; lia).
  assert (0 < 10 ^ Z.max t 0) by (apply Z.pow_pos_nonneg; lia).
  nia.
Qed.

(** [m * 2^e / 10^t] is [10^j] times [m * 2^e / 10^(t+j)]. *)
Lemma scaled_shift (m : positive) (e t j : Z) :
  0 <= j ->
  snum m e t * sden m e (t + j) = 10 ^ j * snum m e (t + j) * sden m e t.
Proof.
  intros Hj. unfold snum, sden, scaled. cbn [fst snd].
  assert (E : 10 ^ Z.max (- t) 0 * 10 ^ Z.max (t + j) 0
              = 10 ^ j * 10 ^ Z.max (- (t + j)) 0 * 10 ^ Z.max t 0).
  { rewrite <- !Z.pow_add_r by lia. f_equal. lia. }
  replace (Z.pos m * 2 ^ Z.max e 0 * 10 ^ Z.max (- t) 0 *
           (2 ^ Z.max (- e) 0 * 10 ^ Z.max (t + j) 0))
    with (Z.pos m * 2 ^ Z.max e 0 * 2 ^ Z.max (- e) 0 *
          (10 ^ Z.max (- t) 0 * 10 ^ Z.max (t + j) 0)) by ring.
  rewrite E. ring.
Qed.

Lemma below_pow10_iff (m : positive) (e n : Z) :
  below_pow10 m e n = true <-> snum m e n < sden m e n.
Proof. unfold below_pow10. rewrite scaled_eq. apply Z.ltb_lt. Qed.

Lemma below_pow10_false (m : positive) (e n : Z) :
  below_pow10 m e n = false <-> sden m e n <= snum m e n.
Proof. unfold below_pow10. rewrite scaled_eq. apply Z.ltb_ge. Qed.

(** *** The estimate of the decimal exponent *)

(** [10^3 < 2^10], so [10^a <= 2^b] when [10 a <= 3 b]. *)
Lemma pow10_le_pow2 (a b : Z) : 0 <= a -> 10 * a <= 3 * b -> 10 ^ a <= 2 ^ b.
Proof.
  intros Ha Hab. assert (Hb : 0 <= b) by lia.
  apply (Z.pow_le_mono_l_iff _ _ 3);
    [apply Z.pow_nonneg; lia | apply Z.pow_nonneg; lia | lia | ].
  rewrite <- !Z.pow_mul_r by lia.
  apply Z.le_trans with (2 ^ (10 * a)).
  - rewrite (Z.mul_comm a 3), !Z.pow_mul_r by lia.
    apply Z.pow_le_mono_l.
    split; [apply Z.pow_nonneg; lia | vm_compute; discriminate].
  - apply Z.pow_le_mono_r; lia.
Qed.

(** [2^93 < 10^28], so [2^b <= 10^a] when [28 b <= 93 a]. *)
Lemma pow2_le_pow10 (a b : Z) : 0 <= b -> 28 * b <= 93 * a -> 2 ^ b <= 10 ^ a.
Proof.
  intros Hb Hab. assert (Ha : 0 <= a) by lia.
  apply (Z.pow_le_mono_l_iff _ _ 93);
    [apply Z.pow_nonneg; lia | apply Z.pow_nonneg; lia | lia | ].
  rewrite <- !Z.pow_mul_r by lia.
  apply Z.le_trans with (10 ^ (28 * b)).
  - rewrite (Z.mul_comm b 93), !Z.pow_mul_r by lia.
    apply Z.pow_le_mono_l.
    split; [apply Z.pow_nonneg; lia | vm_compute; discriminate].
  - apply Z.pow_le_mono_r; lia.
Qed.

Lemma estimate_bounds (L : Z) :
  estimate L * 100000 <= L * 30103 < estimate L * 100000 + 100000.
Proof.
  unfold estimate.
  pose proof (Z.div_mod (L * 30103) 100000 ltac:(lia)) as E.
  pose proof (Z.mod_pos_bound (L * 30103) 100000 ltac:(lia)) as B. lia.
Qed.

(** The estimate is off by two at most, for every double. *)
Lemma estimate_ok (L : Z) :
  -1074 <= L <= 1023 -> estimate_checked L = true.
Proof.
  intros HL. pose proof (estimate_bounds L) as B.
  unfold estimate_checked, pow_leb. set (est := estimate L) in *. clearbody est.
  apply Bool.andb_true_iff. split; apply Z.leb_le.
  - destruct (Z.le_gt_cases 0 L) as [H0|H0];
      destruct (Z.le_gt_cases 0 (est - 2)) as [Ht|Ht]; try lia.
    + rewrite (Z.max_r (- L) 0), (Z.max_l L 0),
        (Z.max_l (est - 2) 0), (Z.max_r (- (est - 2)) 0) by lia.
      change (2 ^ 0) with 1. change (10 ^ 0) with 1.
      rewrite !Z.mul_1_r. apply pow10_le_pow2; lia.
    + rewrite (Z.max_r (- L) 0), (Z.max_l L 0),
        (Z.max_r (est - 2) 0), (Z.max_l (- (est - 2)) 0) by lia.
      change (2 ^ 0) with 1. change (10 ^ 0) with 1.
      assert (0 < 2 ^ L) by (apply Z.pow_pos_nonneg; lia).
      assert (0 < 10 ^ (- (est - 2))) by (apply Z.pow_pos_nonneg; lia). nia.
    + rewrite (Z.max_l (- L) 0), (Z.max_r L 0),
        (Z.max_r (est - 2) 0), (Z.max_l (- (est - 2)) 0) by lia.
      change (2 ^ 0) with 1. change (10 ^ 0) with 1.
      rewrite !Z.mul_1_l. apply pow2_le_pow10; lia.
  - destruct (Z.le_gt_cases 0 (L + 1)) as [H0|H0];
      destruct (Z.le_gt_cases 0 (est + 3)) as [Ht|Ht]; try lia.
    + rewrite (Z.max_l (L + 1) 0), (Z.max_r (- (L + 1)) 0),
        (Z.max_l (est + 3) 0), (Z.max_r (- (est + 3)) 0) by lia.
      change (2 ^ 0) with 1. change (10 ^ 0) with 1.
      rewrite !Z.mul_1_r. apply pow2_le_pow10; lia.
    + rewrite (Z.max_r (L + 1) 0), (Z.max_l (- (L + 1)) 0),
        (Z.max_l (est + 3) 0), (Z.max_r (- (est + 3)) 0) by lia.
      change (2 ^ 0) with 1. change (10 ^ 0) with 1.
      assert (0 < 2 ^ (- (L + 1))) by (apply Z.pow_pos_nonneg; lia).
      assert (0 < 10 ^ (est + 3)) by (apply Z.pow_pos_nonneg; lia). nia.
    + rewrite (Z.max_r (L + 1) 0), (Z.max_l (- (L + 1)) 0),
        (Z.max_r (est + 3) 0), (Z.max_l (- (est + 3)) 0) by lia.
      change (2 ^ 0) with 1. change (10 ^ 0) with 1.
      rewrite !Z.mul_1_l. apply pow10_le_pow2; lia.
Qed.

Lemma bounded_range (m : positive) (e : Z) :
  bounded prec emax m e = true ->
  -1074 <= e <= 971 /\ 0 <= Z.log2 (Zpos m) <= 52 /\
  -1074 <= Z.log2 (Zpos m) + e <= 1023.
Proof.
  intros Hb. destruct (bounded_spec m e Hb) as [Hcan Hemax].
  rewrite Zdigits2_log2 in Hcan by lia.
  pose proof (Z.log2_nonneg (Zpos m)). lia.
Qed.

Lemma log2_pow_le (m : positive) : 2 ^ Z.log2 (Zpos m) <= Zpos m < 2 * 2 ^ Z.log2 (Zpos m).
Proof.
  pose proof (Z.log2_spec (Zpos m) ltac:(lia)) as H.
  rewrite Z.pow_succ_r in H by apply Z.log2_nonneg. exact H.
Qed.

Lemma estimate_lower (m : positive) (e : Z) :
  bounded prec emax m e = true ->
  below_pow10 m e (estimate (Z.log2 (Zpos m) + e) - 2) = false.
Proof.
  intros Hb. destruct (bounded_range m e Hb) as [He [Hl HL]].
  pose proof (estimate_ok _ HL) as Hc. unfold estimate_checked in Hc.
  apply Bool.andb_true_iff in Hc. destruct Hc as [Hc _].
  unfold pow_leb in Hc. apply Z.leb_le in Hc.
  set (L := Z.log2 (Zpos m) + e) in *. set (t := estimate L - 2) in *.
  apply below_pow10_false. unfold snum, sden, scaled. cbn [fst snd].
  pose proof (log2_pow_le m) as Hm. set (lm := Z.log2 (Zpos m)) in *.
  assert (E : 2 ^ Z.max (- e) 0 * 2 ^ Z.max L 0
              = 2 ^ lm * 2 ^ Z.max e 0 * 2 ^ Z.max (- L) 0).
  { rewrite <- !Z.pow_add_r by lia. f_equal. unfold L. lia. }
  assert (P1 : 0 < 2 ^ Z.max (- L) 0) by (apply Z.pow_pos_nonneg; lia).
  assert (P2 : 0 < 2 ^ Z.max (- e) 0) by (apply Z.pow_pos_nonneg; lia).
  assert (P3 : 0 < 2 ^ Z.max e 0) by (apply Z.pow_pos_nonneg; lia).
  assert (P4 : 0 < 10 ^ Z.max (- t) 0) by (apply Z.pow_pos_nonneg; lia).
  assert (P5 : 0 < 10 ^ Z.max t 0) by (apply Z.pow_pos_nonneg; lia).
  assert (P6 : 0 < 2 ^ lm) by (apply Z.pow_pos_nonneg; lia).
  apply Z.le_trans with (2 ^ lm * 2 ^ Z.max e 0 * 10 ^ Z.max (- t) 0).
  - apply (Z.mul_le_mono_pos_r _ _ (2 ^ Z.max (- L) 0)); [assumption|].
    replace (2 ^ lm * 2 ^ Z.max e 0 * 10 ^ Z.max (- t) 0 * 2 ^ Z.max (- L) 0)
      with (2 ^ lm * 2 ^ Z.max e 0 * 2 ^ Z.max (- L) 0 * 10 ^ Z.max (- t) 0)
      by ring.
    rewrite <- E.
    replace (2 ^ Z.max (- e) 0 * 10 ^ Z.max t 0 * 2 ^ Z.max (- L) 0)
      with (2 ^ Z.max (- e) 0 * (10 ^ Z.max t 0 * 2 ^ Z.max (- L) 0)) by ring.
    replace (2 ^ Z.max (- e) 0 * 2 ^ Z.max L 0 * 10 ^ Z.max (- t) 0)
      with (2 ^ Z.max (- e) 0 * (2 ^ Z.max L 0 * 10 ^ Z.max (- t) 0)) by ring.
    apply Z.mul_le_mono_nonneg_l; [lia | exact Hc].
  - apply Z.mul_le_mono_nonneg_r; [lia|].
    apply Z.mul_le_mono_nonneg_r; lia.
Qed.

Lemma estimate_upper (m : positive) (e : Z) :
  bounded prec emax m e = true ->
  below_pow10 m e (estimate (Z.log2 (Zpos m) + e) + 3) = true.
Proof.
  intros Hb. destruct (bounded_range m e Hb) as [He [Hl HL]].
  pose proof (estimate_ok _ HL) as Hc. unfold estimate_checked in Hc.
  apply Bool.andb_true_iff in Hc. destruct Hc as [_ Hc].
  unfold pow_leb in Hc. apply Z.leb_le in Hc.
  set (L := Z.log2 (Zpos m) + e) in *. set (t := estimate L + 3) in *.
  apply below_pow10_iff. unfold snum, sden, scaled. cbn [fst snd].
  pose proof (log2_pow_le m) as Hm. set (lm := Z.log2 (Zpos m)) in *.
  assert (E : 2 * 2 ^ lm * 2 ^ Z.max e 0 * 2 ^ Z.max (- (L + 1)) 0
              = 2 ^ Z.max (- e) 0 * 2 ^ Z.max (L + 1) 0).
  { change 2 with (2 ^ 1) at 1. rewrite <- !Z.pow_add_r by lia. f_equal. unfold L. lia. }
  assert (P1 : 0 < 2 ^ Z.max (- (L + 1)) 0) by (apply Z.pow_pos_nonneg; lia).
  assert (P2 : 0 < 2 ^ Z.max (- e) 0) by (apply Z.pow_pos_nonneg; lia).
  assert (P3 : 0 < 2 ^ Z.max e 0) by (apply Z.pow_pos_nonneg; lia).
  assert (P4 : 0 < 10 ^ Z.max (- t) 0) by (apply Z.pow_pos_nonneg; lia).
  assert (P5 : 0 < 10 ^ Z.max t 0) by (apply Z.pow_pos_nonneg; lia).
  assert (P6 : 0 < 2 ^ lm) by (apply Z.pow_pos_nonneg; lia).
  apply Z.lt_le_trans with (2 * 2 ^ lm * 2 ^ Z.max e 0 * 10 ^ Z.max (- t) 0).
  - apply Z.mul_lt_mono_pos_r; [assumption|].
    apply Z.mul_lt_mono_pos_r; [assumption|]. lia.
  - apply (Z.mul_le_mono_pos_r _ _ (2 ^ Z.max (- (L + 1)) 0)); [assumption|].
    replace (2 * 2 ^ lm * 2 ^ Z.max e 0 * 10 ^ Z.max (- t) 0 * 2 ^ Z.max (- (L + 1)) 0)
      with (2 * 2 ^ lm * 2 ^ Z.max e 0 * 2 ^ Z.max (- (L + 1)) 0 * 10 ^ Z.max (- t) 0)
      by ring.
    rewrite E.
    replace (2 ^ Z.max (- e) 0 * 2 ^ Z.max (L + 1) 0 * 10 ^ Z.max (- t) 0)
      with (2 ^ Z.max (- e) 0 * (2 ^ Z.max (L + 1) 0 * 10 ^ Z.max (- t) 0)) by ring.
    replace (2 ^ Z.max (- e) 0 * 10 ^ Z.max t 0 * 2 ^ Z.max (- (L + 1)) 0)
      with (2 ^ Z.max (- e) 0 * (10 ^ Z.max t 0 * 2 ^ Z.max (- (L + 1)) 0)) by ring.
    apply Z.mul_le_mono_nonneg_l; [lia|]. lia.
Qed.

(** [decimal_exponent] is the [n] with [10^(n-1) <= m * 2^e < 10^n]. *)
Lemma decimal_exponent_spec (m : positive) (e : Z) :
  bounded prec emax m e = true ->
  let n := decimal_exponent m e in
  below_pow10 m e n = true /\ below_pow10 m e (n - 1) = false /\
  -325 <= n <= 310.
Proof.
  intros Hb n. destruct (bounded_range m e Hb) as [He [Hl HL]].
  pose proof (estimate_lower m e Hb) as Hlow.
  pose proof (estimate_upper m e Hb) as Hupp.
  unfold n, decimal_exponent. fold (estimate (Z.log2 (Zpos m) + e)).
  set (est := estimate (Z.log2 (Zpos m) + e)) in *.
  assert (Hest : -324 <= est <= 307).
  { unfold est, estimate. split.
    - apply Z.div_le_lower_bound; lia.
    - assert (X : (Z.log2 (Zpos m) + e) * 30103 / 100000 < 308)
        by (apply Z.div_lt_upper_bound; lia).
      lia. }
  destruct (below_pow10 m e (est - 1)) eqn:B1.
  { replace (est - 1 - 1) with (est - 2) by lia. repeat split; try assumption; lia. }
  destruct (below_pow10 m e est) eqn:B2.
  { repeat split; try assumption; lia. }
  destruct (below_pow10 m e (est + 1)) eqn:B3.
  { replace (est + 1 - 1) with est by lia. repeat split; try assumption; lia. }
  destruct (below_pow10 m e (est + 2)) eqn:B4.
  { replace (est + 2 - 1) with (est + 1) by lia. repeat split; try assumption; lia. }
  replace (est + 3 - 1) with (est + 2) by lia. repeat split; try assumption; lia.
Qed.

(** The quotient [m * 2^e / 10^(n-k)] has [k] digits before the point. *)
Lemma scaled_digits (m : positive) (e k : Z) :
  bounded prec emax m e = true -> 1 <= k ->
  let t := decimal_exponent m e - k in
  10 ^ (k - 1) * sden m e t <= snum m e t /\ snum m e t < 10 ^ k * sden m e t.
Proof.
  intros Hb Hk t.
  destruct (decimal_exponent_spec m e Hb) as [Hup [Hlo _]].
  apply below_pow10_iff in Hup. apply below_pow10_false in Hlo.
  set (n := decimal_exponent m e) in *.
  pose proof (scaled_shift m e t (k - 1) ltac:(lia)) as S1.
  pose proof (scaled_shift m e t k ltac:(lia)) as S2.
  replace (t + (k - 1)) with (n - 1) in S1 by (unfold t; lia).
  replace (t + k) with n in S2 by (unfold t; lia).
  pose proof (snum_pos m e t). pose proof (sden_pos m e t).
  pose proof (snum_pos m e n). pose proof (sden_pos m e n).
  pose proof (snum_pos m e (n - 1)). pose proof (sden_pos m e (n - 1)).
  assert (0 < 10 ^ (k - 1)) by (apply Z.pow_pos_nonneg; lia).
  assert (0 < 10 ^ k) by (apply Z.pow_pos_nonneg; lia).
  split.
  - apply (Z.mul_le_mono_pos_r _ _ (sden m e (n - 1))); [assumption|].
    rewrite S1.
    replace (10 ^ (k - 1) * sden m e t * sden m e (n - 1))
      with (10 ^ (k - 1) * sden m e (n - 1) * sden m e t) by ring.
    apply Z.mul_le_mono_nonneg_r; [lia|].
    apply Z.mul_le_mono_nonneg_l; lia.
  - apply (Z.mul_lt_mono_pos_r (sden m e n)); [assumption|].
    rewrite S2.
    replace (10 ^ k * sden m e t * sden m e n)
      with (10 ^ k * sden m e n * sden m e t) by ring.
    apply Z.mul_lt_mono_pos_r; [assumption|].
    apply Z.mul_lt_mono_pos_l; lia.
Qed.


(** ** The shortest decimal that reads back *)

Lemma nearest_spec (m : positive) (e t : Z) :
  let a := snum m e t in
  let b := sden m e t in
  let s := nearest m e t in
  (s = a / b \/ s = a / b + 1) /\
  2 * (a - s * b) <= b /\ 2 * (s * b - a) <= b.
Proof.
  intros a b s. unfold s, nearest. rewrite scaled_eq. fold a b.
  pose proof (sden_pos m e t) as Hb. fold b in Hb.
  pose proof (Z.div_mod a b ltac:(lia)) as E.
  pose proof (Z.mod_pos_bound a b Hb) as B.
  set (q := a / b) in *. set (r := a mod b) in *.
  destruct (Z.compare_spec (2 * r) b) as [H|H|H].
  - destruct (Z.even q); (split; [auto|]); nia.
  - split; [auto|]. nia.
  - split; [auto|]. nia.
Qed.

Lemma other_spec (m : positive) (e t : Z) :
  let a := snum m e t in
  let b := sden m e t in
  other m e t = a / b \/ other m e t = a / b + 1.
Proof.
  intros a b. unfold other. rewrite scaled_eq. fold a b.
  destruct (a mod b =? 0); [auto|].
  destruct (nearest m e t =? a / b); auto.
Qed.

Lemma quotient_digits (m : positive) (e k : Z) :
  bounded prec emax m e = true -> 1 <= k ->
  10 ^ (k - 1) <= snum m e (decimal_exponent m e - k)
                  / sden m e (decimal_exponent m e - k) < 10 ^ k.
Proof.
  intros Hb Hk. destruct (scaled_digits m e k Hb Hk) as [H1 H2].
  apply div_bounds; [apply sden_pos | exact H1 | exact H2].
Qed.

Lemma pow10_step (k : Z) : 1 <= k -> 10 ^ k = 10 * 10 ^ (k - 1).
Proof.
  intros Hk. replace k with (k - 1 + 1) at 1 by lia.
  rewrite Z.pow_add_r by lia. change (10 ^ 1) with 10. ring.
Qed.

(** A candidate has [k] digits. *)
Lemma candidate_digits (m : positive) (e k s : Z) :
  1 <= k -> 10 ^ (k - 1) <= s <= 10 ^ k ->
  10 ^ (k - 1) <= fst (candidate m e k s) < 10 ^ k.
Proof.
  intros Hk Hs. unfold candidate.
  assert (0 < 10 ^ (k - 1)) by (apply Z.pow_pos_nonneg; lia).
  pose proof (pow10_step k Hk).
  destruct (Z.eqb_spec s (10 ^ k)); cbn [fst]; lia.
Qed.

Lemma candidate_exponent (m : positive) (e k s : Z) :
  decimal_exponent m e <= snd (candidate m e k s) <= decimal_exponent m e + 1.
Proof. unfold candidate. destruct (s =? 10 ^ k); cbn [snd]; lia. Qed.

Lemma reads_back_true (m : positive) (e k : Z) (c : Z * Z) :
  reads_back m e k c = true ->
  of_decimal false (Z.to_N (fst c)) (snd c - k) = S754_finite false m e.
Proof.
  unfold reads_back.
  destruct (of_decimal false (Z.to_N (fst c)) (snd c - k)) as [| | |s' m' e'];
    try discriminate.
  destruct s'; [discriminate|]. intros H.
  apply Bool.andb_true_iff in H. destruct H as [H1 H2].
  apply Pos.eqb_eq in H1. apply Z.eqb_eq in H2. congruence.
Qed.

Lemma bounded_lt (m : positive) (e : Z) :
  bounded prec emax m e = true -> Zpos m < 2 ^ 53.
Proof.
  intros Hb. destruct (bounded_spec m e Hb) as [Hcan _].
  pose proof (Zdigits2_bounds (Zpos m) ltac:(lia)) as [_ H].
  apply Z.lt_le_trans with (2 ^ Zdigits2 (Zpos m)); [exact H|].
  apply Z.pow_le_mono_r; lia.
Qed.

(** A decimal within [1 / (2 * 10^16)] of [m * 2^e], relatively, is in
    its rounding interval. *)
Lemma near_of_rel_close (m : positive) (e t s : Z) :
  bounded prec emax m e = true ->
  let a := snum m e t in
  let b := sden m e t in
  let Pq := s * 2 ^ Z.max (- e) 0 * 10 ^ Z.max t 0 in
  let Q := 2 ^ Z.max e 0 * 10 ^ Z.max (- t) 0 in
  2 * 10 ^ 16 * (a - s * b) <= a -> 2 * 10 ^ 16 * (s * b - a) <= a ->
  (2 * Zpos m - 1) * Q < 2 * Pq /\
  2 * Pq < (2 * Zpos m + 1) * Q /\
  (Zpos m = 2 ^ 52 -> (4 * Zpos m - 1) * Q < 4 * Pq).
Proof.
  intros Hb a b Pq Q H1 H2.
  pose proof (bounded_lt m e Hb) as Hm.
  assert (Ea : a = Zpos m * Q) by (unfold a, snum, scaled, Q; cbn [fst]; ring).
  assert (Eb : s * b = Pq) by (unfold b, sden, scaled, Pq; cbn [snd]; ring).
  assert (HQ : 0 < Q).
  { unfold Q. assert (0 < 2 ^ Z.max e 0) by (apply Z.pow_pos_nonneg; lia).
    assert (0 < 10 ^ Z.max (- t) 0) by (apply Z.pow_pos_nonneg; lia). nia. }
  rewrite Eb in H1, H2. rewrite Ea in H1, H2. clear Ea Eb.
  change (2 ^ 53) with 9007199254740992 in Hm.
  change (10 ^ 16) with 10000000000000000 in H1, H2.
  change (2 ^ 52) with 4503599627370496.
  set (M := Zpos m) in *. clearbody M. clearbody Q. clearbody Pq.
  split; [|split].
  - nia.
  - nia.
  - intros E. subst M. nia.
Qed.

(** The closeness passes to the same decimal written with one digit
    less. *)
Lemma rel_close_shift (m : positive) (e t s : Z) :
  let a := snum m e t in
  let b := sden m e t in
  let a' := snum m e (t + 1) in
  let b' := sden m e (t + 1) in
  2 * 10 ^ 16 * (a - 10 * s * b) <= a ->
  2 * 10 ^ 16 * (10 * s * b - a) <= a ->
  2 * 10 ^ 16 * (a' - s * b') <= a' /\ 2 * 10 ^ 16 * (s * b' - a') <= a'.
Proof.
  intros a b a' b' H1 H2.
  pose proof (scaled_shift m e t 1 ltac:(lia)) as S. change (10 ^ 1) with 10 in S.
  fold a b a' b' in S.
  pose proof (sden_pos m e t) as Hb. fold b in Hb.
  pose proof (sden_pos m e (t + 1)) as Hb'. fold b' in Hb'.
  change (10 ^ 16) with 10000000000000000 in *.
  clearbody a b a' b'.
  assert (X1 : 20000000000000000 * (a - 10 * s * b) * b' <= a * b')
    by (apply Z.mul_le_mono_nonneg_r; lia).
  assert (X2 : 20000000000000000 * (10 * s * b - a) * b' <= a * b')
    by (apply Z.mul_le_mono_nonneg_r; lia).
  split.
  - apply (Z.mul_le_mono_pos_r _ _ (10 * b)); [lia|]. lia.
  - apply (Z.mul_le_mono_pos_r _ _ (10 * b)); [lia|]. lia.
Qed.

Lemma log2_below (d j : Z) : 0 < d < 2 ^ j -> 0 <= Z.log2 d < j.
Proof.
  intros H. split; [apply Z.log2_nonneg|].
  destruct (Z.le_gt_cases 0 j) as [Hj|Hj].
  - apply Z.log2_lt_pow2; lia.
  - rewrite Z.pow_neg_r in H by lia. lia.
Qed.

(** The nearest decimal of 17 digits reads back. *)
Lemma seventeen_digits (m : positive) (e : Z) :
  bounded prec emax m e = true ->
  let c := candidate m e 17 (nearest m e (decimal_exponent m e - 17)) in
  of_decimal false (Z.to_N (fst c)) (snd c - 17) = S754_finite false m e.
Proof.
  intros Hb c.
  destruct (decimal_exponent_spec m e Hb) as [_ [_ Hn]].
  set (n := decimal_exponent m e) in *. set (t := n - 17) in *.
  destruct (scaled_digits m e 17 Hb ltac:(lia)) as [D1 D2].
  fold n in D1, D2. fold t in D1, D2. change (17 - 1) with 16 in D1.
  destruct (nearest_spec m e t) as [Hs [N1 N2]].
  pose proof (quotient_digits m e 17 Hb ltac:(lia)) as Hq.
  fold n in Hq. fold t in Hq. change (17 - 1) with 16 in Hq.
  set (s := nearest m e t) in *.
  set (a := snum m e t) in *. set (b := sden m e t) in *.
  pose proof (sden_pos m e t) as Hbpos. fold b in Hbpos.
  assert (Hrange : 10 ^ 16 <= s <= 10 ^ 17).
  { change (10 ^ 17) with (10 ^ 16 * 10) in *. lia. }
  assert (R1 : 2 * 10 ^ 16 * (a - s * b) <= a).
  { change (10 ^ 16) with 10000000000000000 in *. lia. }
  assert (R2 : 2 * 10 ^ 16 * (s * b - a) <= a).
  { change (10 ^ 16) with 10000000000000000 in *. lia. }
  pose proof (candidate_digits m e 17 s ltac:(lia) Hrange) as Hc.
  pose proof (candidate_exponent m e 17 s) as Hcn.
  fold c in Hc, Hcn. fold n in Hcn. change (17 - 1) with 16 in Hc.
  assert (Hclose : 2 * 10 ^ 16 * (snum m e (snd c - 17) - fst c * sden m e (snd c - 17))
                   <= snum m e (snd c - 17) /\
                   2 * 10 ^ 16 * (fst c * sden m e (snd c - 17) - snum m e (snd c - 17))
                   <= snum m e (snd c - 17)).
  { unfold c, candidate. fold n. destruct (Z.eqb_spec s (10 ^ 17)) as [E|E]; cbn [fst snd].
    - replace (n + 1 - 17) with (t + 1) by (unfold t; lia).
      change (17 - 1) with 16.
      apply rel_close_shift; fold a b.
      + replace (10 * 10 ^ 16) with s by (rewrite E; reflexivity). exact R1.
      + replace (10 * 10 ^ 16) with s by (rewrite E; reflexivity). exact R2.
    - fold t. fold a b. split; assumption. }
  destruct Hclose as [C1 C2].
  destruct (near_of_rel_close m e (snd c - 17) (fst c) Hb C1 C2) as [X1 [X2 X3]].
  apply of_decimal_near; try assumption.
  - assert (0 < 10 ^ 16) by (apply Z.pow_pos_nonneg; lia). lia.
  - assert (Hl : 0 <= Z.log2 (fst c) < 57).
    { apply log2_below. change (10 ^ 16) with 10000000000000000 in Hc.
      change (10 ^ 17) with 100000000000000000 in Hc.
      change (2 ^ 57) with 144115188075855872. lia. }
    assert (0 <= Z.log2 (fst c) * 30103 / 100000 < 18).
    { split; [apply Z.div_pos; lia | apply Z.div_lt_upper_bound; lia]. }
    lia.
Qed.

(** What [shortest] returns: a decimal of [k] digits, 17 at most, that
    reads back as [m * 2^e]. *)
Lemma shortest_spec (m : positive) (e : Z) :
  bounded prec emax m e = true ->
  forall (fuel : nat) (k : Z),
  1 <= k -> k + Z.of_nat fuel = 17 ->
  let '(s, k', n') := shortest fuel m e k in
  1 <= k' <= 17 /\ 10 ^ (k' - 1) <= s < 10 ^ k' /\ -325 <= n' <= 311 /\
  of_decimal false (Z.to_N s) (n' - k') = S754_finite false m e.
Proof.
  intros Hb. destruct (decimal_exponent_spec m e Hb) as [_ [_ Hn]].
  induction fuel as [|fuel IH]; intros k Hk Hsum.
  - assert (k = 17) by lia. subst k. cbn [shortest].
    pose proof (seventeen_digits m e Hb) as H17. cbv zeta in H17.
    set (c := candidate m e 17 (nearest m e (decimal_exponent m e - 17))) in *.
    pose proof (quotient_digits m e 17 Hb ltac:(lia)) as Hq.
    destruct (nearest_spec m e (decimal_exponent m e - 17)) as [Hs _].
    assert (Hrange : 10 ^ (17 - 1) <= nearest m e (decimal_exponent m e - 17) <= 10 ^ 17).
    { change (10 ^ 17) with (10 ^ (17 - 1) * 10) in *. lia. }
    pose proof (candidate_digits m e 17 _ ltac:(lia) Hrange) as Hc.
    pose proof (candidate_exponent m e 17 (nearest m e (decimal_exponent m e - 17))) as Hcn.
    fold c in Hc, Hcn.
    repeat split; try lia; try (apply Hc). exact H17.
  - cbn [shortest].
    set (t := decimal_exponent m e - k).
    pose proof (quotient_digits m e k Hb Hk) as Hq. fold t in Hq.
    destruct (nearest_spec m e t) as [Hs _].
    pose proof (other_spec m e t) as Ho. cbv zeta in Ho.
    assert (R1 : 10 ^ (k - 1) <= nearest m e t <= 10 ^ k) by lia.
    assert (R2 : 10 ^ (k - 1) <= other m e t <= 10 ^ k) by lia.
    pose proof (candidate_digits m e k _ Hk R1) as Hc1.
    pose proof (candidate_digits m e k _ Hk R2) as Hc2.
    pose proof (candidate_exponent m e k (nearest m e t)) as Hn1.
    pose proof (candidate_exponent m e k (other m e t)) as Hn2.
    destruct (reads_back m e k (candidate m e k (nearest m e t))) eqn:B1.
    { apply reads_back_true in B1. repeat split; try lia; try (apply Hc1). exact B1. }
    destruct (reads_back m e k (candidate m e k (other m e t))) eqn:B2.
    { apply reads_back_true in B2. repeat split; try lia; try (apply Hc2). exact B2. }
    apply IH; lia.
Qed.


(** ** The text of a Number *)

(** *** The decimal digits of a natural number *)

Lemma string_of_uint_digits (d : Decimal.uint) :
  all_digits (NilEmpty.string_of_uint d) = true.
Proof. induction d; simpl; try reflexivity; assumption. Qed.

Lemma digits_value_uint (d : Decimal.uint) : forall d' : Decimal.uint,
  digits_value (Z.of_N (DecimalPos.Unsigned.of_lu d')) (NilEmpty.string_of_uint d)
  = Z.of_N (DecimalPos.Unsigned.of_lu (Decimal.revapp d d')).
Proof.
  induction d as [|d IH|d IH|d IH|d IH|d IH|d IH|d IH|d IH|d IH|d IH];
    intros d'; cbn [NilEmpty.string_of_uint digits_value Decimal.revapp];
    [reflexivity| | | | | | | | | | ];
    rewrite <- IH; f_equal; cbn [DecimalPos.Unsigned.of_lu];
    rewrite ?N2Z.inj_add, N2Z.inj_mul;
    match goal with
    | |- context [digit_value ?c] =>
        let v := eval vm_compute in (digit_value c) in
        change (digit_value c) with v
    end; lia.
Qed.

Lemma nzhead_not_D0 (d d' : Decimal.uint) :
  Decimal.nzhead d <> Decimal.D0 d'.
Proof. induction d; simpl; try discriminate; assumption. Qed.

Lemma to_uint_normal (n : N) : Decimal.unorm (N.to_uint n) = N.to_uint n.
Proof.
  rewrite <- (DecimalN.Unsigned.of_to n) at 2.
  symmetry. apply DecimalN.Unsigned.to_of.
Qed.

Lemma string_of_uint_nonnil (d : Decimal.uint) :
  d <> Decimal.Nil -> NilZero.string_of_uint d = NilEmpty.string_of_uint d.
Proof. destruct d; try reflexivity. congruence. Qed.

Lemma to_uint_nonnil (n : N) : N.to_uint n <> Decimal.Nil.
Proof.
  destruct n as [|p]; [discriminate|]. apply DecimalPos.Unsigned.to_uint_nonnil.
Qed.

Lemma digits_of_digits (z : Z) : all_digits (digits_of z) = true.
Proof.
  unfold digits_of. rewrite string_of_uint_nonnil by apply to_uint_nonnil.
  apply string_of_uint_digits.
Qed.

Lemma digits_of_value (z : Z) : 0 <= z -> digits_value 0 (digits_of z) = z.
Proof.
  intros Hz. unfold digits_of.
  rewrite string_of_uint_nonnil by apply to_uint_nonnil.
  change 0 with (Z.of_N (DecimalPos.Unsigned.of_lu Decimal.Nil)) at 1.
  rewrite digits_value_uint. fold (Decimal.rev (N.to_uint (Z.to_N z))).
  rewrite <- DecimalPos.Unsigned.of_uint_alt.
  change (Pos.of_uint (N.to_uint (Z.to_N z))) with (N.of_uint (N.to_uint (Z.to_N z))).
  rewrite DecimalN.Unsigned.of_to. apply Z2N.id. exact Hz.
Qed.

(** The first digit of a positive number is not a zero. *)
Lemma digits_of_head (z : Z) :
  0 < z ->
  exists c r, digits_of z = String c r /\ Ascii.eqb c "0" = false
              /\ is_digit c = true.
Proof.
  intros Hz. unfold digits_of.
  rewrite string_of_uint_nonnil by apply to_uint_nonnil.
  pose proof (to_uint_normal (Z.to_N z)) as Hn.
  destruct (Z.to_N z) as [|p] eqn:E; [lia|].
  pose proof (DecimalPos.Unsigned.to_uint_nonzero p) as Hnz.
  change (N.to_uint (N.pos p)) with (Pos.to_uint p) in *.
  destruct (Pos.to_uint p) as [|d|d|d|d|d|d|d|d|d|d] eqn:Ed;
    try (cbn [NilEmpty.string_of_uint]; eexists; eexists;
         split; [reflexivity | split; reflexivity]).
  - exfalso. apply (DecimalPos.Unsigned.to_uint_nonnil p). exact Ed.
  - exfalso. unfold Decimal.unorm in Hn. cbn [Decimal.nzhead] in Hn.
    destruct (Decimal.nzhead d) eqn:En; try discriminate Hn.
    + apply Hnz. symmetry. exact Hn.
    + apply (nzhead_not_D0 d u En).
Qed.

Lemma digits_value_head (c : ascii) (r : string) :
  Ascii.eqb c "0" = false -> is_digit c = true -> all_digits r = true ->
  10 ^ Z.of_nat (String.length r) <= digits_value 0 (String c r).
Proof.
  intros Hc Hd Hr. cbn [digits_value]. rewrite digits_value_acc.
  pose proof (digits_value_bounds r Hr) as B.
  assert (1 <= digit_value c).
  { pose proof (digit_value_range c Hd) as R.
    destruct (Z.eq_dec (digit_value c) 0) as [E|E]; [|lia].
    exfalso. unfold digit_value in E.
    assert (code c = code "0") by (change (code "0") with 48; lia).
    unfold code in H. apply N2Z.inj in H.
    assert (c = "0"%char).
    { rewrite <- (ascii_N_embedding c), H. reflexivity. }
    subst c. discriminate Hc. }
  assert (0 < 10 ^ Z.of_nat (String.length r)) by (apply Z.pow_pos_nonneg; lia).
  nia.
Qed.

(** A number of [k] digits is written with [k] digits. *)
Lemma digits_of_length (s k : Z) :
  1 <= k -> 10 ^ (k - 1) <= s < 10 ^ k ->
  Z.of_nat (String.length (digits_of s)) = k.
Proof.
  intros Hk Hs.
  assert (Hpos : 0 < s).
  { assert (0 < 10 ^ (k - 1)) by (apply Z.pow_pos_nonneg; lia). lia. }
  destruct (digits_of_head s Hpos) as [c [r [E [Hc Hd]]]].
  pose proof (digits_of_digits s) as Hall. rewrite E in Hall.
  pose proof (digits_of_value s ltac:(lia)) as Hv. rewrite E in Hv.
  pose proof (digits_value_bounds _ Hall) as B. rewrite Hv in B.
  cbn [all_digits] in Hall. apply Bool.andb_true_iff in Hall.
  pose proof (digits_value_head c r Hc Hd (proj2 Hall)) as L. rewrite Hv in L.
  rewrite E. cbn [String.length] in *. rewrite Nat2Z.inj_succ in *.
  set (j := Z.of_nat (String.length r)) in *.
  assert (Hj : 0 <= j) by (unfold j; lia).
  destruct (Z.lt_trichotomy (Z.succ j) k) as [H|[H|H]]; [exfalso|exact H|exfalso].
  - assert (10 ^ Z.succ j <= 10 ^ (k - 1)) by (apply Z.pow_le_mono_r; lia). lia.
  - assert (10 ^ k <= 10 ^ j) by (apply Z.pow_le_mono_r; lia). lia.
Qed.

(** *** Pieces of a string *)

Lemma substring_prefix (n : nat) : forall s : string,
  (n <= String.length s)%nat ->
  s = substring 0 n s ++ substring n (String.length s - n) s /\
  String.length (substring 0 n s) = n.
Proof.
  induction n as [|n IH]; intros s Hn.
  - assert (E : forall t : string, substring 0 (String.length t) t = t).
    { induction t as [|c t IHt]; [reflexivity|]. cbn. rewrite IHt. reflexivity. }
    split.
    + rewrite Nat.sub_0_r, E. destruct s; reflexivity.
    + destruct s; reflexivity.
  - destruct s as [|c s]; [simpl in Hn; lia|].
    cbn [String.length] in *. destruct (IH s ltac:(lia)) as [E1 E2].
    cbn [substring]. split.
    + cbn [append]. f_equal. replace (S (String.length s) - S n)%nat
        with (String.length s - n)%nat by lia. exact E1.
    + cbn [String.length]. rewrite E2. reflexivity.
Qed.

Lemma all_digits_app (a b : string) :
  all_digits (a ++ b) = all_digits a && all_digits b.
Proof.
  induction a as [|c a IH]; [reflexivity|]. cbn [append all_digits].
  rewrite IH, Bool.andb_assoc. reflexivity.
Qed.

Lemma zeros_digits (n : nat) : all_digits (zeros n) = true.
Proof. induction n; [reflexivity | exact IHn]. Qed.

Lemma zeros_length (n : nat) : String.length (zeros n) = n.
Proof. induction n; [reflexivity | simpl; rewrite IHn; reflexivity]. Qed.

Lemma digits_value_app (a b : string) (acc : Z) :
  digits_value acc (a ++ b) = digits_value (digits_value acc a) b.
Proof. revert acc. induction a as [|c a IH]; intros acc; [reflexivity | apply IH]. Qed.

Lemma digits_value_zeros (n : nat) (acc : Z) :
  digits_value acc (zeros n) = acc * 10 ^ Z.of_nat n.
Proof.
  revert acc. induction n as [|n IH]; intros acc.
  - simpl. lia.
  - cbn [zeros digits_value]. rewrite IH, Nat2Z.inj_succ, Z.pow_succ_r by lia.
    change (digit_value "0") with 0. ring.
Qed.

(** *** The text of a JSON number *)

Lemma take_json_number_text (neg : bool) (ip fp : string)
    (ex : option (bool * string)) :
  all_digits ip = true -> ip <> EmptyString -> leading_zero ip = false ->
  all_digits fp = true ->
  match ex with
  | Some (_, ed) => all_digits ed = true /\ ed <> EmptyString
  | None => True
  end ->
  take_json_number ((if neg then "-" else "") ++ ip ++ fraction_text fp
                    ++ exponent_text ex)
  = Some (of_decimal neg (Z.to_N (digits_value 0 (ip ++ fp)))
                     (exponent_value ex - Z.of_nat (String.length fp)),
          EmptyString).
Proof.
  intros Hip Hne Hlz Hfp Hex. unfold take_json_number.
  assert (Hsign : match (if neg then "-" else "") ++ ip ++ fraction_text fp
                        ++ exponent_text ex with
                  | String c r => if Ascii.eqb c "-" then (true, r)
                                  else (false, (if neg then "-" else "") ++ ip
                                               ++ fraction_text fp ++ exponent_text ex)
                  | EmptyString => (false, (if neg then "-" else "") ++ ip
                                           ++ fraction_text fp ++ exponent_text ex)
                  end = (neg, ip ++ fraction_text fp ++ exponent_text ex)).
  { destruct neg; [reflexivity|]. cbn [append].
    destruct ip as [|c ip]; [congruence|]. cbn [append].
    cbn [all_digits] in Hip. apply Bool.andb_true_iff in Hip.
    destruct (Ascii.eqb_spec c "-") as [E|E]; [|reflexivity].
    subst c. destruct Hip as [Hd _]. discriminate Hd. }
  rewrite Hsign. clear Hsign.
  assert (Hrest : match fraction_text fp ++ exponent_text ex with
                  | EmptyString => True
                  | String c _ => is_digit c = false
                  end).
  { destruct fp as [|c fp]; cbn [fraction_text append].
    - destruct ex as [[eneg ed]|]; [reflexivity | exact I].
    - reflexivity. }
  rewrite (take_digits_app ip _ Hip Hrest).
  destruct ip as [|c0 ip0] eqn:Eip; [congruence|]. rewrite <- Eip in *.
  replace (is_empty ip) with false by (rewrite Eip; reflexivity).
  rewrite Hlz. cbn [orb].
  (* the fraction *)
  assert (Hexp_rest : match exponent_text ex with
                      | EmptyString => True
                      | String c _ => is_digit c = false
                      end).
  { destruct ex as [[eneg ed]|]; [reflexivity | exact I]. }
  assert (Hfrac : match fraction_text fp ++ exponent_text ex with
                  | String c r =>
                      if Ascii.eqb c "." then
                        let '(fp0, r2) := take_digits r in
                        if is_empty fp0 then None else Some (fp0, r2)
                      else Some (EmptyString, fraction_text fp ++ exponent_text ex)
                  | EmptyString => Some (EmptyString, fraction_text fp ++ exponent_text ex)
                  end = Some (fp, exponent_text ex)).
  { destruct fp as [|c fp'].
    - cbn [fraction_text append]. destruct ex as [[eneg ed]|]; reflexivity.
    - change (fraction_text (String c fp') ++ exponent_text ex)
        with (String "." (String c fp' ++ exponent_text ex)).
      cbv beta iota. rewrite Ascii.eqb_refl.
      rewrite (take_digits_app (String c fp') _ Hfp Hexp_rest). reflexivity. }
  rewrite Hfrac. clear Hfrac.
  (* the exponent *)
  destruct ex as [[eneg ed]|]; cbn [exponent_text exponent_value].
  - destruct Hex as [Hed Hne']. cbn [append].
    change (Ascii.eqb "e" "e" || Ascii.eqb "e" "E") with true. cbv beta iota.
    assert (Hs : take_sign ((if eneg then "-" else "+") ++ ed) = (eneg, ed)).
    { destruct eneg; reflexivity. }
    rewrite Hs, (take_digits_all ed Hed).
    destruct ed; [congruence|]. reflexivity.
  - reflexivity.
Qed.


Lemma leading_zero_head (c : ascii) (r : string) :
  Ascii.eqb c "0" = false -> leading_zero (String c r) = false.
Proof. intros H. destruct r; [reflexivity | exact H]. Qed.

(** The first [n] digits of a positive number, and the others. *)
Lemma digits_of_split (s k : Z) (n : nat) :
  1 <= k -> 10 ^ (k - 1) <= s < 10 ^ k -> (1 <= n)%nat -> Z.of_nat n < k ->
  let ip := substring 0 n (digits_of s) in
  let fp := substring n (Z.to_nat (k - Z.of_nat n)) (digits_of s) in
  all_digits ip = true /\ ip <> EmptyString /\ leading_zero ip = false /\
  all_digits fp = true /\ fp <> EmptyString /\
  Z.of_nat (String.length fp) = k - Z.of_nat n /\
  digits_value 0 (ip ++ fp) = s.
Proof.
  intros Hk Hs Hn Hnk ip fp.
  assert (Hpos : 0 < s).
  { assert (0 < 10 ^ (k - 1)) by (apply Z.pow_pos_nonneg; lia). lia. }
  pose proof (digits_of_length s k Hk Hs) as Hlen.
  pose proof (digits_of_digits s) as Hall.
  pose proof (digits_of_value s ltac:(lia)) as Hval.
  destruct (digits_of_head s Hpos) as [c [r [E [Hc Hd]]]].
  destruct (substring_prefix n (digits_of s) ltac:(lia)) as [Esplit Elen].
  replace (String.length (digits_of s) - n)%nat
    with (Z.to_nat (k - Z.of_nat n)) in Esplit by lia.
  fold ip fp in Esplit, Elen.
  rewrite Esplit, all_digits_app in Hall. apply Bool.andb_true_iff in Hall.
  assert (Hfl : String.length fp = Z.to_nat (k - Z.of_nat n)).
  { pose proof (f_equal String.length Esplit) as L.
    rewrite length_append, Elen in L. lia. }
  split; [apply Hall|]. split.
  { intros X. rewrite X in Elen. simpl in Elen. lia. }
  split.
  { unfold ip. rewrite E. destruct n as [|n']; [lia|]. cbn [substring].
    apply leading_zero_head. exact Hc. }
  split; [apply Hall|]. split.
  { intros X. rewrite X in Hfl. simpl in Hfl. lia. }
  split; [lia|]. rewrite <- Esplit. exact Hval.
Qed.

Lemma exponent_sign_value (z : Z) :
  exponent_value (Some (z <? 0, digits_of (Z.abs z))) = z.
Proof.
  cbn [exponent_value]. rewrite digits_of_value by lia.
  destruct (Z.ltb_spec z 0); lia.
Qed.

Lemma digits_of_nonempty (z : Z) : digits_of z <> EmptyString.
Proof.
  unfold digits_of. rewrite string_of_uint_nonnil by apply to_uint_nonnil.
  pose proof (to_uint_nonnil (Z.to_N z)) as H.
  destruct (N.to_uint (Z.to_N z)); try discriminate. congruence.
Qed.

(** The text of [format_decimal] is a JSON number, read as the digits
    and the exponent of [parsed_decimal]. *)
Lemma take_json_number_format (neg : bool) (s k n : Z) :
  1 <= k -> 10 ^ (k - 1) <= s < 10 ^ k ->
  take_json_number ((if neg then "-" else "") ++ format_decimal s k n)
  = Some (of_decimal neg (Z.to_N (fst (parsed_decimal s k n)))
                     (snd (parsed_decimal s k n)), EmptyString).
Proof.
  intros Hk Hs.
  assert (Hpos : 0 < s).
  { assert (0 < 10 ^ (k - 1)) by (apply Z.pow_pos_nonneg; lia). lia. }
  pose proof (digits_of_length s k Hk Hs) as Hlen.
  pose proof (digits_of_digits s) as Hall.
  pose proof (digits_of_value s ltac:(lia)) as Hval.
  destruct (digits_of_head s Hpos) as [c [r [E [Hc Hd]]]].
  unfold format_decimal, parsed_decimal.
  destruct ((k <=? n) && (n <=? 21)) eqn:C1.
  { (* an integer, with zeros after its digits *)
    apply Bool.andb_true_iff in C1. destruct C1 as [C1 C1'].
    apply Z.leb_le in C1. apply Z.leb_le in C1'. cbn [fst snd].
    set (ip := digits_of s ++ zeros (Z.to_nat (n - k))).
    replace ip with (ip ++ fraction_text "" ++ exponent_text None)
      by (cbn [fraction_text exponent_text append]; apply append_empty_r).
    rewrite take_json_number_text.
    - rewrite append_empty_r. cbn [exponent_value String.length].
      unfold ip. rewrite digits_value_app, Hval, digits_value_zeros.
      rewrite Z2Nat.id by lia. reflexivity.
    - unfold ip. rewrite all_digits_app, Hall, zeros_digits. reflexivity.
    - unfold ip. rewrite E. discriminate.
    - unfold ip. rewrite E. cbn [append]. apply leading_zero_head. exact Hc.
    - reflexivity.
    - exact I. }
  destruct ((0 <? n) && (n <=? 21)) eqn:C2.
  { (* digits, a point, digits *)
    apply Bool.andb_true_iff in C2. destruct C2 as [C2 C2'].
    apply Z.ltb_lt in C2. apply Z.leb_le in C2'.
    assert (Hnk : n < k).
    { destruct (Z.leb_spec k n); [|assumption].
      destruct (Z.leb_spec n 21); [discriminate C1 | lia]. }
    cbn [fst snd].
    destruct (digits_of_split s k (Z.to_nat n) Hk Hs ltac:(lia) ltac:(lia))
      as [A1 [A2 [A3 [A4 [A5 [A6 A7]]]]]].
    rewrite Z2Nat.id in A4, A5, A6, A7 by lia.
    set (ip := substring 0 (Z.to_nat n) (digits_of s)) in *.
    set (fp := substring (Z.to_nat n) (Z.to_nat (k - n)) (digits_of s)) in *.
    replace (ip ++ "." ++ fp) with (ip ++ fraction_text fp ++ exponent_text None).
    2:{ destruct fp; [congruence|]. cbn [fraction_text exponent_text].
        rewrite append_empty_r. reflexivity. }
    rewrite take_json_number_text by (assumption || exact I).
    rewrite A7, A6. cbn [exponent_value]. f_equal. f_equal. f_equal. lia. }
  destruct ((-6 <? n) && (n <=? 0)) eqn:C3.
  { (* a zero, a point, zeros and the digits *)
    apply Bool.andb_true_iff in C3. destruct C3 as [C3 C3'].
    apply Z.ltb_lt in C3. apply Z.leb_le in C3'. cbn [fst snd].
    set (fp := zeros (Z.to_nat (- n)) ++ digits_of s).
    assert (Hfp : fp <> EmptyString).
    { unfold fp. rewrite E. destruct (zeros (Z.to_nat (- n))); discriminate. }
    replace ("0." ++ fp) with ("0" ++ fraction_text fp ++ exponent_text None).
    2:{ destruct fp; [congruence|]. cbn [fraction_text exponent_text].
        rewrite append_empty_r. reflexivity. }
    rewrite take_json_number_text.
    - cbn [exponent_value append digits_value].
      change (10 * 0 + digit_value "0") with 0.
      unfold fp. rewrite digits_value_app, digits_value_zeros, Z.mul_0_l, Hval.
      rewrite length_append, zeros_length.
      f_equal. f_equal. f_equal. lia.
    - reflexivity.
    - discriminate.
    - reflexivity.
    - unfold fp. rewrite all_digits_app, zeros_digits, Hall. reflexivity.
    - exact I. }
  (* the exponent notation *)
  cbn [fst snd].
  set (ex := Some (n - 1 <? 0, digits_of (Z.abs (n - 1)))).
  assert (Hex : all_digits (digits_of (Z.abs (n - 1))) = true /\
                digits_of (Z.abs (n - 1)) <> EmptyString)
    by (split; [apply digits_of_digits | apply digits_of_nonempty]).
  change ("e" ++ (if n - 1 <? 0 then "-" else "+") ++ digits_of (Z.abs (n - 1)))
    with (exponent_text ex).
  destruct (Z.eqb_spec k 1) as [K|K].
  - replace (digits_of s ++ exponent_text ex)
      with (digits_of s ++ fraction_text "" ++ exponent_text ex) by reflexivity.
    rewrite take_json_number_text.
    + rewrite append_empty_r, Hval. unfold ex. rewrite exponent_sign_value.
      cbn [String.length]. f_equal. f_equal. f_equal. lia.
    + exact Hall.
    + apply digits_of_nonempty.
    + rewrite E. apply leading_zero_head. exact Hc.
    + reflexivity.
    + exact Hex.
  - destruct (digits_of_split s k 1 Hk Hs ltac:(lia) ltac:(lia))
      as [A1 [A2 [A3 [A4 [A5 [A6 A7]]]]]].
    change (Z.of_nat 1) with 1 in *.
    set (ip := substring 0 1 (digits_of s)) in *.
    set (fp := substring 1 (Z.to_nat (k - 1)) (digits_of s)) in *.
    replace (ip ++ "." ++ fp ++ exponent_text ex)
      with (ip ++ fraction_text fp ++ exponent_text ex).
    2:{ destruct fp; [congruence|]. reflexivity. }
    rewrite take_json_number_text by (assumption || exact Hex).
    rewrite A7, A6. unfold ex. rewrite exponent_sign_value.
    f_equal. f_equal. f_equal. lia.
Qed.

(** An integer is the same decimal with its zeros written out. *)
Lemma of_decimal_integer (neg : bool) (s j : Z) (m : positive) (e : Z) :
  0 < s -> 0 <= j -> s * 10 ^ j < 10 ^ 22 ->
  of_decimal false (Z.to_N s) j = S754_finite false m e ->
  of_decimal neg (Z.to_N (s * 10 ^ j)) 0 = S754_finite neg m e.
Proof.
  intros Hs Hj Hlt H.
  rewrite of_decimal_sign.
  assert (Hp : 0 < 10 ^ j) by (apply Z.pow_pos_nonneg; lia).
  destruct s as [|p|p]; try lia. cbn [Z.to_N] in H.
  unfold of_decimal in H. cbv zeta in H.
  destruct (400 <? _) in H; [discriminate H|].
  destruct (_ <? -400) in H; [discriminate H|].
  destruct (Z.leb_spec 0 j); [|lia].
  assert (E : Z.to_N (Zpos p * 10 ^ j) = Npos (p * Z.to_pos (10 ^ j))).
  { destruct (10 ^ j) as [|q|q] eqn:Eq; try lia. reflexivity. }
  rewrite E. unfold of_decimal. cbv zeta.
  assert (Hlog : 0 <= Z.log2 (Zpos (p * Z.to_pos (10 ^ j))) < 74).
  { apply log2_below. split; [lia|].
    rewrite Pos2Z.inj_mul, Z2Pos.id by lia.
    apply Z.lt_trans with (10 ^ 22); [exact Hlt | reflexivity]. }
  assert (0 <= Z.log2 (Zpos (p * Z.to_pos (10 ^ j))) * 30103 / 100000 < 23).
  { split; [apply Z.div_pos; lia | apply Z.div_lt_upper_bound; lia]. }
  destruct (Z.ltb_spec 400 (Z.log2 (Zpos (p * Z.to_pos (10 ^ j))) * 30103 / 100000 + 1 + 0));
    [lia|].
  destruct (Z.ltb_spec (Z.log2 (Zpos (p * Z.to_pos (10 ^ j))) * 30103 / 100000 + 1 + 0) (-400));
    [lia|].
  change (0 <=? 0) with true. cbv beta iota.
  change (Z.to_pos (10 ^ 0)) with 1%positive. rewrite Pos.mul_1_r, H. reflexivity.
Qed.

(** A finite Number, other than the negative zero, is written as a JSON
    number that reads back as the same Number. *)
Theorem number_text_exact_valid (x : number) :
  valid x = true -> is_finite x = true -> x <> S754_zero true ->
  number_text_exact x = true.
Proof.
  intros Hv Hf Hz. unfold number_text_exact. rewrite Hf. cbn [andb].
  destruct x as [[|]| | |sg m e]; try discriminate Hf.
  - congruence.
  - reflexivity.
  - unfold valid, valid_binary in Hv.
    pose proof (shortest_spec m e Hv 16 1 ltac:(lia) ltac:(lia)) as Hsp.
    cbn [Number_toString].
    destruct (shortest 16 m e 1) as [[d k] n].
    destruct Hsp as [Hk [Hd [Hn Hback]]].
    rewrite take_json_number_format by lia.
    assert (Hpos : 0 < d).
    { assert (0 < 10 ^ (k - 1)) by (apply Z.pow_pos_nonneg; lia). lia. }
    assert (Hnum : of_decimal sg (Z.to_N (fst (parsed_decimal d k n)))
                              (snd (parsed_decimal d k n))
                   = S754_finite sg m e).
    { unfold parsed_decimal. destruct ((k <=? n) && (n <=? 21)) eqn:C; cbn [fst snd].
      - apply Bool.andb_true_iff in C. destruct C as [C C'].
        apply Z.leb_le in C. apply Z.leb_le in C'.
        apply of_decimal_integer; try assumption; try lia.
        assert (10 ^ k * 10 ^ (n - k) = 10 ^ n).
        { rewrite <- Z.pow_add_r by lia. f_equal. lia. }
        assert (10 ^ n <= 10 ^ 21) by (apply Z.pow_le_mono_r; lia).
        assert (0 < 10 ^ (n - k)) by (apply Z.pow_pos_nonneg; lia).
        change (10 ^ 22) with (10 ^ 21 * 10).
        assert (0 < 10 ^ 21) by reflexivity. nia.
      - rewrite of_decimal_sign, Hback. reflexivity. }
    rewrite Hnum. cbn [number_same].
    rewrite Bool.eqb_reflx, Pos.eqb_refl, Z.eqb_refl. reflexivity.
Qed.


(** ** Ledgers of doubles *)

Lemma number_plain_exact (x : number) :
  number_plain x = true -> number_text_exact x = true.
Proof.
  unfold number_plain. intros H. apply Bool.andb_true_iff in H.
  destruct H as [Hv Hs].
  apply number_text_exact_valid; [exact Hv | | ].
  - destruct x; try discriminate Hs; reflexivity.
  - intros E. subst x. discriminate Hs.
Qed.

Lemma value_plain_exact (v : jsval) :
  value_plain v = true -> value_exact v = true.
Proof. destruct v as [x|]; [apply number_plain_exact | discriminate]. Qed.

Lemma item_plain_exact (it : item) :
  item_plain it = true -> item_exact it = true.
Proof.
  unfold item_plain, item_exact. intros H.
  apply Bool.andb_true_iff in H. destruct H as [H Hk].
  apply Bool.andb_true_iff in H. destruct H as [H Hh].
  apply Bool.andb_true_iff in H. destruct H as [Hi Hw].
  rewrite !value_plain_exact by assumption. reflexivity.
Qed.

Lemma item_plain_number_kWh (it : item) :
  item_plain it = true -> has_number_kWh it = true.
Proof.
  unfold item_plain, has_number_kWh. intros H.
  apply Bool.andb_true_iff in H. destruct H as [_ Hk].
  destruct (kWh it); [reflexivity | discriminate Hk].
Qed.

(** The text of a finite double reads back, whatever the double. *)
Lemma value_valid_savable (v : jsval) :
  value_valid v = true -> value_savable v = true.
Proof.
  destruct v as [[s|s| |s m e]|]; try reflexivity. intros H.
  apply number_text_exact_valid; [exact H | reflexivity | discriminate].
Qed.

Lemma item_valid_savable (it : item) :
  item_valid it = true -> item_savable it = true.
Proof.
  unfold item_valid, item_savable. intros H.
  apply Bool.andb_true_iff in H. destruct H as [H Hk].
  apply Bool.andb_true_iff in H. destruct H as [H Hh].
  apply Bool.andb_true_iff in H. destruct H as [Hi Hw].
  rewrite !value_valid_savable by assumption. reflexivity.
Qed.

Lemma parseInt_string_valid (s : string) : valid (parseInt_string s) = true.
Proof.
  unfold parseInt_string. destruct (take_sign (trim_start s)) as [neg s1].
  destruct (take_digits s1) as [z r]. destruct z; [reflexivity|].
  apply of_decimal_valid.
Qed.

Lemma parseFloat_string_valid (s : string) :
  valid (parseFloat_string s) = true.
Proof.
  unfold parseFloat_string. destruct (take_sign (trim_start s)) as [neg s1].
  destruct (starts_with "Infinity" s1); [reflexivity|].
  destruct (take_decimal s1) as [[[m e] r]|];
    [apply of_decimal_valid | reflexivity].
Qed.

(** The item that [handleAddAppliance] builds is made of doubles. *)
Lemma newItem_valid (now : Z) (st : state) :
  item_valid (newItem now st) = true.
Proof.
  unfold item_valid, newItem. cbn [id watts hours kWh value_valid].
  unfold parseInt, parseFloat.
  rewrite of_Z_valid, parseInt_string_valid, parseFloat_string_valid, div_valid.
  reflexivity.
Qed.

(** The handlers keep a ledger of doubles a ledger of doubles. *)
Lemma step_valid (a : app) (ev : event) :
  forallb item_valid (usageItems (ui a)) = true ->
  forallb item_valid (usageItems (ui (step a ev))) = true.
Proof.
  intros H. destruct ev; try exact H.
  - rewrite usageItems_submit, forallb_app, H. cbn [forallb].
    rewrite newItem_valid. reflexivity.
  - rewrite usageItems_delete. apply forallb_forall. intros it Hit.
    apply filter_In in Hit.
    apply (proj1 (forallb_forall _ _) H it (proj1 Hit)).
Qed.

Lemma run_valid (evs : list event) : forall a : app,
  forallb item_valid (usageItems (ui a)) = true ->
  forallb item_valid (usageItems (ui (run a evs))) = true.
Proof.
  induction evs as [|ev evs IH]; intros a H; cbn [run fold_left].
  - exact H.
  - apply (IH (step a ev)). apply step_valid. exact H.
Qed.

Lemma jsonify_valid (v : jsval) :
  value_valid v = true -> value_valid (jsonify v) = true.
Proof. destruct v as [[s|s| |s m e]|]; intros H; try reflexivity; exact H. Qed.

Lemma jsonify_item_valid (it : item) :
  item_valid it = true -> item_valid (jsonify_item it) = true.
Proof.
  unfold item_valid, jsonify_item. cbn [id name watts hours kWh]. intros H.
  apply Bool.andb_true_iff in H. destruct H as [H Hk].
  apply Bool.andb_true_iff in H. destruct H as [H Hh].
  apply Bool.andb_true_iff in H. destruct H as [Hi Hw].
  rewrite !jsonify_valid by assumption. reflexivity.
Qed.

(** ** The render after the load *)

Lemma renderRows_number (l : list item) :
  renderRows l = None <-> forallb has_number_kWh l = false.
Proof.
  induction l as [|it l IH]; cbn [renderRows forallb].
  - split; discriminate.
  - unfold renderRow at 1, has_number_kWh at 1.
    destruct (kWh it) as [x|]; cbn [andb].
    + destruct (renderRows l) as [rs|].
      * split; [discriminate|]. intros H. apply (proj2 IH) in H.
        discriminate H.
      * split; [intros _; apply (proj1 IH); reflexivity | reflexivity].
    + split; reflexivity.
Qed.

Lemma renderUsage_number (st : state) :
  renderUsage st = None <-> forallb has_number_kWh (usageItems st) = false.
Proof.
  unfold renderUsage. destruct (usageItems st) as [|it l] eqn:E.
  - split; discriminate.
  - rewrite <- (renderRows_number (it :: l)).
    destruct (renderRows (it :: l)); split; try discriminate; reflexivity.
Qed.

(** The mount goes on after the load exactly when every [kWh] of the
    loaded ledger is a Number. *)
Lemma mount_after_load (storage : option string) (st : state) :
  loadOnMount storage initial_state = Loaded st ->
  mount storage
  = if forallb has_number_kWh (usageItems st)
    then Loaded (recomputeAggregate st) else TypeError.
Proof.
  intros H. unfold mount. rewrite H.
  destruct (forallb has_number_kWh (usageItems st)) eqn:E.
  - destruct (renderUsage st) eqn:R; [reflexivity|].
    apply renderUsage_number in R. congruence.
  - rewrite (proj2 (renderUsage_number st) E). reflexivity.
Qed.

Lemma forallb_false_intro {A : Type} (f : A -> bool) (l : list A) (x : A) :
  In x l -> f x = false -> forallb f l = false.
Proof.
  intros Hin Hx. destruct (forallb f l) eqn:E; [|reflexivity].
  rewrite (proj1 (forallb_forall _ _) E x Hin) in Hx. discriminate Hx.
Qed.

(** ** The claims *)



(** C2, as the code has it: in every state reached by events from a
    settled state whose items have consistent [kWh], [totalKwh] is the sum
    of the stored [kWh] values, added left to right from 0 in the order
    of the ledger; it is 0 when the ledger is empty; and two items give
    the same aggregate in either order. *)
Theorem totalKwh_sums_stored_kWh (a : app) (evs : list event) :
  settled (ui a) ->
  Forall kWh_consistent (usageItems (ui a)) ->
  let st := ui (run a evs) in
  totalKwh st = sum_stored_kWh (usageItems st) /\
  (usageItems st = [] -> totalKwh st = of_Z 0) /\
  (forall it1 it2 : item, total_of [it1; it2] = total_of [it2; it1]).
Proof.
  intros Hs Hc st.
  destruct (run_invariants evs a Hs Hc) as [Hs' Hc']. fold st in Hs', Hc'.
  split; [|split].
  - rewrite Hs'. unfold total_of, sum_stored_kWh.
    apply fold_reducer_stored. assumption.
  - intros Hnil. rewrite Hs', Hnil. reflexivity.
  - apply total_of_pair.
Qed.

(** C2, on the session of the end-to-end example: a refrigerator for
    24 h and a heater for 2 h give 6.6 kWh. *)
Lemma totalKwh_sums_stored_kWh_witness :
  let st := ui (run (mkApp initial_state None)
                    [SubmitForm 1746800000000; SelectAppliance "AC/Heater";
                     ChangeHours "2"; SubmitForm 1746800000001]) in
  totalKwh st = sum_stored_kWh (usageItems st) /\
  totalKwh st = parseFloat_string "6.6".
Proof.
  split.
  - apply (totalKwh_sums_stored_kWh (mkApp initial_state None)
             [SubmitForm 1746800000000; SelectAppliance "AC/Heater";
              ChangeHours "2"; SubmitForm 1746800000001]).
    + reflexivity.
    + constructor.
  - vm_compute. reflexivity.
Defined.

(** C2 fails on the order: 100 W, 200 W and 300 W for one hour each,
    entered in this order and in the opposite one, are the same entries
    and give different aggregates (0.6000000000000001 and 0.6). *)
Lemma totalKwh_depends_on_insertion_order :
  let a := mkApp initial_state None in
  let up := run a [ChangeWatts "100"; ChangeHours "1"; SubmitForm 1;
                   ChangeWatts "200"; ChangeHours "1"; SubmitForm 2;
                   ChangeWatts "300"; ChangeHours "1"; SubmitForm 3] in
  let down := run a [ChangeWatts "300"; ChangeHours "1"; SubmitForm 1;
                     ChangeWatts "200"; ChangeHours "1"; SubmitForm 2;
                     ChangeWatts "100"; ChangeHours "1"; SubmitForm 3] in
  Permutation (map entry_data (usageItems (ui up)))
              (map entry_data (usageItems (ui down))) /\
  totalKwh (ui up) = parseFloat_string "0.6000000000000001" /\
  totalKwh (ui down) = parseFloat_string "0.6" /\
  totalKwh (ui up) <> totalKwh (ui down).
Proof.
  cbv zeta. split; [|split; [|split]].
  - vm_compute. apply (Permutation_rev [_; _; _]).
  - vm_compute. reflexivity.
  - vm_compute. reflexivity.
  - vm_compute. discriminate.
Qed.

(** C3, as the code has it: when every numeric property of the ledger is
    a finite Number other than the negative zero, mounting the component
    on what [saveData] stored restores the same sequence of items, and
    [totalKwh] is the aggregate of that same sequence, the [totalKwh] of
    before the save when that was the aggregate; the empty ledger is such
    a ledger.  Nothing is asked of the texts of the Numbers: each reads
    back as the Number it was written for, by [number_text_exact_valid]. *)
Theorem save_then_mount_restores (a : app) :
  forallb item_plain (usageItems (ui a)) = true ->
  let saved := wattsUpData (saveData a) in
  saved = Some (JSON_stringify (usageItems (ui a))) /\
  (forall st : state,
     loadOnMount saved st = Loaded (setUsageItems (usageItems (ui a)) st)) /\
  exists st' : state,
    mount saved = Loaded st' /\
    usageItems st' = usageItems (ui a) /\
    totalKwh st' = total_of (usageItems (ui a)) /\
    (settled (ui a) -> totalKwh st' = totalKwh (ui a)).
Proof.
  intros Hall saved.
  assert (Hex : forallb item_exact (usageItems (ui a)) = true).
  { apply forallb_forall. intros it Hit. apply item_plain_exact.
    apply (proj1 (forallb_forall _ _) Hall it Hit). }
  assert (Hk : forallb has_number_kWh (usageItems (ui a)) = true).
  { apply forallb_forall. intros it Hit. apply item_plain_number_kWh.
    apply (proj1 (forallb_forall _ _) Hall it Hit). }
  assert (Hload : forall st : state,
            loadOnMount saved st
            = Loaded (setUsageItems (usageItems (ui a)) st)).
  { intros st. unfold saved, saveData, loadOnMount. cbn [wattsUpData].
    destruct (JSON_stringify (usageItems (ui a))) as [|c r] eqn:E.
    - unfold JSON_stringify in E. cbn [append] in E. discriminate E.
    - rewrite <- E, (JSON_parse_stringify _ Hex), as_items_json_of_items.
      reflexivity. }
  split; [reflexivity|]. split; [exact Hload|].
  exists (recomputeAggregate (setUsageItems (usageItems (ui a)) initial_state)).
  rewrite (mount_after_load saved _ (Hload initial_state)).
  change (usageItems (setUsageItems (usageItems (ui a)) initial_state))
    with (usageItems (ui a)).
  rewrite Hk. split; [reflexivity|]. split; [reflexivity|].
  split; [reflexivity|]. intros Hs. symmetry. exact Hs.
Qed.

(** C3, on the ledger of the end-to-end example and on the empty one. *)
Lemma save_then_mount_restores_witness :
  let a := run (mkApp initial_state None)
               [SubmitForm 1746800000000; SelectAppliance "AC/Heater";
                ChangeHours "2"; SubmitForm 1746800000001] in
  (forall st : state,
     loadOnMount (wattsUpData (saveData a)) st
     = Loaded (setUsageItems (usageItems (ui a)) st)) /\
  (forall st : state,
     loadOnMount (wattsUpData (saveData (mkApp initial_state None))) st
     = Loaded (setUsageItems [] st)).
Proof.
  cbv zeta. split.
  - apply (save_then_mount_restores
             (run (mkApp initial_state None)
                  [SubmitForm 1746800000000; SelectAppliance "AC/Heater";
                   ChangeHours "2"; SubmitForm 1746800000001])).
    vm_compute. reflexivity.
  - apply (save_then_mount_restores (mkApp initial_state None)).
    reflexivity.
Defined.

(** C3 fails on a ledger with a NaN: an item added with the hours field
    emptied has NaN hours and a NaN [kWh], and the usage list shows it;
    saved and loaded again, both are null, so the sequence of items is
    not the one saved, and the render that follows the load throws: the
    component does not mount, and there is no [totalKwh] at all. *)
Lemma NaN_is_saved_as_null :
  let a := run (mkApp initial_state None)
               [ChangeHours ""; SubmitForm 1746800000000; ClickSave] in
  map hours (usageItems (ui a)) = [VNumber NaN] /\
  map kWh (usageItems (ui a)) = [VNumber NaN] /\
  totalKwh (ui a) = NaN /\
  renderUsage (ui a) <> None /\
  (exists l : list item,
     loadOnMount (wattsUpData a) initial_state
     = Loaded (setUsageItems l initial_state) /\
     l <> usageItems (ui a) /\
     map hours l = [VNull] /\ map kWh l = [VNull]) /\
  mount (wattsUpData a) = TypeError /\
  (forall st' : state, mount (wattsUpData a) <> Loaded st').
Proof.
  cbv zeta. split; [vm_compute; reflexivity|].
  split; [vm_compute; reflexivity|].
  split; [vm_compute; reflexivity|].
  split; [vm_compute; discriminate|].
  split.
  - eexists. split; [vm_compute; reflexivity|].
    split; [vm_compute; discriminate|].
    split; vm_compute; reflexivity.
  - assert (E : mount (wattsUpData
                         (run (mkApp initial_state None)
                              [ChangeHours ""; SubmitForm 1746800000000;
                               ClickSave])) = TypeError)
      by (vm_compute; reflexivity).
    split; [exact E|]. intros st'. rewrite E. discriminate.
Qed.

(** C4, as the code has it: a stored text that [JSON.parse] rejects makes
    the effect that runs on mount end in the SyntaxError, with no ledger
    set; the descent has not run short of fuel, so the rejection is a
    syntax error; only absent data and the empty text leave the state as
    it is. *)
Theorem unparseable_data_throws (text : string) (st : state) :
  text <> EmptyString -> JSON_parse text = None ->
  loadOnMount (Some text) st = SyntaxError /\
  mount (Some text) = SyntaxError /\
  parse_value (2 * String.length text + 1) text <> PFuel /\
  loadOnMount None st = Loaded st /\
  loadOnMount (Some EmptyString) st = Loaded st.
Proof.
  intros Hne Hparse.
  assert (H : forall st0, loadOnMount (Some text) st0 = SyntaxError).
  { intros st0. unfold loadOnMount. destruct text as [|c r]; [congruence|].
    rewrite Hparse. reflexivity. }
  split; [apply H|].
  split; [unfold mount; rewrite H; reflexivity|].
  split; [apply parse_value_fuel|].
  split; reflexivity.
Qed.

(** C4, on a stored text cut short. *)
Lemma unparseable_data_throws_witness :
  mount (Some "[{") = SyntaxError.
Proof.
  apply (unparseable_data_throws "[{" initial_state).
  - discriminate.
  - reflexivity.
Defined.

(** C4 fails: on the stored text "{" the mount ends in the SyntaxError;
    it does not go on with an empty ledger, nor with any state. *)
Lemma malformed_data_is_not_recovered :
  JSON_parse "{" = None /\
  mount (Some "{") = SyntaxError /\
  mount (Some "{") <> Loaded (recomputeAggregate initial_state) /\
  (forall st : state, mount (Some "{") <> Loaded st).
Proof.
  repeat split; try (vm_compute; reflexivity); vm_compute; discriminate.
Qed.

(** C5: a click on delete with [id0] keeps exactly the items whose id is
    not strictly equal to [id0], in their order: an item with that id,
    alone in having it, is taken out from between its neighbours; and when
    no item has that id, the ledger and its aggregate stay as they are. *)
Theorem delete_removes_matching_id (a : app) (id0 : jsval) :
  let a' := step a (ClickDelete id0) in
  (forall it : item,
     In it (usageItems (ui a')) <->
     In it (usageItems (ui a)) /\ strict_eq (id it) id0 = false) /\
  (forall (l1 l2 : list item) (e : item),
     usageItems (ui a) = (l1 ++ e :: l2)%list ->
     strict_eq (id e) id0 = true ->
     (forall it, In it (l1 ++ l2)%list -> strict_eq (id it) id0 = false) ->
     usageItems (ui a') = (l1 ++ l2)%list) /\
  totalKwh (ui a') = total_of (usageItems (ui a')) /\
  ((forall it, In it (usageItems (ui a)) -> strict_eq (id it) id0 = false) ->
   usageItems (ui a') = usageItems (ui a) /\
   totalKwh (ui a') = total_of (usageItems (ui a))).
Proof.
  intros a'. unfold a'. rewrite usageItems_delete.
  split; [|split; [|split]].
  - intros it. rewrite filter_In. unfold strict_neq.
    rewrite Bool.negb_true_iff. reflexivity.
  - intros l1 l2 e Hl He Hrest. rewrite Hl, filter_app. simpl.
    unfold strict_neq at 2. rewrite He. simpl.
    rewrite <- filter_app. apply filter_all. intros it Hit.
    unfold strict_neq. rewrite (Hrest it Hit). reflexivity.
  - reflexivity.
  - intros Habs.
    assert (Hsame : filter (fun it => strict_neq (id it) id0)
                      (usageItems (ui a)) = usageItems (ui a)).
    { apply filter_all. intros it Hit. unfold strict_neq.
      rewrite (Habs it Hit). reflexivity. }
    split; [exact Hsame|].
    simpl. rewrite Hsame. reflexivity.
Qed.

(** C5, on a ledger of two items: deleting the id of the first leaves the
    second, and deleting an id no item has leaves both. *)
Lemma delete_removes_matching_id_witness :
  let a := run (mkApp initial_state None) [SubmitForm 10; SubmitForm 20] in
  usageItems (ui (step a (ClickDelete (VNumber (of_Z 10)))))
  = [newItem 20 initial_state] /\
  usageItems (ui (step a (ClickDelete (VNumber (of_Z 30)))))
  = usageItems (ui a).
Proof.
  cbv zeta. split.
  - apply (proj1 (proj2 (delete_removes_matching_id
                           (run (mkApp initial_state None)
                                [SubmitForm 10; SubmitForm 20])
                           (VNumber (of_Z 10))))
             [] [newItem 20 initial_state] (newItem 10 initial_state)).
    + reflexivity.
    + reflexivity.
    + intros it [Hit|[]]. subst it. reflexivity.
  - apply (proj2 (proj2 (proj2 (delete_removes_matching_id
                                  (run (mkApp initial_state None)
                                       [SubmitForm 10; SubmitForm 20])
                                  (VNumber (of_Z 30)))))).
    intros it [Hit|[Hit|[]]]; subst it; reflexivity.
Defined.

(** C6: the message of the insights tab is [Excellent] exactly when the
    percentage is at most 50, [Good] when it is above 50 and at most 80,
    [Average] when it is above 80 and at most 120, and [Warning] above
    120 (or on NaN, which no comparison accepts); 50, 80 and 120
    themselves give [Excellent], [Good] and [Average]; and
    [getEfficiencyClass] colours by the same thresholds. *)
Theorem efficiencyBand_thresholds (p : number) :
  (efficiencyBand p = Excellent <-> leb p (of_Z 50) = true) /\
  (efficiencyBand p = Good <->
   ltb (of_Z 50) p = true /\ leb p (of_Z 80) = true) /\
  (efficiencyBand p = Average <->
   ltb (of_Z 80) p = true /\ leb p (of_Z 120) = true) /\
  (efficiencyBand p = Warning <->
   ltb (of_Z 120) p = true \/ is_nan p = true) /\
  efficiencyBand (of_Z 50) = Excellent /\
  efficiencyBand (of_Z 80) = Good /\
  efficiencyBand (of_Z 120) = Average /\
  (forall st : state,
     getEfficiencyClass st
     = class_of_band (efficiencyBand (comparisonPercentage st))).
Proof.
  assert (H58 : leb p (of_Z 50) = true -> leb p (of_Z 80) = true)
    by (apply leb_const_mono; reflexivity).
  assert (H81 : leb p (of_Z 80) = true -> leb p (of_Z 120) = true)
    by (apply leb_const_mono; reflexivity).
  pose proof (above_const p (of_Z 50) eq_refl) as A50.
  pose proof (above_const p (of_Z 80) eq_refl) as A80.
  pose proof (above_const p (of_Z 120) eq_refl) as A120.
  pose proof (leb_true_not_nan p (of_Z 50)) as N50.
  pose proof (leb_true_not_nan p (of_Z 80)) as N80.
  pose proof (leb_true_not_nan p (of_Z 120)) as N120.
  assert (Hclass : forall st : state,
             getEfficiencyClass st
             = class_of_band (efficiencyBand (comparisonPercentage st))).
  { intros st. unfold getEfficiencyClass, efficiencyBand.
    destruct (leb (comparisonPercentage st) (of_Z 50)); [reflexivity|].
    destruct (leb (comparisonPercentage st) (of_Z 80)); [reflexivity|].
    destruct (leb (comparisonPercentage st) (of_Z 120)); reflexivity. }
  repeat (split; [|try exact Hclass; try reflexivity]).
  all: unfold efficiencyBand in *;
    destruct (leb p (of_Z 50)) eqn:E50;
    destruct (leb p (of_Z 80)) eqn:E80;
    destruct (leb p (of_Z 120)) eqn:E120;
    destruct (is_nan p) eqn:En;
    destruct (ltb (of_Z 50) p) eqn:L50;
    destruct (ltb (of_Z 80) p) eqn:L80;
    destruct (ltb (of_Z 120) p) eqn:L120;
    intuition (try discriminate; try congruence).
Qed.

(** C7: after the aggregate effect, [comparisonPercentage] is [totalKwh]
    divided by [US_AVERAGE_KWH] and multiplied by 100; the constant is
    the Number 30, which is not zero; and an empty ledger gives 0. *)
Theorem comparisonPercentage_formula (st : state) :
  let st' := recomputeAggregate st in
  comparisonPercentage st'
  = mul (div (totalKwh st') US_AVERAGE_KWH) (of_Z 100) /\
  totalKwh st' = total_of (usageItems st) /\
  US_AVERAGE_KWH = parseFloat_string "30" /\
  eqb US_AVERAGE_KWH (of_Z 0) = false /\
  comparisonPercentage (recomputeAggregate (setUsageItems [] st)) = of_Z 0 /\
  comparisonPercentage initial_state = of_Z 0.
Proof. cbv zeta. repeat split. Qed.

(** C8, as the code has it: when the hours field parses to NaN, the item
    stores NaN as its [hours] and NaN as its [kWh]; 24 is what the hours
    field of the form is set back to after the item is added. *)
Theorem NaN_hours_are_stored (a : app) (now : Z) :
  is_nan (parseFloat (newHours (ui a))) = true ->
  let e := newItem now (ui a) in
  let a' := step a (SubmitForm now) in
  hours e = VNumber NaN /\
  kWh e = VNumber NaN /\
  usageItems (ui a') = (usageItems (ui a) ++ [e])%list /\
  newHours (ui a') = InNumber (of_Z 24).
Proof.
  intros H e a'. apply is_nan_eq in H.
  assert (Hh : hours e = VNumber NaN).
  { unfold e, newItem. simpl. rewrite H. reflexivity. }
  assert (Hk : kWh e = VNumber NaN).
  { unfold e, newItem. simpl. rewrite H, mul_NaN_r, div_NaN_l. reflexivity. }
  repeat split; assumption.
Qed.

(** C8, with the hours field emptied. *)
Lemma NaN_hours_are_stored_witness :
  let a := step (mkApp initial_state None) (ChangeHours "") in
  hours (newItem 1746800000000 (ui a)) = VNumber NaN /\
  kWh (newItem 1746800000000 (ui a)) = VNumber NaN.
Proof.
  cbv zeta.
  destruct (NaN_hours_are_stored
              (step (mkApp initial_state None) (ChangeHours ""))
              1746800000000 eq_refl) as [Hh [Hk _]].
  split; [exact Hh | exact Hk].
Defined.

(** C8 fails: with the hours field emptied, the field parses to NaN and
    the item added has neither 24 as its [hours] nor 150 * 24 / 1000 as
    its [kWh]. *)
Lemma hours_fallback_counterexample :
  let a := step (mkApp initial_state None) (ChangeHours "") in
  let a' := step a (SubmitForm 1746800000000) in
  is_nan (parseFloat (newHours (ui a))) = true /\
  map hours (usageItems (ui a')) = [VNumber NaN] /\
  map hours (usageItems (ui a')) <> [VNumber (of_Z 24)] /\
  map kWh (usageItems (ui a'))
  <> [VNumber (div (mul (of_Z 150) (of_Z 24)) (of_Z 1000))].
Proof.
  cbv zeta. repeat split; vm_compute; discriminate.
Qed.

(** C9, where the code breaks it: two submissions at the same value of
    [Date.now()] add two items with the same id, and one click on delete
    then removes both. *)
Theorem equal_clock_duplicates_id (a : app) (now : Z) :
  let a2 := run a [SubmitForm now; SubmitForm now] in
  exists e1 e2 : item,
    usageItems (ui a2) = (usageItems (ui a) ++ [e1; e2])%list /\
    id e1 = id e2 /\
    usageItems (ui (run (mkApp initial_state None)
                        [SubmitForm 1746800000000; SubmitForm 1746800000000;
                         ClickDelete (VNumber (of_Z 1746800000000))]))
    = [].
Proof.
  cbv zeta.
  exists (newItem now (ui a)),
         (newItem now (ui (step a (SubmitForm now)))).
  split; [|split].
  - simpl. rewrite <- app_assoc. reflexivity.
  - reflexivity.
  - vm_compute. reflexivity.
Qed.

(** C10, as the code has it: the item stores [parseInt] of the watts field
    and computes its [kWh] from that value.  For a field written as
    digits, a point and digits, after an optional minus, that value is the
    integer before the point, the decimal truncated towards zero, whereas
    [parseFloat] would read the whole decimal. *)
Theorem watts_truncated_by_parseInt
    (a : app) (now : Z) (neg : bool) (ip fp : string) :
  ip <> "" -> all_digits ip = true -> all_digits fp = true ->
  newWatts (ui a) = InText ((if neg then "-" else "") ++ ip ++ "." ++ fp) ->
  let e := newItem now (ui a) in
  let n := of_decimal neg (Z.to_N (digits_value 0 ip)) 0 in
  parseFloat (newWatts (ui a))
  = of_decimal neg (Z.to_N (digits_value 0 (ip ++ fp)))
               (- Z.of_nat (String.length fp)) /\
  digits_value 0 ip
  = digits_value 0 (ip ++ fp) / 10 ^ Z.of_nat (String.length fp) /\
  watts e = VNumber n /\
  kWh e = VNumber (div (mul n (parseFloat (newHours (ui a)))) (of_Z 1000)).
Proof.
  intros Hne Hi Hf Hw e n.
  destruct (parse_plain_decimal neg ip fp Hne Hi Hf) as [Hint Hfloat].
  unfold e, newItem, parseInt, parseFloat. rewrite Hw.
  cbn [ToString watts kWh]. rewrite Hint, Hfloat.
  rewrite (digits_value_truncate ip fp Hf). repeat split.
Qed.

(** C10, on the watts field "150.7": 150 is stored, and 3.6 kWh. *)
Lemma watts_truncated_by_parseInt_witness :
  let a := step (mkApp initial_state None) (ChangeWatts "150.7") in
  let e := newItem 1746800000000 (ui a) in
  watts e = VNumber (of_Z 150) /\
  kWh e = VNumber (parseFloat_string "3.6").
Proof.
  cbv zeta.
  destruct (watts_truncated_by_parseInt
              (step (mkApp initial_state None) (ChangeWatts "150.7"))
              1746800000000 false "150" "7")
    as [_ [_ [Hw Hk]]];
    [discriminate | reflexivity | reflexivity | reflexivity |].
  split; [exact Hw | exact Hk].
Defined.

(** C10 fails on a watts field in exponent notation: "15e-1" is the
    number 1.5, whose integer part is 1, and the item stores 15 and
    computes its [kWh] from 15. *)
Lemma parseInt_stops_at_exponent :
  let a := step (mkApp initial_state None) (ChangeWatts "15e-1") in
  let e := newItem 1746800000000 (ui a) in
  parseFloat (newWatts (ui a)) = parseFloat_string "1.5" /\
  leb (of_Z 1) (parseFloat (newWatts (ui a))) = true /\
  ltb (parseFloat (newWatts (ui a))) (of_Z 2) = true /\
  watts e = VNumber (of_Z 15) /\
  watts e <> VNumber (of_Z 1) /\
  kWh e = VNumber (div (mul (of_Z 15) (of_Z 24)) (of_Z 1000)) /\
  kWh e <> VNumber (div (mul (of_Z 1) (of_Z 24)) (of_Z 1000)).
Proof.
  cbv zeta. repeat split; vm_compute; try reflexivity; discriminate.
Qed.

(** * Further properties of the code *)

(** ** Further facts on Numbers *)

Lemma shr_1_nonneg (mrs : shr_record) :
  0 <= shr_m mrs -> 0 <= shr_m (shr_1 mrs).
Proof.
  destruct mrs as [m r s]. simpl. intros H.
  destruct m as [|p|p]; [simpl; lia | | lia].
  destruct p; simpl; lia.
Qed.

Lemma iter_shr_1_nonneg (p : positive) : forall mrs : shr_record,
  0 <= shr_m mrs -> 0 <= shr_m (iter_pos shr_1 p mrs).
Proof.
  induction p as [p IH|p IH|]; intros mrs H; simpl.
  - apply IH, IH, shr_1_nonneg, H.
  - apply IH, IH, H.
  - apply shr_1_nonneg, H.
Qed.

Lemma shr_fexp_nonneg (m e : Z) (l : location) :
  0 <= m -> 0 <= shr_m (fst (shr_fexp prec emax m e l)).
Proof.
  intros H. unfold shr_fexp, shr.
  assert (H0 : 0 <= shr_m (shr_record_of_loc m l))
    by (destruct l as [|[]]; exact H).
  destruct (fexp prec emax (Zdigits2 m + e) - e) as [|p|p]; simpl;
    [exact H0 | apply iter_shr_1_nonneg; exact H0 | exact H0].
Qed.

Lemma round_nearest_even_nonneg (m : Z) (l : location) :
  0 <= m -> 0 <= round_nearest_even m l.
Proof.
  intros H. destruct l as [|[]]; simpl; try lia.
  destruct (Z.even m); lia.
Qed.

(** Rounding a mantissa that is not negative never gives NaN. *)
Lemma binary_round_aux_not_nan (s : bool) (m e : Z) (l : location) :
  0 <= m -> is_nan (binary_round_aux prec emax s m e l) = false.
Proof.
  intros H. unfold binary_round_aux.
  pose proof (shr_fexp_nonneg m e l H) as H1.
  destruct (shr_fexp prec emax m e l) as [mrs' e'].
  cbn [fst] in H1.
  pose proof (shr_fexp_nonneg
                (round_nearest_even (shr_m mrs') (loc_of_shr_record mrs'))
                e' loc_Exact (round_nearest_even_nonneg _ _ H1)) as H2.
  destruct (shr_fexp prec emax
              (round_nearest_even (shr_m mrs') (loc_of_shr_record mrs'))
              e' loc_Exact) as [mrs'' e''].
  cbn [fst] in H2.
  destruct (shr_m mrs'') as [|p|p]; [reflexivity | | lia].
  destruct (e'' <=? emax - prec); reflexivity.
Qed.

(** The Number of an integer is never NaN. *)
Lemma of_Z_not_nan (z : Z) : is_nan (of_Z z) = false.
Proof.
  unfold of_Z, binary_normalize. destruct z as [|p|p]; [reflexivity| |];
    unfold binary_round;
    destruct (shl_align p 0 (fexp prec emax (Z.pos (digits2_pos p) + 0)))
      as [mz ez];
    apply binary_round_aux_not_nan; lia.
Qed.

Lemma eqb_refl (x : number) : is_nan x = false -> eqb x x = true.
Proof.
  unfold eqb, SFeqb.
  destruct x as [s|s| |s m e]; simpl; intros H; try reflexivity;
    try discriminate.
  - destruct s; reflexivity.
  - change (Pos.compare_cont Eq m m) with (Pos.compare m m).
    rewrite Z.compare_refl, Pos.compare_refl. destruct s; reflexivity.
Qed.

Lemma add_NaN_l (x : number) : add NaN x = NaN.
Proof. reflexivity. Qed.

Lemma add_NaN_r (x : number) : add x NaN = NaN.
Proof. destruct x; reflexivity. Qed.

(** [<=] on Numbers is transitive. *)
Lemma leb_trans (x y z : number) :
  leb x y = true -> leb y z = true -> leb x z = true.
Proof.
  unfold leb, SFleb.
  destruct x as [sx|sx| |sx mx ex], y as [sy|sy| |sy my ey],
           z as [sz|sz| |sz mz ez]; simpl;
    try discriminate; try reflexivity;
    try (destruct sx); try (destruct sy); try (destruct sz); simpl;
    try discriminate; try reflexivity; try (intros; assumption).
  all: repeat match goal with
         | |- context [Pos.compare_cont Eq ?a ?b] =>
             change (Pos.compare_cont Eq a b) with (Pos.compare a b)
         end;
    repeat match goal with
      | |- context [Z.compare ?a ?b] => destruct (Z.compare_spec a b)
      end;
    try discriminate; try reflexivity; try (exfalso; lia);
    repeat match goal with
      | |- context [Pos.compare ?a ?b] => destruct (Pos.compare_spec a b)
      end;
    simpl; try discriminate; try reflexivity; exfalso; lia.
Qed.

(** ** The saved indicator and the storage *)

Lemma step_saved_sound (a : app) (ev : event) :
  (isSaved (ui a) = true ->
   wattsUpData a = Some (JSON_stringify (usageItems (ui a)))) ->
  isSaved (ui (step a ev)) = true ->
  wattsUpData (step a ev)
  = Some (JSON_stringify (usageItems (ui (step a ev)))).
Proof.
  intros H. destruct ev; simpl; try exact H; try discriminate.
  reflexivity.
Qed.

(** X1: whenever the saved indicator is on, the storage holds the text of
    the ledger as it is now. *)
Theorem saved_indicator_sound (evs : list event) : forall a : app,
  (isSaved (ui a) = true ->
   wattsUpData a = Some (JSON_stringify (usageItems (ui a)))) ->
  isSaved (ui (run a evs)) = true ->
  wattsUpData (run a evs)
  = Some (JSON_stringify (usageItems (ui (run a evs)))).
Proof.
  induction evs as [|ev evs IH]; intros a H; simpl.
  - exact H.
  - apply IH. apply step_saved_sound. exact H.
Qed.

Lemma saved_indicator_sound_witness :
  let a := run (mkApp initial_state None)
               [SubmitForm 1746800000000; ClickSave; ChangeHours "3"] in
  wattsUpData a = Some (JSON_stringify (usageItems (ui a))).
Proof.
  cbv zeta.
  apply (saved_indicator_sound
           [SubmitForm 1746800000000; ClickSave; ChangeHours "3"]
           (mkApp initial_state None)).
  - discriminate.
  - reflexivity.
Defined.

(** X2: the storage is written by a click on save and by nothing else. *)
Theorem storage_written_only_by_save (evs : list event) : forall a : app,
  Forall (fun ev => is_save ev = false) evs ->
  wattsUpData (run a evs) = wattsUpData a.
Proof.
  induction evs as [|ev evs IH]; intros a Hall; simpl.
  - reflexivity.
  - inversion Hall as [|? ? Hev Hrest]; subst. rewrite (IH _ Hrest).
    destruct ev; try reflexivity. discriminate Hev.
Qed.

Lemma storage_written_only_by_save_witness :
  wattsUpData (run (mkApp initial_state (Some "[]"))
                   [SubmitForm 1746800000000; ChangeWatts "40";
                    ClickDelete (VNumber (of_Z 5)); SavedTimeout])
  = Some "[]".
Proof.
  apply (storage_written_only_by_save
           [SubmitForm 1746800000000; ChangeWatts "40";
            ClickDelete (VNumber (of_Z 5)); SavedTimeout]
           (mkApp initial_state (Some "[]"))).
  repeat constructor.
Defined.

(** ** Adding and deleting *)

(** X3: a click on the id of the item just added always deletes it,
    together with every older item of that id, for [Date.now()] is never
    NaN; and when no older item has that id, the ledger and its aggregate
    are back to what they were. *)
Theorem delete_undoes_append (a : app) (now : Z) :
  let a' := run a [SubmitForm now; ClickDelete (VNumber (of_Z now))] in
  ~ In (newItem now (ui a)) (usageItems (ui a')) /\
  (forall it : item, In it (usageItems (ui a')) ->
                     strict_eq (id it) (VNumber (of_Z now)) = false) /\
  usageItems (ui a')
  = filter (fun it => strict_neq (id it) (VNumber (of_Z now)))
           (usageItems (ui a)) /\
  ((forall it : item, In it (usageItems (ui a)) ->
                      strict_eq (id it) (VNumber (of_Z now)) = false) ->
   usageItems (ui a') = usageItems (ui a) /\
   totalKwh (ui a') = total_of (usageItems (ui a))).
Proof.
  intros a'.
  assert (Hself : strict_eq (id (newItem now (ui a))) (VNumber (of_Z now))
                  = true).
  { simpl. apply eqb_refl, of_Z_not_nan. }
  assert (Hitems : usageItems (ui a')
                   = filter (fun it => strict_neq (id it) (VNumber (of_Z now)))
                            (usageItems (ui a))).
  { unfold a', run. cbn [fold_left].
    rewrite usageItems_delete, usageItems_submit, filter_app.
    cbn [filter]. unfold strict_neq at 2. rewrite Hself. cbn [negb].
    apply app_nil_r. }
  assert (Hgone : forall it : item, In it (usageItems (ui a')) ->
                    strict_eq (id it) (VNumber (of_Z now)) = false).
  { intros it Hit. rewrite Hitems in Hit. apply filter_In in Hit.
    destruct Hit as [_ Hit]. unfold strict_neq in Hit.
    apply Bool.negb_true_iff in Hit. exact Hit. }
  split; [|split; [|split]].
  - intros Hin. apply Hgone in Hin. congruence.
  - exact Hgone.
  - exact Hitems.
  - intros Hfresh.
    assert (Hsame : usageItems (ui a') = usageItems (ui a)).
    { rewrite Hitems. apply filter_all. intros it Hit. unfold strict_neq.
      rewrite (Hfresh it Hit). reflexivity. }
    split; [exact Hsame|].
    change (totalKwh (ui a')) with (total_of (usageItems (ui a'))).
    rewrite Hsame. reflexivity.
Qed.

(** X3, on an older item of the same id and on one of another id. *)
Lemma delete_undoes_append_witness :
  usageItems (ui (run (mkApp initial_state None)
                      [SubmitForm 20; SubmitForm 20;
                       ClickDelete (VNumber (of_Z 20))])) = [] /\
  usageItems (ui (run (mkApp initial_state None)
                      [SubmitForm 10; SubmitForm 20;
                       ClickDelete (VNumber (of_Z 20))]))
  = usageItems (ui (run (mkApp initial_state None) [SubmitForm 10])).
Proof.
  split.
  - destruct (delete_undoes_append
                (run (mkApp initial_state None) [SubmitForm 20]) 20)
      as [_ [_ [H _]]].
    exact H.
  - destruct (delete_undoes_append
                (run (mkApp initial_state None) [SubmitForm 10]) 20)
      as [_ [_ [_ H]]].
    apply H. intros it [Hit|[]]. subst it. reflexivity.
Defined.

Lemma filter_filter_comm {A : Type} (f g : A -> bool) (l : list A) :
  filter f (filter g l) = filter g (filter f l).
Proof.
  induction l as [|x l IH]; simpl; [reflexivity|].
  destruct (f x) eqn:Hf, (g x) eqn:Hg; simpl;
    rewrite ?Hf, ?Hg, IH; reflexivity.
Qed.

Lemma filter_idem {A : Type} (f : A -> bool) (l : list A) :
  filter f (filter f l) = filter f l.
Proof.
  apply filter_all. intros x Hx. apply filter_In in Hx. apply Hx.
Qed.

(** X4: deleting twice with one id is deleting once, and two deletions
    give the same component whichever comes first. *)
Theorem deletions_commute (a : app) (i j : jsval) :
  run a [ClickDelete i; ClickDelete i] = run a [ClickDelete i] /\
  run a [ClickDelete i; ClickDelete j] = run a [ClickDelete j; ClickDelete i].
Proof.
  split.
  - unfold run, fold_left, step. cbn [ui wattsUpData].
    unfold handleDeleteItem, recomputeAggregate. cbn.
    rewrite filter_idem. reflexivity.
  - unfold run, fold_left, step. cbn [ui wattsUpData].
    unfold handleDeleteItem, recomputeAggregate. cbn.
    rewrite (filter_filter_comm (fun it => strict_neq (id it) j)
               (fun it => strict_neq (id it) i)). reflexivity.
Qed.

Lemma length_step (a : app) (ev : event) :
  (List.length (usageItems (ui (step a ev)))
   <= List.length (usageItems (ui a)) + (if is_submit ev then 1 else 0))%nat /\
  (is_delete ev = false ->
   List.length (usageItems (ui (step a ev)))
   = List.length (usageItems (ui a)) + (if is_submit ev then 1 else 0))%nat.
Proof.
  destruct ev; simpl; try (split; [lia | intros _; lia]).
  - rewrite length_app. simpl. split; [lia | intros _; lia].
  - split; [|discriminate].
    pose proof (filter_length_le (fun it => strict_neq (id it) id0)
                  (usageItems (ui a))). lia.
Qed.

(** X5: every submission adds one item, whatever the form holds, and no
    other event adds any: the ledger has at most as many items more as
    there were submissions, and exactly as many when nothing was
    deleted. *)
Theorem submissions_are_counted (evs : list event) : forall a : app,
  (List.length (usageItems (ui (run a evs)))
   <= List.length (usageItems (ui a))
      + List.length (filter is_submit evs))%nat /\
  (forallb (fun ev => negb (is_delete ev)) evs = true ->
   List.length (usageItems (ui (run a evs)))
   = List.length (usageItems (ui a))
     + List.length (filter is_submit evs))%nat.
Proof.
  induction evs as [|ev evs IH]; intros a; cbn [run fold_left].
  - simpl. split; [lia | intros _; lia].
  - destruct (IH (step a ev)) as [IH1 IH2]. fold (run (step a ev) evs).
    destruct (length_step a ev) as [L1 L2].
    cbn [filter forallb]. split.
    + unfold run in *. destruct (is_submit ev); simpl in *; lia.
    + intros H. apply Bool.andb_true_iff in H. destruct H as [Hev Hrest].
      apply Bool.negb_true_iff in Hev. specialize (IH2 Hrest).
      specialize (L2 Hev). unfold run in *.
      destruct (is_submit ev); simpl in *; lia.
Qed.

(** ** NaN in the aggregate *)

Lemma fold_reducer_NaN (l : list item) : fold_left reducer l NaN = NaN.
Proof.
  induction l as [|it l IH]; [reflexivity|].
  cbn [fold_left]. unfold reducer at 2. rewrite add_NaN_l. exact IH.
Qed.

(** One summand that is NaN makes the aggregate NaN. *)
Lemma total_of_NaN (l : list item) (e : item) :
  In e l -> energy_of e = NaN -> total_of l = NaN.
Proof.
  unfold total_of. generalize (of_Z 0).
  induction l as [|it l IH]; intros acc Hin He; [contradiction|].
  cbn [fold_left]. destruct Hin as [Heq|Hin].
  - subst it. unfold reducer at 2. fold (energy_of e).
    rewrite He, add_NaN_r. apply fold_reducer_NaN.
  - apply IH; assumption.
Qed.

Lemma step_percentage_settled (a : app) (ev : event) :
  percentage_settled (ui a) -> percentage_settled (ui (step a ev)).
Proof.
  unfold percentage_settled. intros H.
  destruct ev; simpl; try assumption; reflexivity.
Qed.

Lemma run_settled (evs : list event) : forall a : app,
  settled (ui a) -> percentage_settled (ui a) ->
  settled (ui (run a evs)) /\ percentage_settled (ui (run a evs)).
Proof.
  induction evs as [|ev evs IH]; intros a Hs Hp; simpl.
  - split; assumption.
  - apply IH; [apply step_settled | apply step_percentage_settled];
      assumption.
Qed.

(** X6: an item added while the watts field or the hours field parses to
    NaN makes [totalKwh] and [comparisonPercentage] NaN, whatever else the
    ledger holds, for as long as the item is not deleted; the message is
    then the warning, in red, over a green bar. *)
Theorem NaN_item_poisons_aggregate (a : app) (now : Z) (evs : list event) :
  is_nan (parseInt (newWatts (ui a)))
  || is_nan (parseFloat (newHours (ui a))) = true ->
  Forall (fun ev => deletes (id (newItem now (ui a))) ev = false) evs ->
  let st := ui (run (step a (SubmitForm now)) evs) in
  totalKwh st = NaN /\
  comparisonPercentage st = NaN /\
  efficiencyBand (comparisonPercentage st) = Warning /\
  getEfficiencyClass st = "text-red-500" /\
  barClass st = "bg-green-500".
Proof.
  intros Hnan Hall st.
  assert (He : energy_of (newItem now (ui a)) = NaN).
  { unfold energy_of, newItem. cbn [watts hours ToNumber].
    apply Bool.orb_true_iff in Hnan. destruct Hnan as [H|H];
      apply is_nan_eq in H; rewrite H.
    - reflexivity.
    - rewrite mul_NaN_r. reflexivity. }
  assert (Hin : In (newItem now (ui a)) (usageItems st)).
  { apply run_keeps_item; [|exact Hall].
    rewrite usageItems_submit. apply in_or_app. right. left. reflexivity. }
  destruct (run_settled evs (step a (SubmitForm now)) eq_refl eq_refl)
    as [Hs Hp].
  fold st in Hs, Hp.
  assert (Ht : totalKwh st = NaN).
  { rewrite Hs. apply (total_of_NaN _ _ Hin He). }
  assert (Hc : comparisonPercentage st = NaN).
  { rewrite Hp, Ht. reflexivity. }
  unfold getEfficiencyClass, barClass. rewrite Hc.
  repeat split; assumption.
Qed.

Lemma NaN_item_poisons_aggregate_witness :
  let a := step (mkApp initial_state None) (ChangeHours "") in
  totalKwh (ui (run (step a (SubmitForm 1746800000000))
                    [SelectAppliance "TV"; SubmitForm 1746800000001]))
  = NaN.
Proof.
  cbv zeta.
  apply (NaN_item_poisons_aggregate
           (step (mkApp initial_state None) (ChangeHours ""))
           1746800000000
           [SelectAppliance "TV"; SubmitForm 1746800000001]).
  - reflexivity.
  - repeat constructor.
Defined.

(** ** The message and the bar *)

(** X7: a percentage that is at most another never gets a worse
    message. *)
Theorem efficiencyBand_monotone (p q : number) :
  leb p q = true ->
  (band_rank (efficiencyBand p) <= band_rank (efficiencyBand q))%nat.
Proof.
  intros H. unfold efficiencyBand.
  pose proof (leb_trans p q (of_Z 50) H) as T50.
  pose proof (leb_trans p q (of_Z 80) H) as T80.
  pose proof (leb_trans p q (of_Z 120) H) as T120.
  destruct (leb q (of_Z 50)); [rewrite (T50 eq_refl); simpl; lia|].
  destruct (leb q (of_Z 80)).
  { rewrite (T80 eq_refl). destruct (leb p (of_Z 50)); simpl; lia. }
  destruct (leb q (of_Z 120)).
  { rewrite (T120 eq_refl).
    destruct (leb p (of_Z 50)); [simpl; lia|].
    destruct (leb p (of_Z 80)); simpl; lia. }
  destruct (leb p (of_Z 50)); [simpl; lia|].
  destruct (leb p (of_Z 80)); [simpl; lia|].
  destruct (leb p (of_Z 120)); simpl; lia.
Qed.

Lemma efficiencyBand_monotone_witness :
  (band_rank (efficiencyBand (parseFloat_string "22"))
   <= band_rank (efficiencyBand (parseFloat_string "95.5")))%nat.
Proof.
  apply (efficiencyBand_monotone (parseFloat_string "22")
           (parseFloat_string "95.5")).
  reflexivity.
Defined.

(** X8: the bar is red exactly above 100 percent; a red bar goes with
    the message [Average] or [Warning] only, and the warning goes with a
    red bar unless the percentage is NaN, where the bar is green. *)
Theorem barClass_agrees_with_band (st : state) :
  let p := comparisonPercentage st in
  (barClass st = "bg-red-500" <-> ltb (of_Z 100) p = true) /\
  (barClass st = "bg-red-500" ->
   efficiencyBand p = Average \/ efficiencyBand p = Warning) /\
  (efficiencyBand p = Warning ->
   (barClass st = "bg-red-500" <-> is_nan p = false)).
Proof.
  intros p. unfold barClass. fold p.
  pose proof (above_const p (of_Z 100) eq_refl) as A100.
  assert (M50 : leb p (of_Z 50) = true -> leb p (of_Z 100) = true)
    by (apply leb_const_mono; reflexivity).
  assert (M80 : leb p (of_Z 80) = true -> leb p (of_Z 100) = true)
    by (apply leb_const_mono; reflexivity).
  assert (M120 : leb p (of_Z 100) = true -> leb p (of_Z 120) = true)
    by (apply leb_const_mono; reflexivity).
  pose proof (leb_true_not_nan p (of_Z 100)) as N100.
  unfold efficiencyBand.
  destruct (ltb (of_Z 100) p) eqn:L;
    destruct (leb p (of_Z 50)) eqn:E50;
    destruct (leb p (of_Z 80)) eqn:E80;
    destruct (leb p (of_Z 100)) eqn:E100;
    destruct (leb p (of_Z 120)) eqn:E120;
    destruct (is_nan p) eqn:En;
    intuition (try discriminate; try congruence).
Qed.

(** X9: the width of the bar is the percentage up to 200 and 200 above;
    it is never more than 200. *)
Theorem barWidth_capped (st : state) :
  let p := comparisonPercentage st in
  (leb p (of_Z 200) = true -> barWidth st = p) /\
  (ltb (of_Z 200) p = true -> barWidth st = of_Z 200) /\
  (is_nan p = false -> leb (barWidth st) (of_Z 200) = true) /\
  (is_nan p = true -> barWidth st = NaN).
Proof.
  intros p. unfold barWidth, Math_min. fold p.
  change (is_nan (of_Z 200)) with false. rewrite Bool.orb_false_r.
  pose proof (above_const p (of_Z 200) eq_refl) as A.
  split; [|split; [|split]].
  - intros H. rewrite (leb_true_not_nan _ _ H).
    assert (L : ltb (of_Z 200) p = false).
    { destruct (ltb (of_Z 200) p) eqn:L0; [|reflexivity].
      destruct (proj1 A eq_refl) as [L1 _]. congruence. }
    rewrite L. destruct p as [[]| | |]; reflexivity.
  - intros H. destruct (proj1 A H) as [_ Hn]. rewrite Hn, H. reflexivity.
  - intros Hn. rewrite Hn. destruct (ltb (of_Z 200) p) eqn:L.
    + reflexivity.
    + destruct (leb p (of_Z 200)) eqn:E.
      * destruct p as [[]| | |]; exact E.
      * exfalso. assert (X : false = true)
          by (apply (proj2 A); split; [reflexivity | exact Hn]).
        discriminate X.
  - intros Hn. rewrite Hn. reflexivity.
Qed.

(** ** The catalog and the form *)

(** Every name of the catalog is found with its own wattage, and the text
    of every wattage reads back as that wattage. *)
Lemma catalog_checked :
  forallb (fun a =>
             match find (fun b => String.eqb (fst b) (fst a)) APPLIANCES with
             | Some b => (snd b =? snd a)
             | None => false
             end
             && number_same (parseInt (InNumber (of_Z (snd a))))
                            (of_Z (snd a)))
          APPLIANCES = true.
Proof. vm_compute. reflexivity. Qed.

Lemma catalog_entry (n : string) (w : Z) :
  In (n, w) APPLIANCES ->
  (exists n', find (fun b => String.eqb (fst b) n) APPLIANCES = Some (n', w)) /\
  parseInt (InNumber (of_Z w)) = of_Z w.
Proof.
  intros Hin.
  pose proof (proj1 (forallb_forall _ _) catalog_checked (n, w) Hin) as H.
  cbn [fst snd] in H. apply Bool.andb_true_iff in H. destruct H as [Hf Hp].
  split; [|apply number_same_eq in Hp; exact Hp].
  destruct (find (fun b => String.eqb (fst b) n) APPLIANCES) as [[n' w']|];
    [|discriminate].
  cbn [snd] in Hf. apply Z.eqb_eq in Hf. subst w'. exists n'. reflexivity.
Qed.

(** X10: choosing an appliance of the catalog sets the watts field to its
    wattage, and the item then added has that name, that wattage and the
    energy of that wattage; a name the catalog does not have sets the
    watts field to 0. *)
Theorem catalog_wattage_is_stored (a : app) (n : string) (now : Z) :
  let a1 := step a (SelectAppliance n) in
  let e := newItem now (ui a1) in
  (forall w : Z, In (n, w) APPLIANCES ->
     newWatts (ui a1) = InNumber (of_Z w) /\
     name e = n /\
     watts e = VNumber (of_Z w) /\
     kWh e = VNumber (div (mul (of_Z w) (parseFloat (newHours (ui a))))
                          (of_Z 1000))) /\
  ((forall w : Z, ~ In (n, w) APPLIANCES) ->
   newWatts (ui a1) = InNumber (of_Z 0) /\ name e = n /\
   watts e = VNumber (of_Z 0)).
Proof.
  intros a1 e. split.
  - intros w Hin. destruct (catalog_entry n w Hin) as [[n' Hfind] Hparse].
    assert (Hw : newWatts (ui a1) = InNumber (of_Z w)).
    { unfold a1, step, handleApplianceChange. cbn [ui newWatts setNewWatts].
      rewrite Hfind. reflexivity. }
    unfold e, newItem. cbn [name watts kWh]. rewrite Hw, Hparse.
    repeat split.
  - intros Hnot.
    assert (Hfind : find (fun b => String.eqb (fst b) n) APPLIANCES = None).
    { destruct (find (fun b => String.eqb (fst b) n) APPLIANCES)
        as [[n' w']|] eqn:Hf; [|reflexivity].
      apply find_some in Hf. destruct Hf as [Hin Heq].
      cbn [fst] in Heq. apply String.eqb_eq in Heq. subst n'.
      exfalso. exact (Hnot w' Hin). }
    assert (Hw : newWatts (ui a1) = InNumber (of_Z 0)).
    { unfold a1, step, handleApplianceChange. cbn [ui newWatts setNewWatts].
      rewrite Hfind. reflexivity. }
    unfold e, newItem. cbn [name watts]. rewrite Hw. repeat split.
Qed.

Lemma catalog_wattage_is_stored_witness :
  let a1 := step (mkApp initial_state None) (SelectAppliance "Dryer") in
  watts (newItem 1746800000000 (ui a1)) = VNumber (of_Z 3000) /\
  kWh (newItem 1746800000000 (ui a1)) = VNumber (of_Z 72).
Proof.
  cbv zeta.
  destruct (proj1 (catalog_wattage_is_stored (mkApp initial_state None)
                     "Dryer" 1746800000000) 3000)
    as [_ [_ [Hw Hk]]].
  - simpl. tauto.
  - split; [exact Hw|]. rewrite Hk. vm_compute. reflexivity.
Defined.

Lemma parseFloat_24 : parseFloat (InNumber (of_Z 24)) = of_Z 24.
Proof. vm_compute. reflexivity. Qed.

Lemma step_keeps_hours_reset (a : app) (ev : event) :
  changes_hours ev = false ->
  newHours (ui a) = InNumber (of_Z 24) ->
  newHours (ui (step a ev)) = InNumber (of_Z 24).
Proof.
  destruct ev; simpl; intros Hev H; try assumption; try reflexivity.
  discriminate Hev.
Qed.

(** X11: after a submission the hours field is 24 again, and stays so
    until it is edited: the next item added has 24 hours, whatever hours
    the one before had. *)
Theorem hours_reset_after_submit (a : app) (now now' : Z) (evs : list event) :
  Forall (fun ev => changes_hours ev = false) evs ->
  let a' := run (step a (SubmitForm now)) evs in
  newHours (ui a') = InNumber (of_Z 24) /\
  hours (newItem now' (ui a')) = VNumber (of_Z 24) /\
  kWh (newItem now' (ui a'))
  = VNumber (div (mul (parseInt (newWatts (ui a'))) (of_Z 24)) (of_Z 1000)).
Proof.
  intros Hall a'.
  assert (H : newHours (ui a') = InNumber (of_Z 24)).
  { unfold a'. generalize (step a (SubmitForm now))
      (eq_refl : newHours (ui (step a (SubmitForm now))) = InNumber (of_Z 24)).
    induction Hall as [|ev evs Hev Hrest IH]; intros b Hb; simpl.
    - exact Hb.
    - apply IH. apply step_keeps_hours_reset; assumption. }
  unfold newItem. cbn [hours kWh]. rewrite H, parseFloat_24. repeat split.
Qed.

Lemma hours_reset_after_submit_witness :
  let a := step (mkApp initial_state None) (ChangeHours "2") in
  map hours (usageItems (ui (run a [SubmitForm 1; ChangeWatts "60";
                                    SubmitForm 2])))
  = [VNumber (of_Z 2); VNumber (of_Z 24)].
Proof.
  cbv zeta.
  pose proof (hours_reset_after_submit
                (step (mkApp initial_state None) (ChangeHours "2"))
                1 2 [ChangeWatts "60"]) as H.
  cbv zeta in H. destruct H as [_ [Hh _]]; [repeat constructor|].
  unfold run. cbn [fold_left]. rewrite usageItems_submit.
  unfold run in Hh. cbn [fold_left] in Hh.
  rewrite map_app. cbn [map]. rewrite Hh. vm_compute. reflexivity.
Defined.

(** ** What a reload gives back *)

Lemma stringify_value_jsonify (v : jsval) :
  stringify_value (jsonify v) = stringify_value v.
Proof. destruct v as [[s|s| |s m e]|]; reflexivity. Qed.

Lemma stringify_item_jsonify (it : item) :
  stringify_item (jsonify_item it) = stringify_item it.
Proof.
  unfold stringify_item, jsonify_item. cbn [id name watts hours kWh].
  rewrite !stringify_value_jsonify. reflexivity.
Qed.

Lemma stringify_items_jsonify (l : list item) :
  stringify_items (map jsonify_item l) = stringify_items l.
Proof.
  induction l as [|it l IH]; [reflexivity|].
  destruct l as [|it' l].
  - cbn [map stringify_items]. apply stringify_item_jsonify.
  - change (map jsonify_item (it :: it' :: l))
      with (jsonify_item it :: jsonify_item it' :: map jsonify_item l).
    rewrite !stringify_items_cons, stringify_item_jsonify.
    change (jsonify_item it' :: map jsonify_item l)
      with (map jsonify_item (it' :: l)).
    rewrite IH. reflexivity.
Qed.

Lemma value_exact_jsonify (v : jsval) :
  value_savable v = true -> value_exact (jsonify v) = true.
Proof.
  destruct v as [[s|s| |s m e]|]; intros H.
  - vm_compute. reflexivity.
  - reflexivity.
  - reflexivity.
  - exact H.
  - reflexivity.
Qed.

Lemma item_exact_jsonify (it : item) :
  item_savable it = true -> item_exact (jsonify_item it) = true.
Proof.
  unfold item_savable, item_exact, jsonify_item.
  cbn [id name watts hours kWh]. intros H.
  apply Bool.andb_true_iff in H. destruct H as [H Hk].
  apply Bool.andb_true_iff in H. destruct H as [H Hh].
  apply Bool.andb_true_iff in H. destruct H as [Hi Hw].
  rewrite !value_exact_jsonify by assumption. reflexivity.
Qed.

Lemma jsonify_idem (v : jsval) : jsonify (jsonify v) = jsonify v.
Proof. destruct v as [[s|s| |s m e]|]; reflexivity. Qed.

Lemma jsonify_item_idem (it : item) :
  jsonify_item (jsonify_item it) = jsonify_item it.
Proof.
  unfold jsonify_item. cbn [id name watts hours kWh].
  rewrite !jsonify_idem. reflexivity.
Qed.

(** Loading what [saveData] stored, for a ledger of doubles. *)
Lemma loadOnMount_saved (a : app) (st : state) :
  forallb item_valid (usageItems (ui a)) = true ->
  loadOnMount (wattsUpData (saveData a)) st
  = Loaded (setUsageItems (map jsonify_item (usageItems (ui a))) st).
Proof.
  intros Hall. unfold saveData, loadOnMount. cbn [wattsUpData].
  assert (Hex : forallb item_exact (map jsonify_item (usageItems (ui a)))
                = true).
  { apply forallb_forall. intros it Hit. apply in_map_iff in Hit.
    destruct Hit as [it0 [Heq Hin]]. subst it.
    apply item_exact_jsonify, item_valid_savable.
    apply (proj1 (forallb_forall _ _) Hall it0 Hin). }
  assert (Htext : JSON_stringify (usageItems (ui a))
                  = JSON_stringify (map jsonify_item (usageItems (ui a)))).
  { unfold JSON_stringify. rewrite stringify_items_jsonify. reflexivity. }
  destruct (JSON_stringify (usageItems (ui a))) as [|c r] eqn:E.
  - unfold JSON_stringify in E. cbn [append] in E. discriminate E.
  - rewrite Htext, (JSON_parse_stringify _ Hex), as_items_json_of_items.
    reflexivity.
Qed.

(** X12: what [saveData] stores is never rejected on the next mount,
    whatever the doubles of the ledger: the load sets the ledger with
    every NaN and infinity turned into null and every zero positive,
    nothing else changed; that ledger is again one of doubles, a further
    save and load leaves it as it is, and saving it writes the same text
    again.  The mount goes on to the aggregate effect when no [kWh] has
    become null, and ends in the TypeError of the render otherwise. *)
Theorem reload_normalises_ledger (a : app) :
  forallb item_valid (usageItems (ui a)) = true ->
  let saved := wattsUpData (saveData a) in
  let back := map jsonify_item (usageItems (ui a)) in
  (forall st : state, loadOnMount saved st = Loaded (setUsageItems back st)) /\
  map name back = map name (usageItems (ui a)) /\
  map jsonify_item back = back /\
  forallb item_valid back = true /\
  (forall st : state,
     wattsUpData (saveData (mkApp (setUsageItems back st) saved)) = saved) /\
  (forallb has_number_kWh back = true ->
   mount saved
   = Loaded (recomputeAggregate (setUsageItems back initial_state))) /\
  (forallb has_number_kWh back = false -> mount saved = TypeError).
Proof.
  intros Hall saved back.
  split; [intros st; apply loadOnMount_saved; exact Hall|].
  split; [unfold back; rewrite map_map; reflexivity|].
  split; [unfold back; rewrite map_map; apply map_ext, jsonify_item_idem|].
  split.
  { apply forallb_forall. intros it Hit. apply in_map_iff in Hit.
    destruct Hit as [it0 [Heq Hin]]. subst it. apply jsonify_item_valid.
    apply (proj1 (forallb_forall _ _) Hall it0 Hin). }
  split.
  { intros st. unfold saved, saveData. cbn [wattsUpData ui]. f_equal.
    change (usageItems (setUsageItems back st)) with back.
    unfold JSON_stringify, back. rewrite stringify_items_jsonify.
    reflexivity. }
  pose proof (mount_after_load saved _ (loadOnMount_saved a initial_state Hall))
    as Hm.
  change (usageItems
            (setUsageItems (map jsonify_item (usageItems (ui a)))
                           initial_state))
    with back in Hm.
  split; intros Hk; rewrite Hm, Hk; reflexivity.
Qed.

(** X12, on a ledger with an item of NaN hours. *)
Lemma reload_normalises_ledger_witness :
  let a := run (mkApp initial_state None)
               [ChangeHours ""; SubmitForm 1746800000000;
                SubmitForm 1746800000001] in
  map hours (map jsonify_item (usageItems (ui a)))
  = [VNull; VNumber (of_Z 24)] /\
  loadOnMount (wattsUpData (saveData a)) initial_state
  = Loaded (setUsageItems (map jsonify_item (usageItems (ui a)))
                          initial_state) /\
  mount (wattsUpData (saveData a)) = TypeError.
Proof.
  cbv zeta.
  destruct (reload_normalises_ledger
              (run (mkApp initial_state None)
                   [ChangeHours ""; SubmitForm 1746800000000;
                    SubmitForm 1746800000001]))
    as [Hl [_ [_ [_ [_ [_ Ht]]]]]].
  - vm_compute. reflexivity.
  - split; [vm_compute; reflexivity|]. split; [apply Hl|].
    apply Ht. vm_compute. reflexivity.
Defined.

(** ** The usage table *)

Lemma renderRows_None (l : list item) :
  renderRows l = None <-> exists it : item, In it l /\ kWh it = VNull.
Proof.
  induction l as [|it l IH]; cbn [renderRows].
  - split; [discriminate | intros [it [[] _]]].
  - unfold renderRow at 1. destruct (kWh it) as [x|] eqn:Hk.
    + destruct (renderRows l) as [rs|].
      * split; [discriminate|].
        intros [it' [[Heq|Hin] Hnull]]; [subst it'; congruence|].
        assert (X : Some rs = None)
          by (apply (proj2 IH); exists it'; split; assumption).
        discriminate X.
      * split; [|reflexivity]. intros _.
        destruct (proj1 IH eq_refl) as [it' [Hin Hnull]].
        exists it'. split; [right; exact Hin | exact Hnull].
    + split; [|reflexivity]. intros _. exists it.
      split; [left; reflexivity | exact Hk].
Qed.

Lemma renderUsage_null_iff (st : state) :
  renderUsage st = None <->
  exists it : item, In it (usageItems st) /\ kWh it = VNull.
Proof.
  unfold renderUsage. destruct (usageItems st) as [|it l] eqn:E.
  - split; [discriminate | intros [it [[] _]]].
  - rewrite <- (renderRows_None (it :: l)).
    destruct (renderRows (it :: l)); split; try discriminate; reflexivity.
Qed.

(** X13: the usage list fails to render, on the TypeError of
    [item.kWh.toFixed], exactly when some item of the ledger has a null
    [kWh]; the empty ledger renders its placeholder. *)
Theorem renderUsage_fails_on_null_kWh (st : state) :
  (renderUsage st = None <->
   exists it : item, In it (usageItems st) /\ kWh it = VNull) /\
  (usageItems st = [] <-> renderUsage st = Some NoItems).
Proof.
  unfold renderUsage. destruct (usageItems st) as [|it l] eqn:E.
  - split; split; try reflexivity; try discriminate.
    intros [it [[] _]].
  - split.
    + rewrite <- (renderRows_None (it :: l)).
      destruct (renderRows (it :: l)); split; try discriminate; reflexivity.
    + split; [discriminate|].
      destruct (renderRows (it :: l)); discriminate.
Qed.

Lemma step_number_kWh (a : app) (ev : event) :
  forallb has_number_kWh (usageItems (ui a)) = true ->
  forallb has_number_kWh (usageItems (ui (step a ev))) = true.
Proof.
  intros H. destruct ev; simpl; try assumption.
  - rewrite forallb_app, H. reflexivity.
  - apply forallb_forall. intros it Hit. apply filter_In in Hit.
    apply (proj1 (forallb_forall _ _) H it (proj1 Hit)).
Qed.

(** X14: the handlers never store a null [kWh]: from a ledger without
    one, no sequence of events leads to a usage list that fails to
    render. *)
Theorem session_always_renders (evs : list event) : forall a : app,
  forallb has_number_kWh (usageItems (ui a)) = true ->
  forallb has_number_kWh (usageItems (ui (run a evs))) = true /\
  renderUsage (ui (run a evs)) <> None.
Proof.
  induction evs as [|ev evs IH]; intros a H; cbn [run fold_left].
  - split; [exact H|]. intros Hn.
    apply (proj1 (renderUsage_null_iff (ui a))) in Hn.
    destruct Hn as [it [Hin Hnull]].
    pose proof (proj1 (forallb_forall _ _) H it Hin) as Hk.
    unfold has_number_kWh in Hk. rewrite Hnull in Hk. discriminate Hk.
  - apply (IH (step a ev)). apply step_number_kWh. exact H.
Qed.

Lemma session_always_renders_witness :
  renderUsage (ui (run (mkApp initial_state None)
                       [ChangeHours ""; SubmitForm 1746800000000]))
  <> None.
Proof.
  apply (session_always_renders
           [ChangeHours ""; SubmitForm 1746800000000]
           (mkApp initial_state None)).
  reflexivity.
Defined.

(** X15: an item whose [kWh] is NaN or an infinity renders in the
    session that added it; once the ledger has been saved and the
    component is mounted again, its [kWh] is null and the render of the
    usage list throws: the mount ends in the TypeError.  This holds of
    every ledger that the handlers build from a ledger of doubles, the
    empty one to begin with. *)
Theorem reloaded_NaN_breaks_table (a0 : app) (evs : list event) (e : item)
    (x : number) :
  forallb item_valid (usageItems (ui a0)) = true ->
  In e (usageItems (ui (run a0 evs))) -> kWh e = VNumber x ->
  is_finite x = false ->
  renderRow e <> None /\
  loadOnMount (wattsUpData (saveData (run a0 evs))) initial_state
  = Loaded (setUsageItems (map jsonify_item (usageItems (ui (run a0 evs))))
                          initial_state) /\
  In (jsonify_item e) (map jsonify_item (usageItems (ui (run a0 evs)))) /\
  kWh (jsonify_item e) = VNull /\
  mount (wattsUpData (saveData (run a0 evs))) = TypeError.
Proof.
  intros Hall Hin Hk Hfin.
  pose proof (run_valid evs a0 Hall) as Hv.
  pose proof (loadOnMount_saved (run a0 evs) initial_state Hv) as Hload.
  assert (Hnull : kWh (jsonify_item e) = VNull).
  { unfold jsonify_item. cbn [kWh]. rewrite Hk.
    destruct x as [s|s| |s m e0]; try discriminate Hfin; reflexivity. }
  split; [unfold renderRow; rewrite Hk; discriminate|].
  split; [exact Hload|].
  split; [apply in_map; exact Hin|].
  split; [exact Hnull|].
  rewrite (mount_after_load _ _ Hload).
  change (usageItems
            (setUsageItems (map jsonify_item (usageItems (ui (run a0 evs))))
                           initial_state))
    with (map jsonify_item (usageItems (ui (run a0 evs)))).
  rewrite (forallb_false_intro has_number_kWh _ (jsonify_item e)).
  - reflexivity.
  - apply in_map. exact Hin.
  - unfold has_number_kWh. rewrite Hnull. reflexivity.
Qed.

(** X15, on an item added with the hours field emptied. *)
Lemma reloaded_NaN_breaks_table_witness :
  mount (wattsUpData
           (saveData (run (mkApp initial_state None)
                          [ChangeHours ""; SubmitForm 1746800000000])))
  = TypeError.
Proof.
  apply (reloaded_NaN_breaks_table
           (mkApp initial_state None)
           [ChangeHours ""; SubmitForm 1746800000000]
           (newItem 1746800000000
              (ui (step (mkApp initial_state None) (ChangeHours ""))))
           NaN).
  - reflexivity.
  - left. reflexivity.
  - vm_compute. reflexivity.
  - reflexivity.
Defined.

(** ** The examples of the specification *)

(** The end-to-end example: 150 W for 24 h and 1500 W for 2 h are 3.6 and
    3 kWh, 6.6 kWh in total, 22 percent of the reference, [Excellent]. *)
Example end_to_end :
  let st := ui (run (mkApp initial_state None)
                    [SubmitForm 1746800000000; SelectAppliance "AC/Heater";
                     ChangeHours "2"; SubmitForm 1746800000001]) in
  map kWh (usageItems st)
  = [VNumber (parseFloat_string "3.6"); VNumber (parseFloat_string "3")] /\
  Number_toString (totalKwh st) = "6.6" /\
  Number_toString (comparisonPercentage st) = "22" /\
  efficiencyBand (comparisonPercentage st) = Excellent.
Proof. cbv zeta. repeat split; vm_compute; reflexivity. Qed.

(** Just above the thresholds. *)
Example above_the_thresholds :
  efficiencyBand (parseFloat_string "50.01") = Good /\
  efficiencyBand (parseFloat_string "80.01") = Average /\
  efficiencyBand (parseFloat_string "120.01") = Warning.
Proof. repeat split; vm_compute; reflexivity. Qed.

(** A power of two: of the two decimals of 16 digits around 2^89, the
    nearest does not read back and the other one does. *)
Example power_of_two_text :
  Number_toString (of_Z (2 ^ 89)) = "6.189700196426902e+26" /\
  parseFloat_string "6.189700196426902e+26" = of_Z (2 ^ 89) /\
  parseFloat_string "6.189700196426901e+26" <> of_Z (2 ^ 89).
Proof.
  split; [vm_compute; reflexivity|].
  split; [vm_compute; reflexivity | vm_compute; discriminate].
Qed.

(** The negative zero, which [parseInt] gives for the text "-0", is
    written as 0 and read back as the positive zero. *)
Example negative_zero_is_saved_as_zero :
  parseInt_string "-0" = S754_zero true /\
  stringify_value (VNumber (parseInt_string "-0")) = "0" /\
  JSON_parse "0" = Some (JNumber (S754_zero false)) /\
  number_text_exact (parseInt_string "-0") = false.
Proof. repeat split; vm_compute; reflexivity. Qed.
